(** * hdmf.container: the container tree, generated field accessors and data buffers

    A shallow embedding of [src/hdmf/container.py] (classes
    [AbstractContainer], [Container] and [Data]) as functions over an
    explicit object store, and the properties its specification states
    about it.

    Python objects are mutable and shared, so every instance lives in a
    store indexed by its identity; a method is a function from a store to
    a store and an outcome (a value or a raised exception).  A raise keeps
    the mutations made before it, as in Python. *)

From Stdlib Require Import ZArith Ascii String List Bool Lia.
From stdpp Require Import base option list strings gmap functions.
Import ListNotations.
Local Open Scope string_scope.
Local Open Scope list_scope.
Set Warnings "-register-all".

(** ** Values *)

(** Identity of an [AbstractContainer] instance, and of a [Proxy]. *)
Definition oid := nat.
Definition pid := nat.

(** What the tree protocol passes around in parent position: [None], an
    instance of [AbstractContainer] (or of a subclass), or a [Proxy]. *)
Inductive Ref :=
| RNone
| RObj (x : oid)
| RProxy (q : pid).

(** Python values that reach the field setters and the data buffers.
    A [dict] keeps its insertion order, hence the association list. *)
Inductive Value :=
| VNone
| VBool (b : bool)
| VInt (z : Z)
| VStr (s : string)
| VObj (x : oid)
| VProxy (q : pid)
| VList (l : list Value)
| VTuple (l : list Value)
| VDict (d : list (string * Value))
| VSet (l : list Value).

Definition value_of_ref (r : Ref) : Value :=
  match r with
  | RNone => VNone
  | RObj x => VObj x
  | RProxy q => VProxy q
  end.

(** [a is b] on references: identity of the referenced object. *)
Definition ref_is (a b : Ref) : bool :=
  match a, b with
  | RNone, RNone => true
  | RObj x, RObj y => Nat.eqb x y
  | RProxy p, RProxy q => Nat.eqb p q
  | _, _ => false
  end.

(** Truth value of a Python value, as [if v:] and [dict.get(k, default)]
    followed by a test use it. *)
Definition truthy (v : Value) : bool :=
  match v with
  | VNone => false
  | VBool b => b
  | VInt z => negb (Z.eqb z 0)
  | VStr s => negb (String.eqb s "")
  | VObj _ | VProxy _ => true
  | VList l | VTuple l | VSet l => negb (Nat.eqb (length l) 0)
  | VDict d => negb (Nat.eqb (length d) 0)
  end.

(** [d.get(k)] on a dict. *)
Fixpoint dict_get (k : string) (d : list (string * Value)) : option Value :=
  match d with
  | [] => None
  | (k', v) :: d' => if String.eqb k' k then Some v else dict_get k d'
  end.

(** ** Exceptions *)

(** One constructor per raise site of the module, plus the errors the
    interpreter raises on its own.  [py_class] gives the Python class. *)
Inductive Exn :=
| AlreadySet (name : string)                     (* _setter: can't set attribute -- already set *)
| MissingName                                    (* _check_field_spec: must specify 'name' *)
| FieldsNotTuple                                 (* __gather_fields: must be of type tuple *)
| NameContainsSlash (name : string)              (* __init__: name cannot contain '/' *)
| ReassignContainerSource                        (* container_source setter *)
| CannotReassignParent (x p : oid)               (* parent setter: Cannot reassign parent *)
| CannotOverwriteProxyWithNone (x : oid)         (* parent setter: Got None for parent *)
| UnrecognizedKey (k field : string)             (* Container._setter: Unrecognized key *)
| MustBeNamed (field : string) (required : Value) (* Container._setter: field must be named *)
| CannotAppend (ty : string)                     (* Data.append: cannot append to object of type *)
| CannotExtend (ty : string)                     (* Data.extend: cannot extend object of type *)
| NoAttribute (v : Value) (attr : string)         (* interpreter: object v has no attribute *)
| NotCallable (v : Value)                        (* interpreter: object v is not callable *)
| BadAttributeName (v : Value)                   (* interpreter: attribute name must be string *)
| NoItemAssignment (v : Value)                   (* interpreter: object does not support item assignment *)
| CannotBroadcast                                (* h5py: can't broadcast the written value *)
| RecursionLimit.                                (* interpreter: maximum recursion depth exceeded *)

Inductive PyExc := ValueError | AttributeError | TypeError | RecursionError | BaseException_.

Definition py_class (e : Exn) : PyExc :=
  match e with
  | AlreadySet _ => AttributeError
  | MissingName => ValueError
  | FieldsNotTuple => TypeError
  | NameContainsSlash _ => ValueError
  | ReassignContainerSource => BaseException_
  | CannotReassignParent _ _ => ValueError
  | CannotOverwriteProxyWithNone _ => ValueError
  | UnrecognizedKey _ _ => ValueError
  | MustBeNamed _ _ => ValueError
  | CannotAppend _ => ValueError
  | CannotExtend _ => ValueError
  | NoAttribute _ _ => AttributeError
  | NotCallable _ => TypeError
  | BadAttributeName _ => TypeError
  | NoItemAssignment _ => TypeError
  | CannotBroadcast => TypeError
  | RecursionLimit => RecursionError
  end.

Inductive Outcome (A : Type) :=
| Ok (a : A)
| Raise (e : Exn).
Arguments Ok {A} a.
Arguments Raise {A} e.

Definition raised {A} (r : Outcome A) : bool :=
  match r with Ok _ => false | Raise _ => true end.

(** ** Objects and the store *)

(** Which of the module's classes an instance belongs to.  Every
    instance satisfies [isinstance(o, AbstractContainer)]; only
    [KContainer] satisfies [isinstance(o, Container)].  Subclasses of
    [Container] are [KContainer], those of [Data] (such as [DataRegion])
    are [KData]. *)
Inductive Kind := KAbstract | KContainer | KData.

Definition is_Container (k : Kind) : bool :=
  match k with KContainer => true | _ => false end.

(** What a [Data] instance wraps: a Python [list], a [numpy.ndarray], an
    [h5py.Dataset], or anything else (a tuple, a [DataIO], ...), of which
    the type is kept as Python prints it.  Arrays and datasets are
    one-dimensional here. *)
Inductive Backing :=
| BList (l : list Value)
| BNdarray (l : list Value)
| BDataset (l : list Value)
| BOther (ty : string) (l : list Value).

Record Obj := mkObj {
  kind : Kind;
  data_type : option string;   (* the class attribute _data_type_attr names, when the class has it *)
  name : string;
  container_source : Value;
  parent : Ref;
  children : list oid;
  modified : bool;
  field_values : gmap string Value;
  data : option Backing        (* the attribute __data, which only Data.__init__ creates *)
}.

Definition with_parent (p : Ref) (o : Obj) : Obj :=
  mkObj (kind o) (data_type o) (name o) (container_source o) p
        (children o) (modified o) (field_values o) (data o).

Definition with_children (c : list oid) (o : Obj) : Obj :=
  mkObj (kind o) (data_type o) (name o) (container_source o) (parent o)
        c (modified o) (field_values o) (data o).

Definition with_modified (m : bool) (o : Obj) : Obj :=
  mkObj (kind o) (data_type o) (name o) (container_source o) (parent o)
        (children o) m (field_values o) (data o).

Definition with_field_values (f : gmap string Value) (o : Obj) : Obj :=
  mkObj (kind o) (data_type o) (name o) (container_source o) (parent o)
        (children o) (modified o) f (data o).

Definition with_data (d : option Backing) (o : Obj) : Obj :=
  mkObj (kind o) (data_type o) (name o) (container_source o) (parent o)
        (children o) (modified o) (field_values o) d.

Definition with_container_source (s : Value) (o : Obj) : Obj :=
  mkObj (kind o) (data_type o) (name o) s (parent o)
        (children o) (modified o) (field_values o) (data o).

Definition with_name (n : string) (o : Obj) : Obj :=
  mkObj (kind o) (data_type o) n (container_source o) (parent o)
        (children o) (modified o) (field_values o) (data o).

(** Modelled from the spec: the [Proxy] class lives in the build layer,
    outside this module.  The parent setter only uses the two members the
    specification names: the predicate [matches(candidate) -> bool] and the
    hook [add_candidate(candidate)], which records the candidate. *)
Record Proxy := mkProxy {
  matches : Ref -> bool;
  candidates : list Ref
}.

Definition add_candidate (c : Ref) (p : Proxy) : Proxy :=
  mkProxy (matches p) (candidates p ++ [c]).

(** The store: every instance and every proxy by identity, and the next
    unused instance identity. *)
Record State := mkState {
  objs : oid -> Obj;
  proxies : pid -> Proxy;
  next : oid
}.

Definition upd_obj (x : oid) (f : Obj -> Obj) (st : State) : State :=
  mkState (<[x := f (objs st x)]> (objs st)) (proxies st) (next st).

Definition upd_proxy (q : pid) (f : Proxy -> Proxy) (st : State) : State :=
  mkState (objs st) (<[q := f (proxies st q)]> (proxies st)) (next st).

Arguments upd_obj : simpl never.
Arguments upd_proxy : simpl never.

(** A method body: store in, store and outcome out. *)
Definition M (A : Type) := State -> State * Outcome A.

Definition ret {A} (a : A) : M A := fun st => (st, Ok a).
Definition raise {A} (e : Exn) : M A := fun st => (st, Raise e).
Definition bind {A B} (m : M A) (k : A -> M B) : M B :=
  fun st => match m st with
            | (st', Ok a) => k a st'
            | (st', Raise e) => (st', Raise e)
            end.

Notation "x <- m ;; k" := (bind m (fun x => k))
  (at level 100, m at next level, right associativity).
Notation "m ;;; k" := (bind m (fun _ => k))
  (at level 100, right associativity).

(** ** AbstractContainer: dirty flag and parent *)

(** [isinstance(r, Container)] for what a parent slot holds. *)
Definition ref_is_Container (st : State) (r : Ref) : bool :=
  match r with
  | RObj p => is_Container (kind (objs st p))
  | _ => false
  end.

(** [set_modified(modified)].  The method calls itself on the parent;
    [depth] is the number of nested calls the interpreter still allows,
    and running out of it is Python's [RecursionError]. *)
Fixpoint set_modified (depth : nat) (self : oid) (m : bool) (st : State)
  : State * Outcome unit :=
  match depth with
  | 0 => (st, Raise RecursionLimit)
  | S depth' =>
      let st1 := upd_obj self (with_modified m) st in
      if m && ref_is_Container st1 (parent (objs st1 self)) then
        match parent (objs st1 self) with
        | RObj p => set_modified depth' p true st1
        | _ => (st1, Ok tt)
        end
      else (st1, Ok tt)
  end.

(** The [children] property: a tuple built from the internal list. *)
Definition children_prop (st : State) (self : oid) : Value :=
  VTuple (map VObj (children (objs st self))).

Definition append_child (c : oid) (o : Obj) : Obj :=
  with_children (children o ++ [c]) o.

(** The [parent] setter. *)
Definition parent_setter (depth : nat) (self : oid) (parent_container : Ref)
  : M unit := fun st =>
  let cur := parent (objs st self) in
  if ref_is cur parent_container then (st, Ok tt)
  else
    match cur with
    | RObj p => (st, Raise (CannotReassignParent self p))
    | RProxy q =>
        match parent_container with
        | RNone => (st, Raise (CannotOverwriteProxyWithNone self))
        | _ =>
            if matches (proxies st q) parent_container then
              let st1 := upd_obj self (with_parent parent_container) st in
              match parent_container with
              | RObj p =>
                  set_modified depth p true (upd_obj p (append_child self) st1)
              | _ => (st1, Raise (NoAttribute (value_of_ref parent_container)
                                                "_AbstractContainer__children"))
              end
            else (upd_proxy q (add_candidate parent_container) st, Ok tt)
        end
    | RNone =>
        let st1 := upd_obj self (with_parent parent_container) st in
        if ref_is_Container st1 parent_container then
          match parent_container with
          | RObj p =>
              set_modified depth p true (upd_obj p (append_child self) st1)
          | _ => (st1, Ok tt)
          end
        else (st1, Ok tt)
    end.

(** [add_child(child)] (deprecated): the argument is a [Container] or
    [None]; with [None] the method only warns. *)
Definition add_child (depth : nat) (self : oid) (child : option oid) : M unit :=
  fun st =>
  match child with
  | Some c =>
      match parent (objs st c) with
      | RObj _ => (st, Ok tt)
      | _ => parent_setter depth c (RObj self) st
      end
  | None => (st, Ok tt)
  end.

(** The [container_source] setter. *)
Definition container_source_setter (self : oid) (source : Value) : M unit :=
  fun st =>
  match container_source (objs st self) with
  | VNone => (upd_obj self (with_container_source source) st, Ok tt)
  | _ => (st, Raise ReassignContainerSource)
  end.

(** [get_ancestor(data_type)].  With a type given the method runs a
    [while] loop up the parent links, which does not end on a cyclic
    chain: the loop takes the number of iterations it may use besides the
    first, and answers [None] when they do not suffice.  Reading
    [p._data_type_attr] fails on a proxy, and reading the attribute it
    names fails on an instance whose class does not define it. *)
Fixpoint get_ancestor_loop (steps : nat) (st : State) (p : Ref) (dt : string)
  : option (Outcome Ref) :=
  match p with
  | RNone => Some (Ok RNone)
  | RProxy q => Some (Raise (NoAttribute (VProxy q) "_data_type_attr"))
  | RObj y =>
      match data_type (objs st y) with
      | None => Some (Raise (NoAttribute (VObj y) "data_type"))
      | Some t =>
          if String.eqb t dt then Some (Ok (RObj y))
          else match steps with
               | 0 => None
               | S steps' => get_ancestor_loop steps' st (parent (objs st y)) dt
               end
      end
  end.

Definition get_ancestor (steps : nat) (st : State) (self : oid)
    (dt : option string) : option (Outcome Ref) :=
  match dt with
  | None => Some (Ok (parent (objs st self)))
  | Some t => get_ancestor_loop steps st (parent (objs st self)) t
  end.

(** [__new__], with the keywords [container_source] and [parent] it
    pops: the instance gets the next unused identity, starts without
    parent or children and with the dirty flag set, and then receives the
    [parent] keyword through the setter.  [k] and [dt] say which class
    is instantiated and whether it declares a type tag. *)
Definition AbstractContainer_new (depth : nat) (k : Kind) (dt : option string)
    (source : Value) (kw_parent : Ref) : M oid := fun st =>
  let inst := next st in
  let o := mkObj k dt "" source RNone [] true ∅ None in
  let st1 := mkState (<[inst := o]> (objs st)) (proxies st) (S inst) in
  match parent_setter depth inst kw_parent st1 with
  | (st2, Ok _) => (st2, Ok inst)
  | (st2, Raise e) => (st2, Raise e)
  end.

Fixpoint contains_slash (s : string) : bool :=
  match s with
  | EmptyString => false
  | String c s' => if Ascii.eqb c "/"%char then true else contains_slash s'
  end.

Definition AbstractContainer_init (self : oid) (nm : string) : M unit := fun st =>
  if contains_slash nm then (st, Raise (NameContainsSlash nm))
  else (upd_obj self (fun o => with_field_values ∅ (with_name nm o)) st, Ok tt).

Definition Data_init (self : oid) (nm : string) (d : Backing) : M unit :=
  AbstractContainer_init self nm ;;;
  (fun st => (upd_obj self (with_data (Some d)) st, Ok tt)).

(** Instance creation: [__new__] and then [__init__], as [cls(name=...)]
    runs them, or as the build layer does with explicit keywords for
    [__new__]. *)
Definition new_Container (depth : nat) (k : Kind) (dt : option string)
    (nm : string) (source : Value) (kw_parent : Ref) : M oid :=
  inst <- AbstractContainer_new depth k dt source kw_parent ;;
  AbstractContainer_init inst nm ;;;
  ret inst.

Definition new_Data (depth : nat) (dt : option string) (nm : string)
    (d : Backing) (source : Value) (kw_parent : Ref) : M oid :=
  inst <- AbstractContainer_new depth KData dt source kw_parent ;;
  Data_init inst nm d ;;;
  ret inst.

(** ** Generated field accessors *)

(** A field descriptor is the dict [_check_field_spec] returns. *)
Definition Descriptor := list (string * Value).

(** [field['name']]; [__gather_fields] only generates accessors for a
    descriptor whose name is a string. *)
Definition field_name (field : Descriptor) : string :=
  match dict_get "name" field with
  | Some (VStr s) => s
  | _ => ""
  end.

(** A generated setter, [setter(self, val)]. *)
Definition Setter := nat -> oid -> Value -> M unit.

(** The getter [AbstractContainer._getter] makes: [self.fields.get(name)]. *)
Definition getter (nm : string) (st : State) (self : oid) : Value :=
  match field_values (objs st self) !! nm with
  | Some v => v
  | None => VNone
  end.

(** The inner function of [AbstractContainer._setter]. *)
Definition setter (nm : string) : Setter := fun _ self val st =>
  match val with
  | VNone => (st, Ok tt)
  | _ =>
      match field_values (objs st self) !! nm with
      | Some _ => (st, Raise (AlreadySet nm))
      | None =>
          (upd_obj self
             (with_field_values (<[nm := val]> (field_values (objs st self)))) st,
           Ok tt)
      end
  end.

(** [AbstractContainer._setter(field)]: no setter for a field that is not
    settable. *)
Definition AbstractContainer_setter (field : Descriptor) : option Setter :=
  let settable := match dict_get "settable" field with
                  | Some v => truthy v
                  | None => true
                  end in
  if settable then Some (setter (field_name field)) else None.

(** Calling what [ret[idx]] holds, which is [None] for a field that is
    not settable. *)
Definition call_setter (s : option Setter) : Setter :=
  match s with
  | Some f => f
  | None => fun _ _ _ st => (st, Raise (NotCallable VNone))
  end.

Definition pconf_allowed_keys : list string :=
  ["name"; "child"; "required_name"; "doc"; "settable"].

Definition str_in (s : string) (l : list string) : bool :=
  existsb (String.eqb s) l.

(** [val.name != name] for the value of the [required_name] entry. *)
Definition name_differs (required : Value) (nm : string) : bool :=
  match required with
  | VStr s => negb (String.eqb nm s)
  | _ => true
  end.

(** The first [container_setter] of [Container._setter]. *)
Definition required_name_setter (field : Descriptor) (required : Value)
    (inner : option Setter) : Setter := fun depth self val st =>
  match val with
  | VNone => call_setter inner depth self val st
  | VObj b =>
      if name_differs required (name (objs st b))
      then (st, Raise (MustBeNamed (field_name field) required))
      else call_setter inner depth self val st
  | _ => (st, Raise (NoAttribute val "name"))
  end.

(** The sequence the second [container_setter] iterates over. *)
Definition child_values (val : Value) : list Value :=
  match val with
  | VTuple l | VList l => l
  | VDict d => map snd d
  | _ => [val]
  end.

(** One turn of its [for v in val] loop. *)
Definition register_child (depth : nat) (self : oid) (v : Value) : M unit :=
  fun st =>
  match v with
  | VObj b =>
      if ref_is_Container st (parent (objs st b)) then (st, Ok tt)
      else parent_setter depth b (RObj self) st
  | _ => (st, Raise (NoAttribute v "parent"))
  end.

Fixpoint register_children (depth : nat) (self : oid) (vals : list Value)
  : M unit :=
  match vals with
  | [] => ret tt
  | v :: vals' =>
      register_child depth self v ;;; register_children depth self vals'
  end.

(** The second [container_setter] of [Container._setter]. *)
Definition child_setter (inner : option Setter) : Setter :=
  fun depth self val =>
  call_setter inner depth self val ;;;
  match val with
  | VNone => ret tt
  | _ => register_children depth self (child_values val)
  end.

(** The last element of [ret] once the [required_name] directive has
    been looked at: the inherited setter, wrapped if the directive is
    there. *)
Definition named_setter (field : Descriptor) : option Setter :=
  match dict_get "required_name" field with
  | None | Some VNone => AbstractContainer_setter field
  | Some required =>
      Some (required_name_setter field required (AbstractContainer_setter field))
  end.

(** [Container._setter(field)]: the list [ret] grows by one wrapper per
    directive and the last one is returned. *)
Definition Container_setter (field : Descriptor) : Outcome (option Setter) :=
  match find (fun k => negb (str_in k pconf_allowed_keys)) (map fst field) with
  | Some k => Raise (UnrecognizedKey k (field_name field))
  | None =>
      match dict_get "child" field with
      | Some v =>
          if truthy v then Ok (Some (child_setter (named_setter field)))
          else Ok (named_setter field)
      | None => Ok (named_setter field)
      end
  end.

(** Assigning [self.f = val] through the generated property.  A property
    without setter refuses the assignment. *)
Definition assign_field (s : option Setter) (nm : string) : Setter :=
  fun depth self val st =>
  match s with
  | Some f => f depth self val st
  | None => (st, Raise (NoAttribute (VObj self) nm))
  end.

(** [cls._setter(field)]: [Container] and its subclasses use
    [Container._setter], the other classes the inherited one. *)
Definition class_setter (container_cls : bool) (field : Descriptor)
  : Outcome (option Setter) :=
  if container_cls then Container_setter field
  else Ok (AbstractContainer_setter field).

(** ** Field lists of a type: [__gather_fields] *)

(** [_check_field_spec(field)]. *)
Definition check_field_spec (field : Value) : Outcome Descriptor :=
  match field with
  | VDict d =>
      match dict_get "name" d with
      | None => Raise MissingName
      | Some _ => Ok d
      end
  | _ => Ok [("name", field)]
  end.

(** [d.setdefault(k, v)]. *)
Definition setdefault (k : string) (v : Value) (d : Descriptor) : Descriptor :=
  match dict_get k d with
  | Some _ => d
  | None => d ++ [(k, v)]
  end.

(** A class the metaclass has created: whether it is [Container] or one
    of its subclasses, its resolved [__fields__] (a tuple of names), and
    the names [hasattr] finds on it. *)
Record Class := mkClass {
  subclass_of_Container : bool;
  fields : list string;
  attrs : list string
}.

(** The [for f in ...] loop of [__gather_fields], with the attribute
    names of the class and [new_fields] as accumulators.  [docs] is the
    table built from the signature of [__init__]. *)
Fixpoint gather_loop (container_cls : bool) (docs : list (string * Value))
    (fs : list Value) (cls_attrs new_fields : list string)
  : Outcome (list string * list string) :=
  match fs with
  | [] => Ok (cls_attrs, new_fields)
  | f :: fs' =>
      match check_field_spec f with
      | Raise e => Raise e
      | Ok pconf =>
          match dict_get "name" pconf with
          | Some (VStr pname) =>
              let doc := match dict_get pname docs with
                         | Some v => v
                         | None => VNone
                         end in
              let pconf := setdefault "doc" doc pconf in
              if str_in pname cls_attrs then
                gather_loop container_cls docs fs' cls_attrs (new_fields ++ [pname])
              else
                match class_setter container_cls pconf with
                | Raise e => Raise e
                | Ok _ =>
                    gather_loop container_cls docs fs'
                      (cls_attrs ++ [pname]) (new_fields ++ [pname])
                end
          | Some v => Raise (BadAttributeName v)
          | None => Raise MissingName
          end
      end
  end.

(** [__gather_fields], run once when a class statement is executed.
    - [container_defined]: ['Container' in globals()], false only while
      the module itself is being loaded;
    - [container_cls]: the new class is [Container] or a subclass of it,
      which decides the [_setter] in use;
    - [declared]: what [getattr(cls, '__fields__')] finds, the class's
      own attribute or an inherited one;
    - [cls_attrs]: the attribute names of the new class at that point;
    - [last_base]: [bases[-1]], if there are bases;
    - [shared]: [declared] is the very object [bases[-1].__fields__]. *)
Definition gather_fields (container_defined container_cls : bool)
    (docs : list (string * Value)) (declared : Value) (cls_attrs : list string)
    (last_base : option Class) (shared : bool) : Outcome Class :=
  match declared with
  | VTuple own =>
      let merged :=
        match last_base with
        | Some base =>
            if container_defined && subclass_of_Container base && negb shared
            then map VStr (fields base) ++ own
            else own
        | None => own
        end in
      match gather_loop container_cls docs merged cls_attrs [] with
      | Raise e => Raise e
      | Ok (cls_attrs', new_fields) => Ok (mkClass container_cls new_fields cls_attrs')
      end
  | _ => Raise FieldsNotTuple
  end.

(** The names a declaration contributes: a bare name is itself, a
    descriptor gives its [name] entry. *)
Definition declared_name (f : Value) : option string :=
  match f with
  | VStr s => Some s
  | VDict d => match dict_get "name" d with
               | Some (VStr s) => Some s
               | _ => None
               end
  | _ => None
  end.

Definition declared_names (fs : list Value) : list string :=
  omap declared_name fs.

(** ** Data buffers *)

(** [str(type(data))], which the error messages of [append] and [extend]
    include. *)
Definition type_repr (b : Backing) : string :=
  match b with
  | BList _ => "<class 'list'>"
  | BNdarray _ => "<class 'numpy.ndarray'>"
  | BDataset _ => "<class 'h5py._hl.dataset.Dataset'>"
  | BOther ty _ => ty
  end.

Definition backing_items (b : Backing) : list Value :=
  match b with
  | BList l | BNdarray l | BDataset l | BOther _ l => l
  end.

(** [numpy.append] without an axis flattens both arguments. *)
Fixpoint np_ravel (v : Value) : list Value :=
  match v with
  | VList l | VTuple l => flat_map np_ravel l
  | _ => [v]
  end.

Definition set_data (self : oid) (b : Backing) : M unit := fun st =>
  (upd_obj self (with_data (Some b)) st, Ok tt).

(** [Data.append(arg)]. *)
Definition Data_append (self : oid) (arg : Value) : M unit := fun st =>
  match data (objs st self) with
  | None => (st, Raise (NoAttribute (VObj self) "append"))
  | Some (BList l) => set_data self (BList (l ++ [arg])) st
  | Some (BNdarray l) => set_data self (BNdarray (l ++ np_ravel (VList [arg]))) st
  | Some (BDataset l) => set_data self (BDataset (l ++ [arg])) st
  | Some (BOther ty l) => (st, Raise (CannotAppend (type_repr (BOther ty l))))
  end.

(** [Data.extend(arg)] for a list or tuple [arg], given by its items.
    On a dataset the items are written to the slice [[-len(arg):]], which
    for an empty [arg] is the whole dataset. *)
Definition Data_extend (self : oid) (arg : list Value) : M unit := fun st =>
  match data (objs st self) with
  | None => (st, Raise (NoAttribute (VObj self) "extend"))
  | Some (BList l) => set_data self (BList (l ++ arg)) st
  | Some (BNdarray l) => set_data self (BNdarray (l ++ np_ravel (VList [VList arg]))) st
  | Some (BDataset l) =>
      match arg, l with
      | [], _ :: _ => (st, Raise CannotBroadcast)
      | _, _ => set_data self (BDataset (l ++ arg)) st
      end
  | Some (BOther ty l) => (st, Raise (CannotExtend (type_repr (BOther ty l))))
  end.

(** [Data.set_dataio(dataio)]: the [DataIO] takes the payload and becomes
    the wrapped value. *)
Definition Data_set_dataio (self : oid) : M unit := fun st =>
  match data (objs st self) with
  | None => (st, Raise (NoAttribute (VObj self) "set_dataio"))
  | Some b =>
      set_data self (BOther "<class 'hdmf.data_utils.DataIO'>" (backing_items b)) st
  end.

(** ** Python sequences, as far as mutation goes *)

(** The in-place operations of a [list]. *)
Inductive Mutation :=
| MAppend (v : Value)
| MExtend (l : list Value)
| MSetItem (i : nat) (v : Value)
| MClear.

(** Applying one to a value: a list changes, a tuple has none of the
    methods and refuses item assignment. *)
Definition mutate (m : Mutation) (target : Value) : Outcome Value :=
  match target with
  | VList l =>
      match m with
      | MAppend v => Ok (VList (l ++ [v]))
      | MExtend l' => Ok (VList (l ++ l'))
      | MSetItem i v =>
          if Nat.ltb i (length l) then Ok (VList (<[i := v]> l))
          else Raise (NoItemAssignment target)
      | MClear => Ok (VList [])
      end
  | _ =>
      match m with
      | MAppend _ => Raise (NoAttribute target "append")
      | MExtend _ => Raise (NoAttribute target "extend")
      | MSetItem _ _ => Raise (NoItemAssignment target)
      | MClear => Raise (NoAttribute target "clear")
      end
  end.

(** ** The operations on existing instances *)

Inductive Call :=
| Call_set_modified (self : oid) (m : bool)
| Call_parent (self : oid) (p : Ref)
| Call_add_child (self : oid) (child : option oid)
| Call_container_source (self : oid) (source : Value)
| Call_field (container_cls : bool) (field : Descriptor) (self : oid) (val : Value)
| Call_append (self : oid) (arg : Value)
| Call_extend (self : oid) (arg : list Value)
| Call_set_dataio (self : oid).

Definition exec (depth : nat) (c : Call) : M unit :=
  match c with
  | Call_set_modified self m => set_modified depth self m
  | Call_parent self p => parent_setter depth self p
  | Call_add_child self child => add_child depth self child
  | Call_container_source self source => container_source_setter self source
  | Call_field container_cls field self val =>
      match class_setter container_cls field with
      | Ok s => assign_field s (field_name field) depth self val
      | Raise e => raise e
      end
  | Call_append self arg => Data_append self arg
  | Call_extend self arg => Data_extend self arg
  | Call_set_dataio self => Data_set_dataio self
  end.

(** Whether a call can reach the parent setter. *)
Definition assigns_parent (c : Call) : bool :=
  match c with
  | Call_parent _ _ | Call_add_child _ _ => true
  | Call_field container_cls field _ _ =>
      container_cls &&
      match dict_get "child" field with
      | Some v => truthy v
      | None => false
      end
  | _ => false
  end.

(** ** Notions the properties are stated with *)

(** The state a method leaves, and what it answers. *)
Definition state_after {A} (m : M A) (st : State) : State := fst (m st).
Definition outcome_of {A} (m : M A) (st : State) : Outcome A := snd (m st).

(** The parent of an instance when it is a [Container]: the next
    instance [set_modified(True)] visits. *)
Definition Container_parent (st : State) (x : oid) : option oid :=
  match parent (objs st x) with
  | RObj p => if is_Container (kind (objs st p)) then Some p else None
  | _ => None
  end.

(** The [Container] parents above an instance, nearest first, when there
    are at most [n] of them. *)
Fixpoint container_chain (n : nat) (st : State) (x : oid) : option (list oid) :=
  match Container_parent st x with
  | None => Some []
  | Some p =>
      match n with
      | 0 => None
      | S n' => option_map (cons p) (container_chain n' st p)
      end
  end.

(** Raising the dirty flag of each instance of a list, in order. *)
Fixpoint mark_modified (l : list oid) (st : State) : State :=
  match l with
  | [] => st
  | y :: l' => mark_modified l' (upd_obj y (with_modified true) st)
  end.

(** An instance with its dirty flag erased, to compare all the rest. *)
Definition unflag (o : Obj) : Obj := with_modified false o.

(** [y] is reachable from [x] by parent links through instances of any
    class of the module. *)
Inductive ancestor (st : State) : oid -> oid -> Prop :=
| ancestor_parent x p :
    parent (objs st x) = RObj p -> ancestor st x p
| ancestor_step x p y :
    parent (objs st x) = RObj p -> ancestor st p y -> ancestor st x y.

(** The parent links from a reference up to a root: [l] lists the
    instances met, nearest first, and the last one has no parent. *)
Fixpoint parent_path (st : State) (r : Ref) (l : list oid) : Prop :=
  match l with
  | [] => r = RNone
  | p :: l' => r = RObj p /\ parent_path st (parent (objs st p)) l'
  end.

(** The same, without asking where the path ends. *)
Fixpoint parent_links (st : State) (r : Ref) (l : list oid) : Prop :=
  match l with
  | [] => True
  | p :: l' => r = RObj p /\ parent_links st (parent (objs st p)) l'
  end.

(** An instance declares a type tag other than [dt]. *)
Definition tagged_other (st : State) (dt : string) (y : oid) : Prop :=
  exists t, data_type (objs st y) = Some t /\ t <> dt.

(** Two stores with the same tree: kinds, parent links, children lists
    and proxies agree. *)
Definition links_same (st st' : State) : Prop :=
  (forall y, kind (objs st' y) = kind (objs st y)
             /\ parent (objs st' y) = parent (objs st y)
             /\ children (objs st' y) = children (objs st y))
  /\ proxies st' = proxies st.

(** The ways the tree may change from one store to a later one: kinds
    stay, a parent that is an instance stays, a children list only gets
    longer at its end, every new member of the children list of [y] has
    just received [y] as parent, and a proxy keeps its predicate and only
    gains candidates. *)
Definition tree_grows (st st' : State) : Prop :=
  (forall y, kind (objs st' y) = kind (objs st y))
  /\ (forall y p, parent (objs st y) = RObj p -> parent (objs st' y) = RObj p)
  /\ (forall y, children (objs st y) `prefix_of` children (objs st' y))
  /\ (forall y b, b ∈ children (objs st' y) ->
        b ∈ children (objs st y)
        \/ (parent (objs st' b) = RObj y /\ parent (objs st b) <> RObj y))
  /\ (forall q, matches (proxies st' q) = matches (proxies st q)
                /\ candidates (proxies st q) `prefix_of` candidates (proxies st' q)).

(** No dirty flag is lowered. *)
Definition flags_mono (st st' : State) : Prop :=
  forall y, modified (objs st y) = true -> modified (objs st' y) = true.

(** [b] is a registered child of [a], and [a] is marked. *)
Definition attached (st : State) (a b : oid) : Prop :=
  parent (objs st b) = RObj a
  /\ b ∈ children (objs st a)
  /\ modified (objs st a) = true.

(** A declaration [__gather_fields] accepts whatever the class: a bare
    name, or a descriptor with a string name and, for a [Container]
    class, only keys [Container._setter] knows. *)
Definition accepted_spec (container_cls : bool) (f : Value) : bool :=
  match f with
  | VStr _ => true
  | VDict d =>
      match dict_get "name" d with
      | Some (VStr _) =>
          negb container_cls ||
          forallb (fun k => str_in k pconf_allowed_keys) (map fst d)
      | _ => false
      end
  | _ => false
  end.

(** A descriptor without the [name] entry. *)
Definition nameless (f : Value) : bool :=
  match f with
  | VDict d => match dict_get "name" d with None => true | Some _ => false end
  | _ => false
  end.

(** The part of the resolved field list that comes from the last base. *)
Definition inherited_fields (container_defined : bool) (last_base : option Class)
    (shared : bool) : list string :=
  match last_base with
  | Some base =>
      if container_defined && subclass_of_Container base && negb shared
      then fields base else []
  | None => []
  end.

(** The text of an error, where it does not depend on the printed form
    of an instance. *)
Definition message (e : Exn) : option string :=
  match e with
  | AlreadySet nm => Some ("can't set attribute '" +:+ nm +:+ "' -- already set")
  | MissingName => Some "must specify 'name' if using dict in __fields__"
  | FieldsNotTuple => Some "'__fields__' must be of type tuple"
  | NameContainsSlash nm => Some ("name '" +:+ nm +:+ "' cannot contain '/'")
  | ReassignContainerSource => Some "cannot reassign container_source"
  | CannotAppend ty => Some ("Data cannot append to object of type '" +:+ ty +:+ "'")
  | CannotExtend ty => Some ("Data cannot extend object of type '" +:+ ty +:+ "'")
  | _ => None
  end.

(** ** Concrete stores *)

Definition blank : Obj := mkObj KAbstract None "" VNone RNone [] false ∅ None.

Definition empty_store : State :=
  mkState (fun _ => blank) (fun _ => mkProxy (fun _ => false) []) 0.

(** Three containers in a chain, root = 0, mid = 1, leaf = 2, with all
    dirty flags cleared after construction. *)
Definition chain_store : State :=
  state_after
    (new_Container 8 KContainer None "root" VNone RNone ;;;
     new_Container 8 KContainer None "mid" VNone (RObj 0) ;;;
     new_Container 8 KContainer None "leaf" VNone (RObj 1) ;;;
     set_modified 8 0 false ;;;
     set_modified 8 1 false ;;;
     set_modified 8 2 false)
    empty_store.

(** The same chain with a type tag on each class. *)
Definition typed_chain_store : State :=
  state_after
    (new_Container 8 KContainer (Some "File") "root" VNone RNone ;;;
     new_Container 8 KContainer (Some "Group") "mid" VNone (RObj 0) ;;;
     new_Container 8 KContainer (Some "Series") "leaf" VNone (RObj 1))
    empty_store.

(** A [Data] instance (0) given as parent to a container (1), flags
    cleared. *)
Definition data_parent_store : State :=
  state_after
    (new_Data 8 None "d" (BList []) VNone RNone ;;;
     new_Container 8 KContainer None "leaf" VNone (RObj 0) ;;;
     set_modified 8 0 false ;;;
     set_modified 8 1 false)
    empty_store.

(** An instance (0) whose parent is a proxy (0) that only matches
    instance 1; instances 1 and 2 are containers without parent. *)
Definition proxy_store : State :=
  state_after
    (new_Container 8 KContainer None "x" VNone (RProxy 0) ;;;
     new_Container 8 KContainer None "p_real" VNone RNone ;;;
     new_Container 8 KContainer None "p_other" VNone RNone ;;;
     set_modified 8 1 false ;;;
     set_modified 8 2 false)
    (mkState (objs empty_store)
             (fun _ => mkProxy (fun r => ref_is r (RObj 1)) []) 0).

(** Data instances over an array (0), a tuple (1) and a list (2). *)
Definition buffer_store : State :=
  state_after
    (new_Data 8 None "a" (BNdarray [VInt 1; VInt 2; VInt 3]) VNone RNone ;;;
     new_Data 8 None "t" (BOther "<class 'tuple'>" [VInt 1; VInt 2; VInt 3]) VNone RNone ;;;
     new_Data 8 None "l" (BList [VInt 1; VInt 2; VInt 3]) VNone RNone)
    empty_store.

(** A child field declaration, [{'name': 'items', 'child': True}]. *)
Definition items_field : Descriptor := [("name", VStr "items"); ("child", VBool true)].

(** A class deriving from [Data] with one field, and one deriving from
    [Container]. *)
Definition data_base : Class := mkClass false ["a"] ["a"].
Definition container_base : Class := mkClass true ["a"] ["a"].

(** ** Reading a data buffer *)

(** [Data.__len__], [len(self.__data)]; an instance without the
    attribute has no length. *)
Definition Data_len (st : State) (self : oid) : option nat :=
  match data (objs st self) with
  | Some b => Some (length (backing_items b))
  | None => None
  end.

(** [Data.__bool__], [len(self.data) != 0]. *)
Definition Data_bool (st : State) (self : oid) : option bool :=
  match Data_len st self with
  | Some n => Some (negb (Nat.eqb n 0))
  | None => None
  end.

(** Indexing a Python sequence of length [n] with an integer: indices
    from [-n] to [n - 1] are valid, the negative ones count from the
    end. *)
Definition py_index {A} (l : list A) (i : Z) : option A :=
  let n := Z.of_nat (length l) in
  if (0 <=? i)%Z && (i <? n)%Z then l !! Z.to_nat i
  else if (- n <=? i)%Z && (i <? 0)%Z then l !! Z.to_nat (n + i)
  else None.

(** What a value is as a list index: an [int], or a [bool], which is
    one. *)
Definition index_of (v : Value) : option Z :=
  match v with
  | VInt z => Some z
  | VBool b => Some (if b then 1%Z else 0%Z)
  | _ => None
  end.

(** The result of indexing: the item, an [IndexError], or the
    [TypeError] of an index that is no integer. *)
Inductive Lookup :=
| Found (v : Value)
| IndexOutOfRange
| BadIndex (v : Value).

(** [l[i]] on a list. *)
Definition list_getitem (l : list Value) (i : Value) : Lookup :=
  match index_of i with
  | Some z =>
      match py_index l z with
      | Some v => Found v
      | None => IndexOutOfRange
      end
  | None => BadIndex i
  end.

(** [[l[i] for i in args]]: the first failing index ends the
    comprehension with its error. *)
Fixpoint list_getitems (l : list Value) (args : list Value)
  : list Value + Lookup :=
  match args with
  | [] => inl []
  | i :: args' =>
      match list_getitem l i with
      | Found v =>
          match list_getitems l args' with
          | inl vs => inl (v :: vs)
          | inr e => inr e
          end
      | e => inr e
      end
  end.

(** [Data.__getitem__(args)] on a buffer over a Python list, for an
    integer index or a list or tuple of them.  Other buffers and slices
    are outside this function ([None]). *)
Definition Data_getitem (st : State) (self : oid) (args : Value)
  : option Lookup :=
  match data (objs st self) with
  | Some (BList l) =>
      match args with
      | VList idx | VTuple idx =>
          match list_getitems l idx with
          | inl vs => Some (Found (VList vs))
          | inr e => Some e
          end
      | _ => Some (list_getitem l args)
      end
  | _ => None
  end.

(** ** Further notions *)

(** The tree is consistent: the members of a children list have the
    owner as parent, an instance whose parent is a [Container] is among
    that container's children, and no children list repeats a member. *)
Definition tree_ok (st : State) : Prop :=
  (forall y c, c ∈ children (objs st y) -> parent (objs st c) = RObj y)
  /\ (forall c y, parent (objs st c) = RObj y ->
        is_Container (kind (objs st y)) = true -> c ∈ children (objs st y))
  /\ (forall y, NoDup (children (objs st y))).

(** An identity no instance refers to. *)
Definition unused (st : State) (x : oid) : Prop :=
  (forall y, x ∉ children (objs st y))
  /\ (forall c, parent (objs st c) <> RObj x).

(** A relation between the old and the new form of every instance. *)
Definition pointwise (r : Obj -> Obj -> Prop) (st st' : State) : Prop :=
  forall y, r (objs st y) (objs st' y).

(** What never changes in an instance: its class, its type tag and its
    name. *)
Definition same_identity (o o' : Obj) : Prop :=
  kind o' = kind o /\ data_type o' = data_type o /\ name o' = name o.

(** A dirty flag that is up stays up. *)
Definition flag_kept (o o' : Obj) : Prop :=
  modified o = true -> modified o' = true.

(** What the tree operations leave alone: the stored fields, the data
    and the source of an instance. *)
Definition same_payload (o o' : Obj) : Prop :=
  field_values o' = field_values o /\ data o' = data o
  /\ container_source o' = container_source o.

(** A set of instances none of which ends the walk up the [Container]
    parents: each has a [Container] parent in the set. *)
Definition endless (st : State) (C : oid -> Prop) : Prop :=
  forall y, C y -> exists p, Container_parent st y = Some p /\ C p.

(** [y] is reached from [x] by going up [Container] parents, zero or
    more times. *)
Inductive climbs (st : State) : oid -> oid -> Prop :=
| climbs_here x : climbs st x x
| climbs_up x p y :
    Container_parent st x = Some p -> climbs st p y -> climbs st x y.

(** Two tagged containers made parent of each other; the second
    assignment raises and leaves the cycle. *)
Definition cyclic_store : State :=
  state_after
    (new_Container 8 KContainer (Some "Group") "a" VNone RNone ;;;
     new_Container 8 KContainer (Some "Group") "b" VNone (RObj 0) ;;;
     parent_setter 8 0 (RObj 1))
    empty_store.

(** Assigning a series of parents in turn, [x.parent = p] for each. *)
Fixpoint offer_parents (depth : nat) (self : oid) (ps : list Ref) : M unit :=
  match ps with
  | [] => ret tt
  | P :: ps' => parent_setter depth self P ;;; offer_parents depth self ps'
  end.

(** A child field that is declared not settable. *)
Definition locked_child_field : Descriptor :=
  [("name", VStr "items"); ("settable", VBool false); ("child", VBool true)].

(** A field whose value must be named ["main"]. *)
Definition main_field : Descriptor :=
  [("name", VStr "table"); ("required_name", VStr "main")].

(** Three containers without parent: a box (0) and two instances (1, 2)
    that can be given to it. *)
Definition flat_store : State :=
  state_after
    (new_Container 8 KContainer None "box" VNone RNone ;;;
     new_Container 8 KContainer None "first" VNone RNone ;;;
     new_Container 8 KContainer None "second" VNone RNone)
    empty_store.

(** ** Generated setters of every class *)

(** The name a [required_name] directive asks for, when the class runs
    the naming check: only [Container._setter] reads the directive, and it
    skips one that is [None]. *)
Definition required_name_of (container_cls : bool) (field : Descriptor)
  : option Value :=
  if container_cls then
    match dict_get "required_name" field with
    | None | Some VNone => None
    | Some required => Some required
    end
  else None.

(** A value the naming check lets through to the write-once setter: any
    value when there is no check, an instance so named otherwise. *)
Definition passes_naming (container_cls : bool) (field : Descriptor)
    (st : State) (v : Value) : Prop :=
  match required_name_of container_cls field with
  | None => True
  | Some required =>
      exists b, v = VObj b /\ name_differs required (name (objs st b)) = false
  end.

(** What the child wrapper of a class calls first, and what the setter
    of a field without child directive is: [ret[-1]] once [required_name]
    has been looked at, for [Container]; the inherited setter for the
    other classes. *)
Definition inner_setter (container_cls : bool) (field : Descriptor) : Setter :=
  call_setter (if container_cls then named_setter field
               else AbstractContainer_setter field).

(** Three containers without parent: a box (0), one named ["main"] (1)
    and one named otherwise (2). *)
Definition main_store : State :=
  state_after
    (new_Container 8 KContainer None "box" VNone RNone ;;;
     new_Container 8 KContainer None "main" VNone RNone ;;;
     new_Container 8 KContainer None "other" VNone RNone)
    empty_store.

(** * Properties *)

(** ** The store *)

Lemma objs_upd_obj x f st y :
  objs (upd_obj x f st) y = if decide (x = y) then f (objs st x) else objs st y.
Proof.
  unfold upd_obj; simpl. destruct (decide (x = y)) as [->|Hne].
  - apply fn_lookup_insert.
  - by apply fn_lookup_insert_ne.
Qed.

Lemma objs_upd_obj_eq x f st : objs (upd_obj x f st) x = f (objs st x).
Proof. rewrite objs_upd_obj. by destruct (decide (x = x)). Qed.

Lemma objs_upd_obj_ne x f st y : x <> y -> objs (upd_obj x f st) y = objs st y.
Proof. intros Hne. rewrite objs_upd_obj. by destruct (decide (x = y)). Qed.

Lemma proxies_upd_proxy q f st r :
  proxies (upd_proxy q f st) r
  = if decide (q = r) then f (proxies st q) else proxies st r.
Proof.
  unfold upd_proxy; simpl. destruct (decide (q = r)) as [->|Hne].
  - apply fn_lookup_insert.
  - by apply fn_lookup_insert_ne.
Qed.

Lemma ref_is_true a b : ref_is a b = true <-> a = b.
Proof.
  destruct a, b; simpl; split; intros H; try done.
  - apply Nat.eqb_eq in H. by subst.
  - injection H as ->. apply Nat.eqb_refl.
  - apply Nat.eqb_eq in H. by subst.
  - injection H as ->. apply Nat.eqb_refl.
Qed.

Lemma ref_is_false a b : ref_is a b = false <-> a <> b.
Proof.
  split.
  - intros H Heq. apply ref_is_true in Heq. congruence.
  - intros H. destruct (ref_is a b) eqn:E; [|done].
    apply ref_is_true in E. contradiction.
Qed.

(** Updating the dirty flag of some instance changes nothing else of any
    instance. *)
Lemma unflag_upd_modified x m st y :
  unflag (objs (upd_obj x (with_modified m) st) y) = unflag (objs st y).
Proof.
  rewrite objs_upd_obj. destruct (decide (x = y)) as [->|]; [|done].
  by destruct (objs st y).
Qed.

Lemma unflag_parent o o' : unflag o = unflag o' -> parent o = parent o'.
Proof. intros H. by apply (f_equal parent) in H. Qed.

Lemma unflag_children o o' : unflag o = unflag o' -> children o = children o'.
Proof. intros H. by apply (f_equal children) in H. Qed.

Lemma unflag_kind o o' : unflag o = unflag o' -> kind o = kind o'.
Proof. intros H. by apply (f_equal kind) in H. Qed.

(** ** set_modified *)

(** Whatever the depth and the outcome, [set_modified] touches dirty
    flags only. *)
Lemma set_modified_unflag depth : forall self m st y,
  unflag (objs (fst (set_modified depth self m st)) y) = unflag (objs st y).
Proof.
  induction depth as [|depth IH]; intros self m st y; simpl; [done|].
  destruct (m && _) eqn:E.
  - destruct (parent _) as [|p|q] eqn:Ep; simpl.
    + apply unflag_upd_modified.
    + rewrite IH. apply unflag_upd_modified.
    + apply unflag_upd_modified.
  - simpl. apply unflag_upd_modified.
Qed.

Lemma set_modified_proxies depth : forall self m st,
  proxies (fst (set_modified depth self m st)) = proxies st
  /\ next (fst (set_modified depth self m st)) = next st.
Proof.
  induction depth as [|depth IH]; intros self m st; simpl; [done|].
  destruct (m && _).
  - destruct (parent _) as [|p|q]; simpl; try done.
    destruct (IH p true (upd_obj self (with_modified m) st)) as [-> ->]. done.
  - done.
Qed.

(** Raising a flag never lowers another one. *)
Lemma set_modified_true_mono depth : forall self st y,
  modified (objs st y) = true ->
  modified (objs (fst (set_modified depth self true st)) y) = true.
Proof.
  induction depth as [|depth IH]; intros self st y Hy; simpl; [done|].
  assert (Hy1 : modified (objs (upd_obj self (with_modified true) st) y) = true).
  { rewrite objs_upd_obj. by destruct (decide (self = y)). }
  destruct (ref_is_Container _ _).
  - destruct (parent _) as [|p|q]; simpl; try done. by apply IH.
  - done.
Qed.

(** With room for one call, the flag of the receiver is the one given. *)
Lemma set_modified_self depth self m st :
  modified (objs (fst (set_modified (S depth) self m st)) self) = m.
Proof.
  simpl.
  assert (H1 : modified (objs (upd_obj self (with_modified m) st) self) = m).
  { by rewrite objs_upd_obj_eq. }
  destruct m; simpl; [|done].
  destruct (ref_is_Container _ _); [|done].
  destruct (parent _) as [|p|q]; simpl; try done.
  by apply set_modified_true_mono.
Qed.

(** Lowering a flag is local. *)
Lemma set_modified_false depth self st :
  set_modified (S depth) self false st
  = (upd_obj self (with_modified false) st, Ok tt).
Proof. done. Qed.

Lemma Container_parent_upd_modified x m st y :
  Container_parent (upd_obj x (with_modified m) st) y = Container_parent st y.
Proof.
  unfold Container_parent.
  rewrite (unflag_parent _ _ (unflag_upd_modified x m st y)).
  destruct (parent (objs st y)) as [|p|q]; try done.
  by rewrite (unflag_kind _ _ (unflag_upd_modified x m st p)).
Qed.

Lemma container_chain_upd_modified n : forall x m st y,
  container_chain n (upd_obj x (with_modified m) st) y = container_chain n st y.
Proof.
  induction n as [|n IH]; intros x m st y; simpl;
    rewrite Container_parent_upd_modified; [done|].
  destruct (Container_parent st y); [|done]. by rewrite IH.
Qed.

(** The recursion of [set_modified], read through [Container_parent]. *)
Lemma set_modified_S depth self m st :
  set_modified (S depth) self m st
  = let st1 := upd_obj self (with_modified m) st in
    if m then
      match Container_parent st self with
      | Some p => set_modified depth p true st1
      | None => (st1, Ok tt)
      end
    else (st1, Ok tt).
Proof.
  cbn [set_modified]. destruct m; [|done]. cbn [andb].
  unfold ref_is_Container, Container_parent.
  rewrite (unflag_parent _ _ (unflag_upd_modified self true st self)).
  destruct (parent (objs st self)) as [|p|q]; try done.
  rewrite (unflag_kind _ _ (unflag_upd_modified self true st p)).
  by destruct (is_Container _).
Qed.

(** Raising the flag of an instance whose [Container] parents form a
    chain shorter than the depth available raises exactly the flags of
    the instance and of the chain, and returns. *)
Lemma set_modified_true_chain n : forall depth st x anc,
  container_chain n st x = Some anc ->
  n < depth ->
  set_modified depth x true st = (mark_modified (x :: anc) st, Ok tt).
Proof.
  induction n as [|n IH]; intros depth st x anc Hc Hd;
    (destruct depth as [|depth]; [lia|]); rewrite set_modified_S;
    cbn [container_chain] in Hc; cbn zeta;
    destruct (Container_parent st x) as [p|]; try done;
    try (by injection Hc as <-).
  destruct (container_chain n st p) as [anc'|] eqn:Hp; [|done].
  injection Hc as <-.
  rewrite (IH depth (upd_obj x (with_modified true) st) p anc'); [done| |lia].
  by rewrite container_chain_upd_modified.
Qed.

Lemma mark_modified_unflag l : forall st y,
  unflag (objs (mark_modified l st) y) = unflag (objs st y).
Proof.
  induction l as [|z l IH]; intros st y; simpl; [done|].
  rewrite IH. apply unflag_upd_modified.
Qed.

Lemma mark_modified_flag l : forall st y,
  modified (objs (mark_modified l st) y)
  = modified (objs st y) || bool_decide (y ∈ l).
Proof.
  induction l as [|z l IH]; intros st y; cbn [mark_modified].
  - rewrite bool_decide_eq_false_2; [by rewrite orb_false_r|]. apply not_elem_of_nil.
  - rewrite IH, objs_upd_obj. destruct (decide (z = y)) as [->|Hne].
    + cbn [with_modified modified].
      rewrite (bool_decide_eq_true_2 (y ∈ y :: l)); [by rewrite orb_true_r|]. apply list_elem_of_here.
    + destruct (modified (objs st y)); [done|]. cbn [orb].
      apply bool_decide_ext. rewrite elem_of_cons. intuition congruence.
Qed.

Lemma mark_modified_other l : forall st y,
  y ∉ l -> objs (mark_modified l st) y = objs st y.
Proof.
  induction l as [|z l IH]; intros st y Hy; cbn [mark_modified]; [done|].
  apply not_elem_of_cons in Hy as [Hne Hy].
  rewrite IH by done. by apply objs_upd_obj_ne.
Qed.

(** C5, as stated, fails: a container whose parent is a [Data] instance
    reaches that instance by its parent link, yet raising the container's
    flag leaves the flag of the [Data] instance down, because
    [set_modified] only continues into a parent that is a [Container]. *)
Lemma set_modified_skips_data_parent :
  ~ (forall y, ancestor data_parent_store 1 y ->
       modified (objs (state_after (set_modified 8 1 true) data_parent_store) y)
       = true).
Proof.
  intros H. specialize (H 0 (ancestor_parent data_parent_store 1 0 eq_refl)).
  vm_compute in H. discriminate.
Qed.

(** C5, amended: setting [modified = True] on an instance also sets it on
    every ancestor reached through parents that are [Container]s,
    stopping at the first instance whose parent is not a [Container]
    (none, a proxy, or an instance of another class such as [Data]), and
    changes nothing else; setting [modified = False] changes the flag of
    the instance alone.  The call returns when the chain is shorter than
    the depth the interpreter allows. *)
Theorem set_modified_propagates n depth st x anc :
  container_chain n st x = Some anc ->
  n < depth ->
  let st1 := state_after (set_modified depth x true) st in
  let st0 := state_after (set_modified depth x false) st in
  outcome_of (set_modified depth x true) st = Ok tt
  /\ (forall y, y ∈ x :: anc -> modified (objs st1 y) = true)
  /\ (forall y, y ∉ x :: anc -> objs st1 y = objs st y)
  /\ (forall y, unflag (objs st1 y) = unflag (objs st y))
  /\ outcome_of (set_modified depth x false) st = Ok tt
  /\ modified (objs st0 x) = false
  /\ (forall y, y <> x -> objs st0 y = objs st y).
Proof.
  intros Hc Hd st1 st0. subst st1 st0. unfold state_after, outcome_of.
  rewrite (set_modified_true_chain n depth st x anc Hc Hd).
  destruct depth as [|depth]; [lia|]. rewrite set_modified_false.
  cbn [fst snd]. repeat split.
  - intros y Hy. rewrite mark_modified_flag.
    rewrite (bool_decide_eq_true_2 _ Hy). apply orb_true_r.
  - intros y Hy. by apply mark_modified_other.
  - intros y. apply mark_modified_unflag.
  - by rewrite objs_upd_obj_eq.
  - intros y Hy. by apply objs_upd_obj_ne.
Qed.

Lemma set_modified_propagates_witness :
  container_chain 2 chain_store 2 = Some [1; 0]
  /\ modified (objs (state_after (set_modified 8 2 true) chain_store) 1) = true
  /\ modified (objs (state_after (set_modified 8 2 true) chain_store) 0) = true.
Proof.
  split; [reflexivity|].
  destruct (set_modified_propagates 2 8 chain_store 2 [1; 0] eq_refl)
    as (_ & Hset & _); [lia|].
  split; apply Hset; apply list_elem_of_In; simpl; auto.
Defined.

(** The three-level chain of the specification: with root, mid and leaf
    all clean, raising the flag of leaf raises those of mid and root, and
    lowering the flag of leaf afterwards leaves them up. *)
Lemma three_level_chain depth st root mid leaf :
  Container_parent st leaf = Some mid ->
  Container_parent st mid = Some root ->
  Container_parent st root = None ->
  2 < depth ->
  let st1 := state_after (set_modified depth leaf true) st in
  let st2 := state_after (set_modified depth leaf false) st1 in
  (modified (objs st1 leaf) = true /\ modified (objs st1 mid) = true
   /\ modified (objs st1 root) = true)
  /\ (modified (objs st2 leaf) = false /\ modified (objs st2 mid) = true
      /\ modified (objs st2 root) = true).
Proof.
  intros Hl Hm Hr Hd st1 st2.
  assert (Hrl : root <> leaf) by (intros ->; congruence).
  assert (Hml : mid <> leaf) by (intros ->; congruence).
  assert (Hc : container_chain 2 st leaf = Some [mid; root]).
  { cbn [container_chain]. rewrite Hl, Hm, Hr. done. }
  assert (H1 : forall y, y ∈ [leaf; mid; root] -> modified (objs st1 y) = true).
  { intros y Hy. subst st1. unfold state_after.
    rewrite (set_modified_true_chain 2 depth st leaf _ Hc Hd). cbn [fst].
    rewrite mark_modified_flag, (bool_decide_eq_true_2 _ Hy). apply orb_true_r. }
  assert (E1 : modified (objs st1 leaf) = true)
    by (apply H1, list_elem_of_In; simpl; auto).
  assert (E2 : modified (objs st1 mid) = true)
    by (apply H1, list_elem_of_In; simpl; auto).
  assert (E3 : modified (objs st1 root) = true)
    by (apply H1, list_elem_of_In; simpl; auto).
  split; [done|]. subst st2. unfold state_after.
  destruct depth as [|depth]; [lia|]. rewrite set_modified_false. cbn [fst].
  rewrite objs_upd_obj_eq, !objs_upd_obj_ne by done. done.
Qed.

(** ** The parent setter *)



Lemma parent_setter_unset depth self P st :
  parent (objs st self) = RNone ->
  P <> RNone ->
  parent_setter depth self P st
  = let st1 := upd_obj self (with_parent P) st in
    match P with
    | RObj p =>
        if is_Container (kind (objs st p))
        then set_modified depth p true (upd_obj p (append_child self) st1)
        else (st1, Ok tt)
    | _ => (st1, Ok tt)
    end.
Proof.
  intros Hp HP. unfold parent_setter. rewrite Hp.
  assert (E : ref_is RNone P = false) by (apply ref_is_false; congruence).
  rewrite E. cbn zeta. destruct P as [|p|q]; try done.
  unfold ref_is_Container. rewrite objs_upd_obj.
  destruct (decide (self = p)) as [->|]; [|done]. by destruct (objs st p).
Qed.

Lemma parent_setter_proxy_match depth self q p st :
  parent (objs st self) = RProxy q ->
  matches (proxies st q) (RObj p) = true ->
  parent_setter depth self (RObj p) st
  = set_modified depth p true
      (upd_obj p (append_child self) (upd_obj self (with_parent (RObj p)) st)).
Proof. intros Hp Hm. unfold parent_setter. rewrite Hp. simpl. by rewrite Hm. Qed.

Lemma parent_setter_proxy_other depth self q P st :
  parent (objs st self) = RProxy q ->
  P <> RNone -> P <> RProxy q ->
  matches (proxies st q) P = false ->
  parent_setter depth self P st = (upd_proxy q (add_candidate P) st, Ok tt).
Proof.
  intros Hp HN HP Hm. unfold parent_setter. rewrite Hp.
  assert (E : ref_is (RProxy q) P = false) by (apply ref_is_false; congruence).
  rewrite E, Hm. by destruct P.
Qed.

(** The parent setter never lowers a dirty flag. *)
Lemma parent_setter_modified_mono depth self P st y :
  modified (objs st y) = true ->
  modified (objs (fst (parent_setter depth self P st)) y) = true.
Proof.
  intros Hy.
  assert (H1 : forall Q, modified (objs (upd_obj self (with_parent Q) st) y) = true).
  { intros Q. rewrite objs_upd_obj. by destruct (decide (self = y)) as [->|]. }
  assert (H2 : forall Q p,
    modified (objs (upd_obj p (append_child self)
                      (upd_obj self (with_parent Q) st)) y) = true).
  { intros Q p. rewrite objs_upd_obj. destruct (decide (p = y)) as [->|]; [|done].
    specialize (H1 Q). by destruct (objs _ y). }
  unfold parent_setter. destruct (ref_is _ _); [done|].
  destruct (parent (objs st self)) as [|p0|q].
  - destruct (ref_is_Container _ _); [|by apply H1].
    destruct P as [|p|q']; try by apply H1.
    by apply set_modified_true_mono.
  - done.
  - destruct P as [|p|q']; [done| |].
    + destruct (matches _ _); [by apply set_modified_true_mono|done].
    + destruct (matches _ _); [by apply H1|done].
Qed.



(** ** Construction *)

Lemma AbstractContainer_new_modified depth k dt source kw_parent st :
  modified (objs (fst (AbstractContainer_new depth k dt source kw_parent st)) (next st))
  = true
  /\ forall x, snd (AbstractContainer_new depth k dt source kw_parent st) = Ok x ->
       x = next st.
Proof.
  unfold AbstractContainer_new.
  set (st1 := mkState _ _ _).
  assert (H1 : modified (objs st1 (next st)) = true).
  { subst st1. cbn [objs]. by rewrite fn_lookup_insert. }
  pose proof (parent_setter_modified_mono depth (next st) kw_parent st1 _ H1) as H2.
  destruct (parent_setter depth (next st) kw_parent st1) as [st2 [u|e]];
    cbn [fst snd] in *; split; try done.
  by intros x [= <-].
Qed.

Lemma AbstractContainer_init_modified self nm st y :
  modified (objs (fst (AbstractContainer_init self nm st)) y) = modified (objs st y).
Proof.
  unfold AbstractContainer_init. destruct (contains_slash nm); [done|].
  cbn [fst]. rewrite objs_upd_obj. destruct (decide (self = y)) as [->|]; [|done].
  by destruct (objs st y).
Qed.

Lemma Data_init_modified self nm d st y :
  modified (objs (fst (Data_init self nm d st)) y) = modified (objs st y).
Proof.
  unfold Data_init, bind.
  pose proof (AbstractContainer_init_modified self nm st y) as H.
  destruct (AbstractContainer_init self nm st) as [st1 [u|e]]; cbn [fst] in *; [|done].
  rewrite objs_upd_obj. destruct (decide (self = y)) as [->|]; [|done].
  rewrite <- H. by destruct (objs st1 y).
Qed.

(** [__new__] followed by an initialiser that leaves dirty flags alone. *)
Lemma constructed_by depth k dt source kw_parent (init : oid -> M unit) st :
  (forall self st' y,
     modified (objs (fst (init self st')) y) = modified (objs st' y)) ->
  let mk := (inst <- AbstractContainer_new depth k dt source kw_parent ;;
             init inst ;;; ret inst) in
  modified (objs (state_after mk st) (next st)) = true
  /\ forall x, outcome_of mk st = Ok x -> x = next st.
Proof.
  intros Hinit mk. subst mk. unfold state_after, outcome_of, bind.
  destruct (AbstractContainer_new_modified depth k dt source kw_parent st)
    as [Hm Hx].
  destruct (AbstractContainer_new depth k dt source kw_parent st)
    as [st1 [inst|e]]; cbn [fst snd] in *; [|done].
  specialize (Hx inst eq_refl). subst inst.
  pose proof (Hinit (next st) st1 (next st)) as Hi.
  destruct (init (next st) st1) as [st2 [u|e]];
    cbn [fst snd ret] in *; split; congruence.
Qed.

(** C9: an instance comes out of its constructor with the dirty flag set,
    whatever the class, the keywords and the outcome of [__init__]; the
    flag only goes down by an explicit [set_modified(False)]. *)
Theorem constructed_modified depth k dt nm d source kw_parent st :
  let mk_c := new_Container depth k dt nm source kw_parent in
  let mk_d := new_Data depth dt nm d source kw_parent in
  modified (objs (state_after mk_c st) (next st)) = true
  /\ (forall x, outcome_of mk_c st = Ok x ->
        x = next st /\ modified (objs (state_after mk_c st) x) = true)
  /\ modified (objs (state_after mk_d st) (next st)) = true
  /\ (forall x, outcome_of mk_d st = Ok x ->
        x = next st /\ modified (objs (state_after mk_d st) x) = true)
  /\ modified (objs (state_after (set_modified 1 (next st) false)
                       (state_after mk_c st)) (next st)) = false.
Proof.
  intros mk_c mk_d.
  pose proof (constructed_by depth k dt source kw_parent
                (fun inst => AbstractContainer_init inst nm) st
                (fun self st' y => AbstractContainer_init_modified self nm st' y))
    as Hc.
  pose proof (constructed_by depth KData dt source kw_parent
                (fun inst => Data_init inst nm d) st
                (fun self st' y => Data_init_modified self nm d st' y))
    as Hd.
  fold mk_c in Hc. fold mk_d in Hd.
  destruct Hc as [Hc1 Hc2], Hd as [Hd1 Hd2].
  split; [done|]. split.
  { intros x Hx. specialize (Hc2 x Hx). by subst x. }
  split; [done|]. split.
  { intros x Hx. specialize (Hd2 x Hx). by subst x. }
  unfold state_after at 1. apply set_modified_self.
Qed.

Lemma constructed_modified_witness :
  outcome_of (new_Container 8 KContainer None "c" VNone (RObj 2)) chain_store = Ok 3
  /\ modified (objs (state_after (new_Container 8 KContainer None "c" VNone (RObj 2))
                       chain_store) 3) = true.
Proof.
  split; [reflexivity|].
  destruct (constructed_modified 8 KContainer None "c" (BList []) VNone (RObj 2)
              chain_store) as (_ & H & _).
  destruct (H 3 eq_refl) as [_ Hm]. exact Hm.
Defined.

(** ** The write-once setter *)

(** The setter [AbstractContainer._setter] generates, taken alone:
    assigning [None] to an unset field does nothing and leaves it unset;
    the first value other than [None] is stored; from then on (whenever
    the name is present) a value other than [None] raises the already-set
    error and [None] neither raises nor changes what is stored. *)
Lemma base_setter_write_once field s depth x st v1 v2 :
  AbstractContainer_setter field = Some s ->
  v1 <> VNone -> v2 <> VNone ->
  field_values (objs st x) !! field_name field = None ->
  let nm := field_name field in
  let st1 := state_after (s depth x v1) st in
  s depth x VNone st = (st, Ok tt)
  /\ outcome_of (s depth x v1) st = Ok tt
  /\ field_values (objs st1 x) !! nm = Some v1
  /\ getter nm st1 x = v1
  /\ s depth x v2 st1 = (st1, Raise (AlreadySet nm))
  /\ py_class (AlreadySet nm) = AttributeError
  /\ s depth x VNone st1 = (st1, Ok tt)
  /\ (forall st' w, field_values (objs st' x) !! nm = Some w ->
        s depth x v2 st' = (st', Raise (AlreadySet nm))
        /\ s depth x VNone st' = (st', Ok tt)).
Proof.
  intros Hs Hv1 Hv2 Hnone nm st1.
  unfold AbstractContainer_setter in Hs.
  destruct (match dict_get "settable" field with
            | Some v => truthy v | None => true end); [|done].
  injection Hs as <-. subst st1 nm. set (nm := field_name field) in *.
  set (st1 := state_after (setter nm depth x v1) st).
  assert (Hset : forall st' w, field_values (objs st' x) !! nm = Some w ->
            setter nm depth x v2 st' = (st', Raise (AlreadySet nm))
            /\ setter nm depth x VNone st' = (st', Ok tt)).
  { intros st' w Hw. unfold setter. rewrite Hw. by destruct v2. }
  assert (E1 : setter nm depth x v1 st
               = (upd_obj x (with_field_values
                    (<[nm := v1]> (field_values (objs st x)))) st, Ok tt)).
  { unfold setter. rewrite Hnone. by destruct v1. }
  assert (Hst1 : field_values (objs st1 x) !! nm = Some v1).
  { subst st1. unfold state_after. rewrite E1. cbn [fst].
    rewrite objs_upd_obj_eq. cbn [with_field_values field_values].
    apply lookup_insert_eq. }
  split; [done|]. split; [unfold outcome_of; by rewrite E1|].
  split; [done|]. split; [unfold getter; by rewrite Hst1|].
  destruct (Hset st1 v1 Hst1) as [H2 H3].
  split; [done|]. split; [done|]. split; [done|]. exact Hset.
Qed.

(** A [Container] field without [required_name] and [child] directives
    has that very setter. *)
Lemma Container_setter_plain field :
  find (fun k => negb (str_in k pconf_allowed_keys)) (map fst field) = None ->
  dict_get "required_name" field = None ->
  dict_get "child" field = None ->
  Container_setter field = Ok (AbstractContainer_setter field).
Proof.
  intros Hk Hr Hc. unfold Container_setter, named_setter. by rewrite Hk, Hr, Hc.
Qed.

(** ** Data buffers *)

(** C1, as stated, fails: [append] on a buffer over a fixed array does
    not raise; it replaces the array by a longer one. *)
Lemma append_to_ndarray_succeeds :
  data (objs buffer_store 0) = Some (BNdarray [VInt 1; VInt 2; VInt 3])
  /\ ~ (exists e, Data_append 0 (VInt 4) buffer_store = (buffer_store, Raise e))
  /\ outcome_of (Data_append 0 (VInt 4)) buffer_store = Ok tt
  /\ data (objs (state_after (Data_append 0 (VInt 4)) buffer_store) 0)
     = Some (BNdarray [VInt 1; VInt 2; VInt 3; VInt 4]).
Proof.
  split; [reflexivity|]. split; [|split; reflexivity].
  intros [e H]. apply (f_equal snd) in H. vm_compute in H. discriminate.
Qed.

(** C1, amended: on a buffer over a fixed array [append(x)] and
    [extend(xs)] succeed and replace the array by a new one holding the
    old items followed by the flattened new ones; on a representation
    outside the recognized set (list, array, dataset) both fail with a
    [ValueError] whose text names the concrete type, and leave the store
    as it is.  A list grows in place and a dataset is resized and written
    at its tail. *)
Theorem buffer_mutation st self b arg xs :
  data (objs st self) = Some b ->
  match b with
  | BNdarray l =>
      Data_append self arg st
      = (upd_obj self (with_data (Some (BNdarray (l ++ np_ravel arg)))) st, Ok tt)
      /\ Data_extend self xs st
         = (upd_obj self (with_data (Some (BNdarray (l ++ flat_map np_ravel xs)))) st,
            Ok tt)
  | BOther ty l =>
      Data_append self arg st = (st, Raise (CannotAppend ty))
      /\ Data_extend self xs st = (st, Raise (CannotExtend ty))
      /\ py_class (CannotAppend ty) = ValueError
      /\ py_class (CannotExtend ty) = ValueError
      /\ message (CannotAppend ty)
         = Some ("Data cannot append to object of type '" +:+ ty +:+ "'")
      /\ message (CannotExtend ty)
         = Some ("Data cannot extend object of type '" +:+ ty +:+ "'")
  | BList l =>
      Data_append self arg st
      = (upd_obj self (with_data (Some (BList (l ++ [arg])))) st, Ok tt)
      /\ Data_extend self xs st
         = (upd_obj self (with_data (Some (BList (l ++ xs)))) st, Ok tt)
  | BDataset l =>
      Data_append self arg st
      = (upd_obj self (with_data (Some (BDataset (l ++ [arg])))) st, Ok tt)
      /\ (xs <> [] ->
          Data_extend self xs st
          = (upd_obj self (with_data (Some (BDataset (l ++ xs)))) st, Ok tt))
  end.
Proof.
  intros Hd. unfold Data_append, Data_extend, set_data. rewrite Hd.
  destruct b as [l|l|l|ty l]; cbn [type_repr np_ravel flat_map].
  - done.
  - by rewrite !app_nil_r.
  - split; [done|]. intros Hxs. destruct xs; [done|]. by destruct l.
  - done.
Qed.

Lemma buffer_mutation_witness :
  data (objs buffer_store 1)
  = Some (BOther "<class 'tuple'>" [VInt 1; VInt 2; VInt 3])
  /\ Data_append 1 (VInt 4) buffer_store
     = (buffer_store, Raise (CannotAppend "<class 'tuple'>"))
  /\ message (CannotAppend "<class 'tuple'>")
     = Some "Data cannot append to object of type '<class 'tuple'>'".
Proof.
  split; [reflexivity|].
  pose proof (buffer_mutation buffer_store 1
                (BOther "<class 'tuple'>" [VInt 1; VInt 2; VInt 3])
                (VInt 4) [] eq_refl) as (Ha & _ & _ & _ & Hm & _).
  split; [exact Ha | exact Hm].
Defined.

(** ** Ancestor search *)

Lemma get_ancestor_loop_found st dt p l : forall r steps,
  parent_links st r (l ++ [p]) ->
  Forall (tagged_other st dt) l ->
  data_type (objs st p) = Some dt ->
  length l <= steps ->
  get_ancestor_loop steps st r dt = Some (Ok (RObj p)).
Proof.
  induction l as [|y l IH]; intros r steps Hl Ht Hp Hs.
  - destruct Hl as [-> _]. destruct steps; cbn [get_ancestor_loop];
      by rewrite Hp, String.eqb_refl.
  - destruct Hl as [-> Hl]. apply Forall_cons_1 in Ht as [(t & Hy & Hne) Ht].
    destruct steps as [|steps]; [simpl in Hs; lia|].
    cbn [get_ancestor_loop]. rewrite Hy.
    apply String.eqb_neq in Hne. rewrite Hne.
    apply IH; try done. simpl in Hs. lia.
Qed.

Lemma get_ancestor_loop_none st dt l : forall r steps,
  parent_path st r l ->
  Forall (tagged_other st dt) l ->
  length l <= steps ->
  get_ancestor_loop steps st r dt = Some (Ok RNone).
Proof.
  induction l as [|y l IH]; intros r steps Hl Ht Hs.
  - simpl in Hl. subst r. by destruct steps.
  - destruct Hl as [-> Hl]. apply Forall_cons_1 in Ht as [(t & Hy & Hne) Ht].
    destruct steps as [|steps]; [simpl in Hs; lia|].
    cbn [get_ancestor_loop]. rewrite Hy.
    apply String.eqb_neq in Hne. rewrite Hne.
    apply IH; try done. simpl in Hs. lia.
Qed.

(** C8, as stated, fails: in a chain of plain containers, whose class
    declares no type tag, the search does not return none at the root but
    stops at the first parent with an attribute error. *)
Lemma get_ancestor_untagged_parent :
  parent_path chain_store (parent (objs chain_store 2)) [1; 0]
  /\ (forall y, data_type (objs chain_store y) <> Some "Foo")
  /\ forall steps,
       get_ancestor steps chain_store 2 (Some "Foo") <> Some (Ok RNone)
       /\ get_ancestor steps chain_store 2 (Some "Foo")
          = Some (Raise (NoAttribute (VObj 1) "data_type")).
Proof.
  split; [by repeat split|]. split.
  - intros y. assert (H : data_type (objs chain_store y) = None); [|by rewrite H].
    destruct y as [|[|[|y]]]; reflexivity.
  - intros steps.
    assert (H : get_ancestor steps chain_store 2 (Some "Foo")
                = Some (Raise (NoAttribute (VObj 1) "data_type")))
      by (destruct steps; reflexivity).
    by rewrite H.
Qed.

(** C8, amended: without a type tag [get_ancestor] returns the immediate
    parent; with one, it returns the nearest ancestor whose declared tag
    equals it, and none when the root is reached without a match,
    provided every ancestor walked past is an instance that declares a
    (different) tag and the loop is given as many turns as there are of
    them. *)
Theorem get_ancestor_nearest st x dt l steps :
  Forall (tagged_other st dt) l ->
  length l <= steps ->
  get_ancestor steps st x None = Some (Ok (parent (objs st x)))
  /\ (forall p, parent_links st (parent (objs st x)) (l ++ [p]) ->
        data_type (objs st p) = Some dt ->
        get_ancestor steps st x (Some dt) = Some (Ok (RObj p)))
  /\ (parent_path st (parent (objs st x)) l ->
        get_ancestor steps st x (Some dt) = Some (Ok RNone)).
Proof.
  intros Ht Hs. split; [done|]. split.
  - intros p Hl Hp. by apply (get_ancestor_loop_found st dt p l).
  - intros Hl. by apply (get_ancestor_loop_none st dt l).
Qed.

Lemma get_ancestor_nearest_witness :
  Forall (tagged_other typed_chain_store "File") [1]
  /\ get_ancestor 1 typed_chain_store 2 (Some "File") = Some (Ok (RObj 0))
  /\ get_ancestor 1 typed_chain_store 2 None = Some (Ok (RObj 1)).
Proof.
  assert (Ht : Forall (tagged_other typed_chain_store "File") [1]).
  { constructor; [|constructor].
    exists "Group". split; [reflexivity|discriminate]. }
  split; [exact Ht|].
  destruct (get_ancestor_nearest typed_chain_store 2 "File" [1] 1 Ht (le_n 1))
    as (Hnone & Hfound & _).
  split; [|exact Hnone].
  apply Hfound; [|reflexivity]. repeat split.
Defined.

(** ** Field lists *)

Lemma find_unrecognized_none (keys : list string) :
  forallb (fun k => str_in k pconf_allowed_keys) keys = true ->
  find (fun k => negb (str_in k pconf_allowed_keys)) keys = None.
Proof.
  induction keys as [|k keys IH]; [done|]. cbn [forallb find].
  intros [Hk Hks]%andb_prop. rewrite Hk. cbn [negb]. by apply IH.
Qed.

Lemma setdefault_doc_keys v (d : Descriptor) :
  forallb (fun k => str_in k pconf_allowed_keys) (map fst d) = true ->
  forallb (fun k => str_in k pconf_allowed_keys) (map fst (setdefault "doc" v d))
  = true.
Proof.
  intros Hd. unfold setdefault. destruct (dict_get "doc" d); [done|].
  rewrite map_app, forallb_app, Hd. done.
Qed.

Lemma setdefault_doc_name v (d : Descriptor) :
  dict_get "name" (setdefault "doc" v d) = dict_get "name" d.
Proof.
  unfold setdefault. destruct (dict_get "doc" d); [done|].
  induction d as [|[k w] d IH]; [done|]. cbn [app dict_get].
  by destruct (String.eqb k "name").
Qed.

(** A descriptor the loop accepts gets its accessors generated. *)
Lemma class_setter_accepted container_cls doc (d : Descriptor) :
  negb container_cls
  || forallb (fun k => str_in k pconf_allowed_keys) (map fst d) = true ->
  exists s, class_setter container_cls (setdefault "doc" doc d) = Ok s.
Proof.
  intros H. unfold class_setter. destruct container_cls; [|by eexists].
  cbn [negb orb] in H. unfold Container_setter.
  rewrite (find_unrecognized_none _ (setdefault_doc_keys doc d H)).
  destruct (dict_get "child" _) as [v|]; [destruct (truthy v)|]; by eexists.
Qed.

Lemma declared_names_app fs gs :
  declared_names (fs ++ gs) = declared_names fs ++ declared_names gs.
Proof. apply omap_app. Qed.

Lemma declared_names_bare names : declared_names (map VStr names) = names.
Proof. induction names as [|n names IH]; [done|]. cbn. by f_equal. Qed.

Lemma declared_names_cons f fs s :
  declared_name f = Some s -> declared_names (f :: fs) = s :: declared_names fs.
Proof. intros H. unfold declared_names. simpl. by rewrite H. Qed.

(** The loop walks through accepted declarations and collects their
    names in order. *)
Lemma gather_loop_prefix container_cls docs pre rest : forall cls_attrs acc,
  Forall (fun f => accepted_spec container_cls f = true) pre ->
  exists cls_attrs',
    gather_loop container_cls docs (pre ++ rest) cls_attrs acc
    = gather_loop container_cls docs rest cls_attrs' (acc ++ declared_names pre).
Proof.
  induction pre as [|f pre IH]; intros cls_attrs acc Hacc.
  - exists cls_attrs. cbn. by rewrite app_nil_r.
  - apply Forall_cons_1 in Hacc as [Hf Hpre].
    assert (Hstep : exists pname d doc,
      declared_name f = Some pname
      /\ check_field_spec f = Ok d
      /\ dict_get "name" d = Some (VStr pname)
      /\ (negb container_cls
          || forallb (fun k => str_in k pconf_allowed_keys) (map fst d) = true)
      /\ doc = match dict_get pname docs with Some v => v | None => VNone end).
    { destruct f as [| | |s| | | | |d|]; try done.
      - exists s, [("name", VStr s)], (match dict_get s docs with
                                       | Some v => v | None => VNone end).
        repeat split; try done. by destruct container_cls.
      - cbn in Hf. cbn [declared_name check_field_spec].
        destruct (dict_get "name" d) as [[| | |s| | | | | |]|] eqn:Hn; try done.
        exists s, d, (match dict_get s docs with Some v => v | None => VNone end).
        done. }
    destruct Hstep as (pname & d & doc & Hname & Hchk & Hget & Hkeys & ->).
    cbn [app gather_loop]. rewrite Hchk, Hget.
    assert (Hnames : forall acc',
      (acc' ++ [pname]) ++ declared_names pre
      = acc' ++ declared_names (f :: pre)).
    { intros acc'. rewrite (declared_names_cons f pre pname Hname).
      by rewrite <- app_assoc. }
    destruct (str_in pname cls_attrs).
    + destruct (IH cls_attrs (acc ++ [pname]) Hpre) as [a' ->].
      exists a'. by rewrite Hnames.
    + destruct (class_setter_accepted container_cls
                  (match dict_get pname docs with Some v => v | None => VNone end)
                  d Hkeys) as [s ->].
      destruct (IH (cls_attrs ++ [pname]) (acc ++ [pname]) Hpre) as [a' ->].
      exists a'. by rewrite Hnames.
Qed.

(** A descriptor without name stops the loop, whatever precedes it. *)
Lemma gather_loop_nameless container_cls docs fs : forall cls_attrs acc,
  Exists (fun f => nameless f = true) fs ->
  raised (gather_loop container_cls docs fs cls_attrs acc) = true.
Proof.
  induction fs as [|f fs IH]; intros cls_attrs acc Hex; [by inversion Hex|].
  apply Exists_cons in Hex as [Hf|Hfs].
  - destruct f as [| | | | | | | |d|]; try done. cbn in Hf.
    cbn [gather_loop check_field_spec].
    by destruct (dict_get "name" d).
  - cbn [gather_loop]. destruct (check_field_spec f) as [d|e]; [|done].
    destruct (dict_get "name" d) as [[| | |s| | | | | |]|]; try done.
    destruct (str_in s cls_attrs); [by apply IH|].
    destruct (class_setter _ _); [by apply IH|done].
Qed.

(** C7, as stated, fails: a type deriving from a [Data] type, which uses
    the same field mechanism, does not inherit the field list of its
    base. *)
Lemma fields_of_data_subtype_not_merged :
  exists cls,
    gather_fields true false [] (VTuple [VStr "b"]) ["a"] (Some data_base) false
    = Ok cls
    /\ fields cls = ["b"]
    /\ ~ (exists own, fields cls = fields data_base ++ own).
Proof.
  eexists. split; [reflexivity|]. split; [reflexivity|].
  intros [own H]. discriminate.
Qed.

(** C7, amended: a bare name is normalized to a descriptor holding it;
    a type with well-formed declarations resolves to the field list of
    its last base, when that base is a [Container] type other than the
    one the declaration is shared with, followed by its own declared
    names in order, and to its own names alone otherwise (in particular
    under a [Data] base); a descriptor without [name] makes the type
    definition fail, with the missing-name [ValueError] when the
    declarations before it are well-formed. *)
Theorem gather_fields_order container_defined container_cls docs own cls_attrs
    last_base shared :
  (forall s, check_field_spec (VStr s) = Ok [("name", VStr s)])
  /\ (forall d, dict_get "name" d = None ->
        check_field_spec (VDict d) = Raise MissingName
        /\ py_class MissingName = ValueError)
  /\ (Forall (fun f => accepted_spec container_cls f = true) own ->
        exists cls_attrs',
          gather_fields container_defined container_cls docs (VTuple own)
            cls_attrs last_base shared
          = Ok (mkClass container_cls
                  (inherited_fields container_defined last_base shared
                   ++ declared_names own)
                  cls_attrs'))
  /\ (Exists (fun f => nameless f = true) own ->
        exists e,
          gather_fields container_defined container_cls docs (VTuple own)
            cls_attrs last_base shared
          = Raise e)
  /\ (forall pre f post,
        own = pre ++ f :: post ->
        Forall (fun f => accepted_spec container_cls f = true) pre ->
        nameless f = true ->
        gather_fields container_defined container_cls docs (VTuple own)
          cls_attrs last_base shared
        = Raise MissingName).
Proof.
  set (merged :=
    match last_base with
    | Some base =>
        if container_defined && subclass_of_Container base && negb shared
        then map VStr (fields base) ++ own else own
    | None => own
    end).
  assert (Hm : merged
               = map VStr (inherited_fields container_defined last_base shared)
                 ++ own).
  { subst merged. unfold inherited_fields. destruct last_base as [base|]; [|done].
    by destruct (_ && _). }
  assert (Hbare : forall names,
    Forall (fun f => accepted_spec container_cls f = true) (map VStr names)).
  { intros names. induction names; by constructor. }
  split; [done|]. split.
  { intros d Hd. cbn [check_field_spec]. by rewrite Hd. }
  split; [|split].
  - intros Hown. unfold gather_fields. fold merged. rewrite Hm.
    destruct (gather_loop_prefix container_cls docs
                (map VStr (inherited_fields container_defined last_base shared)
                 ++ own) [] cls_attrs [])
      as [a' Ha].
    { apply Forall_app. split; [apply Hbare|done]. }
    rewrite app_nil_r in Ha. rewrite Ha. cbn [gather_loop app].
    exists a'. by rewrite declared_names_app, declared_names_bare.
  - intros Hex. unfold gather_fields. fold merged.
    assert (Hr : raised (gather_loop container_cls docs merged cls_attrs []) = true).
    { apply gather_loop_nameless. rewrite Hm. apply Exists_app. by right. }
    destruct (gather_loop _ _ merged _ _) as [[a names]|e]; [done|]. by exists e.
  - intros pre f post -> Hpre Hf. unfold gather_fields. fold merged. rewrite Hm.
    rewrite app_assoc.
    destruct (gather_loop_prefix container_cls docs
                (map VStr (inherited_fields container_defined last_base shared)
                 ++ pre) (f :: post) cls_attrs [])
      as [a' ->].
    { apply Forall_app. split; [apply Hbare|done]. }
    destruct f as [| | | | | | | |d|]; try done. cbn in Hf.
    cbn [gather_loop check_field_spec]. by destruct (dict_get "name" d).
Qed.

Lemma gather_fields_order_witness :
  Forall (fun f => accepted_spec true f = true)
         [VStr "b"; VDict [("name", VStr "c"); ("child", VBool true)]]
  /\ exists cls_attrs',
       gather_fields true true []
         (VTuple [VStr "b"; VDict [("name", VStr "c"); ("child", VBool true)]])
         ["a"] (Some container_base) false
       = Ok (mkClass true ["a"; "b"; "c"] cls_attrs').
Proof.
  assert (H : Forall (fun f => accepted_spec true f = true)
                [VStr "b"; VDict [("name", VStr "c"); ("child", VBool true)]]).
  { repeat constructor. }
  split; [exact H|].
  destruct (gather_fields_order true true []
              [VStr "b"; VDict [("name", VStr "c"); ("child", VBool true)]]
              ["a"] (Some container_base) false)
    as (_ & _ & Hok & _).
  exact (Hok H).
Defined.

(** ** How the tree changes *)

Lemma links_same_refl st : links_same st st.
Proof. by split. Qed.

Lemma links_same_trans st1 st2 st3 :
  links_same st1 st2 -> links_same st2 st3 -> links_same st1 st3.
Proof.
  intros [H1 P1] [H2 P2]. split; [|congruence].
  intros y. destruct (H1 y) as (? & ? & ?), (H2 y) as (? & ? & ?).
  repeat split; congruence.
Qed.

Lemma links_same_children st st' y :
  links_same st st' -> children (objs st' y) = children (objs st y).
Proof. intros [H _]. apply H. Qed.

Lemma links_same_tree_grows st st' : links_same st st' -> tree_grows st st'.
Proof.
  intros [H P]. repeat split.
  - intros y. apply H.
  - intros y p Hp. destruct (H y) as (_ & -> & _). done.
  - intros y. destruct (H y) as (_ & _ & ->). done.
  - intros y b Hb. left. destruct (H y) as (_ & _ & E). by rewrite <- E.
  - by rewrite P.
  - by rewrite P.
Qed.

Lemma tree_grows_refl st : tree_grows st st.
Proof. apply links_same_tree_grows, links_same_refl. Qed.

Lemma tree_grows_trans st1 st2 st3 :
  tree_grows st1 st2 -> tree_grows st2 st3 -> tree_grows st1 st3.
Proof.
  intros (K1 & P1 & C1 & N1 & X1) (K2 & P2 & C2 & N2 & X2). repeat split.
  - intros y. by rewrite K2.
  - intros y p Hp. by apply P2, P1.
  - intros y. etrans; [apply C1|apply C2].
  - intros y b Hb. destruct (N2 y b Hb) as [Hb1|[Hp2 Hp1]].
    + destruct (N1 y b Hb1) as [Hb0|[Hp1 Hp0]]; [by left|].
      right. split; [by apply P2|done].
    + right. split; [done|]. intros Hp0. by apply Hp1, P1.
  - destruct (X1 q) as [E1 _], (X2 q) as [E2 _]. congruence.
  - destruct (X1 q) as [_ E1], (X2 q) as [_ E2]. etrans; [apply E1|apply E2].
Qed.

Lemma flags_mono_trans st1 st2 st3 :
  flags_mono st1 st2 -> flags_mono st2 st3 -> flags_mono st1 st3.
Proof. intros H1 H2 y Hy. by apply H2, H1. Qed.

(** What a change that preserves kind, parent and children does. *)
Lemma links_same_upd x f st :
  (forall o, kind (f o) = kind o /\ parent (f o) = parent o
             /\ children (f o) = children o) ->
  links_same st (upd_obj x f st).
Proof.
  intros Hf. split; [|done]. intros y. rewrite objs_upd_obj.
  destruct (decide (x = y)) as [->|]; [apply Hf|done].
Qed.

Lemma set_modified_links_same depth self m st :
  links_same st (fst (set_modified depth self m st)).
Proof.
  split; [|apply set_modified_proxies]. intros y.
  pose proof (set_modified_unflag depth self m st y) as H.
  split; [by apply unflag_kind|]. split; [by apply unflag_parent|].
  by apply unflag_children.
Qed.

(** Setting the parent slot of an instance that has no instance as
    parent yet. *)
Lemma tree_grows_link st x P :
  (forall p, parent (objs st x) <> RObj p) ->
  tree_grows st (upd_obj x (with_parent P) st).
Proof.
  intros Hx. repeat split.
  - intros y. rewrite objs_upd_obj. destruct (decide (x = y)) as [->|]; [|done].
    by destruct (objs st y).
  - intros y p Hp. rewrite objs_upd_obj_ne; [done|]. intros ->. by apply (Hx p).
  - intros y. rewrite objs_upd_obj. destruct (decide (x = y)) as [->|]; [|done].
    by destruct (objs st y).
  - intros y b Hb. left. rewrite objs_upd_obj in Hb.
    destruct (decide (x = y)) as [->|]; [|done]. by destruct (objs st y).
  - done.
Qed.

(** The same, followed by the registration with the new parent. *)
Lemma tree_grows_attach st x p :
  (forall p', parent (objs st x) <> RObj p') ->
  tree_grows st (upd_obj p (append_child x) (upd_obj x (with_parent (RObj p)) st)).
Proof.
  intros Hx.
  assert (Hpar : forall y, y <> x ->
    parent (objs (upd_obj p (append_child x)
                    (upd_obj x (with_parent (RObj p)) st)) y) = parent (objs st y)).
  { intros y Hy. rewrite objs_upd_obj.
    destruct (decide (p = y)) as [->|]; rewrite objs_upd_obj_ne by done; done. }
  assert (Hparx :
    parent (objs (upd_obj p (append_child x)
                    (upd_obj x (with_parent (RObj p)) st)) x) = RObj p).
  { rewrite objs_upd_obj.
    destruct (decide (p = x)) as [->|]; rewrite objs_upd_obj_eq; by destruct (objs st x). }
  assert (Hch : forall y,
    children (objs (upd_obj p (append_child x)
                      (upd_obj x (with_parent (RObj p)) st)) y)
    = children (objs st y) ++ (if decide (p = y) then [x] else [])).
  { intros y. rewrite objs_upd_obj. destruct (decide (p = y)) as [->|].
    - rewrite objs_upd_obj. destruct (decide (x = y)) as [->|]; [|done].
      by destruct (objs st y).
    - rewrite app_nil_r, objs_upd_obj. destruct (decide (x = y)) as [->|]; [|done].
      by destruct (objs st y). }
  repeat split.
  - intros y. rewrite objs_upd_obj. destruct (decide (p = y)) as [->|];
      rewrite objs_upd_obj; destruct (decide (x = y)) as [->|]; try done;
      by destruct (objs st y).
  - intros y p' Hp. rewrite Hpar; [done|]. intros ->. by apply (Hx p').
  - intros y. rewrite Hch. by apply prefix_app_r.
  - intros y b Hb. rewrite Hch in Hb. apply elem_of_app in Hb as [Hb|Hb]; [by left|].
    destruct (decide (p = y)) as [->|]; [|by apply elem_of_nil in Hb].
    apply list_elem_of_singleton in Hb as ->. right. split; [done|apply Hx].
  - done.
Qed.

Lemma tree_grows_candidate st q P :
  tree_grows st (upd_proxy q (add_candidate P) st).
Proof.
  repeat split; try done.
  - intros y b Hb. by left.
  - rewrite proxies_upd_proxy. by destruct (decide (q = q0)) as [->|].
  - rewrite proxies_upd_proxy. destruct (decide (q = q0)) as [->|]; [|done].
    by apply prefix_app_r.
Qed.

(** The parent setter only lets the tree grow. *)
Lemma parent_setter_tree_grows depth self P st :
  tree_grows st (fst (parent_setter depth self P st)).
Proof.
  unfold parent_setter. destruct (ref_is _ _); [apply tree_grows_refl|].
  destruct (parent (objs st self)) as [|p0|q] eqn:Hp.
  - assert (Hx : forall p', parent (objs st self) <> RObj p') by (by rewrite Hp).
    destruct (ref_is_Container _ _); [|by apply tree_grows_link].
    destruct P as [|p|q']; try by apply tree_grows_link.
    eapply tree_grows_trans; [by apply (tree_grows_attach st self p)|].
    apply links_same_tree_grows, set_modified_links_same.
  - apply tree_grows_refl.
  - assert (Hx : forall p', parent (objs st self) <> RObj p') by (by rewrite Hp).
    destruct P as [|p|q']; [apply tree_grows_refl| |].
    + destruct (matches _ _); [|apply tree_grows_candidate].
      eapply tree_grows_trans; [by apply (tree_grows_attach st self p)|].
      apply links_same_tree_grows, set_modified_links_same.
    + destruct (matches _ _); [by apply tree_grows_link|apply tree_grows_candidate].
Qed.

(** It only touches the parent slot of its receiver. *)
Lemma parent_setter_other_parent depth self P st y :
  y <> self ->
  parent (objs (fst (parent_setter depth self P st)) y) = parent (objs st y).
Proof.
  intros Hy.
  assert (H1 : forall Q, parent (objs (upd_obj self (with_parent Q) st) y)
                         = parent (objs st y)).
  { intros Q. by rewrite objs_upd_obj_ne. }
  assert (H2 : forall Q p,
    parent (objs (upd_obj p (append_child self)
                    (upd_obj self (with_parent Q) st)) y) = parent (objs st y)).
  { intros Q p. rewrite objs_upd_obj. destruct (decide (p = y)) as [->|]; [|done].
    specialize (H1 Q). by destruct (objs _ y). }
  unfold parent_setter. destruct (ref_is _ _); [done|].
  destruct (parent (objs st self)) as [|p0|q].
  - destruct (ref_is_Container _ _); [|by apply H1].
    destruct P as [|p|q']; try by apply H1.
    by rewrite (unflag_parent _ _ (set_modified_unflag _ _ _ _ _)).
  - done.
  - destruct P as [|p|q']; [done| |].
    + destruct (matches _ _); [|done].
      by rewrite (unflag_parent _ _ (set_modified_unflag _ _ _ _ _)).
    + destruct (matches _ _); [by apply H1|done].
Qed.

(** ** Child registration *)

Lemma bind_ok {A B} (m : M A) (k : A -> M B) st st' b :
  bind m k st = (st', Ok b) ->
  exists s1 a, m st = (s1, Ok a) /\ k a s1 = (st', Ok b).
Proof.
  unfold bind. destruct (m st) as [s1 [a|e]]; [|done]. intros H. by exists s1, a.
Qed.

Lemma attached_preserved st st' a b :
  attached st a b -> tree_grows st st' -> flags_mono st st' -> attached st' a b.
Proof.
  intros (Hp & Hc & Hm) (_ & P & C & _) F. repeat split.
  - by apply P.
  - by apply (elem_of_prefix _ _ _ Hc (C a)).
  - by apply F.
Qed.

(** After the link and the registration, a returning [set_modified]
    leaves the child attached. *)
Lemma linked_attached depth a b st st' :
  set_modified depth a true
    (upd_obj a (append_child b) (upd_obj b (with_parent (RObj a)) st))
  = (st', Ok tt) ->
  attached st' a b.
Proof.
  intros H.
  set (linked := upd_obj a (append_child b) (upd_obj b (with_parent (RObj a)) st))
    in *.
  assert (Hst : st' = fst (set_modified depth a true linked)) by by rewrite H.
  destruct depth as [|depth]; [done|]. subst st'. repeat split.
  - rewrite (unflag_parent _ _ (set_modified_unflag _ _ _ _ _)). subst linked.
    rewrite objs_upd_obj.
    destruct (decide (a = b)) as [->|]; rewrite objs_upd_obj_eq; by destruct (objs st b).
  - rewrite (unflag_children _ _ (set_modified_unflag _ _ _ _ _)). subst linked.
    rewrite objs_upd_obj_eq. apply elem_of_app. right. cbn.
    apply list_elem_of_singleton. done.
  - apply set_modified_self.
Qed.

(** One turn of the loop, when it returns. *)
Lemma register_child_effect depth a c st st' :
  register_child depth a (VObj c) st = (st', Ok tt) ->
  is_Container (kind (objs st a)) = true ->
  tree_grows st st' /\ flags_mono st st'
  /\ (forall y, y <> c -> parent (objs st' y) = parent (objs st y))
  /\ (parent (objs st c) = RNone -> attached st' a c)
  /\ (forall q, parent (objs st c) = RProxy q ->
        if matches (proxies st q) (RObj a) then attached st' a c
        else parent (objs st' c) = RProxy q
             /\ RObj a ∈ candidates (proxies st' q)).
Proof.
  intros H Ha. unfold register_child in H.
  destruct (ref_is_Container st (parent (objs st c))) eqn:Hc.
  - injection H as <-. split; [apply tree_grows_refl|]. split; [by intros y|].
    split; [done|]. split; [intros Hp|intros q Hp]; by rewrite Hp in Hc.
  - assert (Hst : st' = fst (parent_setter depth c (RObj a) st)) by by rewrite H.
    split; [subst st'; apply parent_setter_tree_grows|].
    split; [subst st'; intros y; apply parent_setter_modified_mono|].
    split; [subst st'; intros y Hy; by apply parent_setter_other_parent|].
    split.
    + intros Hp. rewrite (parent_setter_unset _ _ _ _ Hp) in H by done.
      cbn zeta in H. rewrite Ha in H. by apply (linked_attached depth a c st).
    + intros q Hp. destruct (matches (proxies st q) (RObj a)) eqn:Hm.
      * rewrite (parent_setter_proxy_match _ _ _ _ _ Hp Hm) in H.
        by apply (linked_attached depth a c st).
      * rewrite (parent_setter_proxy_other _ _ _ _ _ Hp) in H; try done.
        injection H as <-. split; [done|].
        rewrite proxies_upd_proxy. destruct (decide (q = q)); [|done].
        apply elem_of_app. right. apply list_elem_of_singleton. done.
Qed.

(** The whole loop, when it returns: every instance of the sequence that
    had no parent is attached, one under a proxy is attached if the proxy
    matches and becomes a candidate otherwise, and no other parent slot
    changes. *)
Lemma register_children_effect depth a : forall bs st st',
  register_children depth a (map VObj bs) st = (st', Ok tt) ->
  is_Container (kind (objs st a)) = true ->
  tree_grows st st' /\ flags_mono st st'
  /\ forall b,
       (b ∉ bs -> parent (objs st' b) = parent (objs st b))
       /\ (b ∈ bs ->
           (parent (objs st b) = RNone -> attached st' a b)
           /\ (forall q, parent (objs st b) = RProxy q ->
                 if matches (proxies st q) (RObj a) then attached st' a b
                 else parent (objs st' b) = RProxy q
                      /\ RObj a ∈ candidates (proxies st' q))).
Proof.
  induction bs as [|c bs IH]; intros st st' H Ha.
  - cbn in H. injection H as <-. split; [apply tree_grows_refl|].
    split; [by intros y|]. intros b. split; [done|].
    intros Hb. by apply elem_of_nil in Hb.
  - cbn [map register_children] in H.
    apply bind_ok in H as (s1 & [] & Hstep & Hrest).
    destruct (register_child_effect _ _ _ _ _ Hstep Ha) as (G1 & F1 & Fr1 & E1 & E2).
    assert (Ha1 : is_Container (kind (objs s1 a)) = true).
    { destruct G1 as (K & _). by rewrite K. }
    assert (Hm1 : forall q, matches (proxies s1 q) = matches (proxies st q)).
    { destruct G1 as (_ & _ & _ & _ & X). intros q. apply X. }
    destruct (IH s1 st' Hrest Ha1) as (G2 & F2 & Hb2).
    split; [by eapply tree_grows_trans|]. split; [by eapply flags_mono_trans|].
    intros b. split.
    + intros Hb. apply not_elem_of_cons in Hb as [Hne Hb].
      destruct (Hb2 b) as [Hfr _]. rewrite Hfr by done. by apply Fr1.
    + intros Hb. destruct (decide (b = c)) as [->|Hne].
      * split.
        -- intros Hp. eapply attached_preserved; [by apply E1|done|done].
        -- intros q Hp. specialize (E2 q Hp).
           destruct (matches (proxies st q) (RObj a)) eqn:Hm.
           ++ by eapply attached_preserved.
           ++ destruct E2 as [Hp1 Hc1]. destruct (decide (c ∈ bs)) as [Hin|Hnin].
              ** destruct (Hb2 c) as [_ Hc2]. destruct (Hc2 Hin) as [_ Hq].
                 specialize (Hq q Hp1). by rewrite Hm1, Hm in Hq.
              ** destruct (Hb2 c) as [Hfr _]. split; [by rewrite Hfr|].
                 destruct G2 as (_ & _ & _ & _ & X). destruct (X q) as [_ Hpre].
                 by apply (elem_of_prefix _ _ _ Hc1 Hpre).
      * apply elem_of_cons in Hb as [->|Hb]; [done|].
        destruct (Hb2 b) as [_ Hc2]. destruct (Hc2 Hb) as [Hn Hq].
        rewrite <- (Fr1 b Hne). split; [done|].
        intros q Hp. specialize (Hq q Hp). by rewrite Hm1 in Hq.
Qed.

(** A loop that returns has only met instances. *)
Lemma register_children_objs depth a : forall vals st st',
  register_children depth a vals st = (st', Ok tt) ->
  exists bs, vals = map VObj bs.
Proof.
  induction vals as [|v vals IH]; intros st st' H; [by exists []|].
  cbn [register_children] in H. apply bind_ok in H as (s1 & [] & Hstep & Hrest).
  destruct (IH _ _ Hrest) as [bs ->].
  destruct v; try done. by eexists (_ :: bs).
Qed.

(** The setters below the child directive leave the tree alone. *)
Lemma setter_links_same nm depth self val st :
  links_same st (fst (setter nm depth self val st)).
Proof.
  unfold setter.
  destruct val; try apply links_same_refl;
    (destruct (field_values (objs st self) !! nm);
     [apply links_same_refl | by apply links_same_upd]).
Qed.

Lemma call_abstract_links field depth self val st :
  links_same st
    (fst (call_setter (AbstractContainer_setter field) depth self val st)).
Proof.
  unfold AbstractContainer_setter.
  destruct (match dict_get "settable" field with
            | Some v => truthy v | None => true end); cbn [call_setter].
  - apply setter_links_same.
  - apply links_same_refl.
Qed.

Lemma required_name_links field required depth self val st :
  links_same st
    (fst (required_name_setter field required (AbstractContainer_setter field)
            depth self val st)).
Proof.
  unfold required_name_setter.
  destruct val; try apply links_same_refl; try apply call_abstract_links.
  destruct (name_differs _ _); [apply links_same_refl|apply call_abstract_links].
Qed.

Lemma call_named_links field depth self val st :
  links_same st (fst (call_setter (named_setter field) depth self val st)).
Proof.
  unfold named_setter.
  destruct (dict_get "required_name" field) as [r|]; [|apply call_abstract_links].
  destruct r; try apply call_abstract_links; apply required_name_links.
Qed.

(** C6, as stated, fails: assigning to a child field an instance whose
    parent is an unresolved proxy that does not match the receiver leaves
    that instance under its proxy, outside the receiver's children, and
    the receiver unmarked. *)
Lemma child_under_unmatched_proxy_not_attached :
  let call := exec 8 (Call_field true items_field 2 (VObj 0)) in
  parent (objs proxy_store 0) = RProxy 0
  /\ outcome_of call proxy_store = Ok tt
  /\ field_values (objs (state_after call proxy_store) 2) !! "items" = Some (VObj 0)
  /\ parent (objs (state_after call proxy_store) 0) = RProxy 0
  /\ children (objs (state_after call proxy_store) 2) = []
  /\ modified (objs (state_after call proxy_store) 2) = false
  /\ ~ attached (state_after call proxy_store) 2 0.
Proof.
  cbn zeta. repeat (split; [reflexivity|]).
  intros (Hp & _). vm_compute in Hp. discriminate.
Qed.

(** C6, amended: when an assignment through a child-designated setter of
    a container [a] returns, the value has been normalized (a list or
    tuple as it is, a dict to its values, anything else, a set included,
    to a one-element sequence), every element is an instance, and each
    element [b]: if its parent was unset, ends with [b.parent is a],
    [b in a.children] and [a.modified] set; if its parent was an
    unresolved proxy, ends so when the proxy matches [a] and otherwise
    keeps the proxy as parent while [a] is recorded as its candidate; if
    its parent was an instance, keeps that parent. *)
Theorem child_setter_registers field s depth a val st st' :
  Container_setter field = Ok (Some s) ->
  (exists v, dict_get "child" field = Some v /\ truthy v = true) ->
  is_Container (kind (objs st a)) = true ->
  val <> VNone ->
  s depth a val st = (st', Ok tt) ->
  (forall l, child_values (VList l) = l /\ child_values (VTuple l) = l
             /\ child_values (VSet l) = [VSet l])
  /\ (forall d, child_values (VDict d) = map snd d)
  /\ (forall b, child_values (VObj b) = [VObj b])
  /\ exists bs,
       child_values val = map VObj bs
       /\ forall b, b ∈ bs ->
            (parent (objs st b) = RNone -> attached st' a b)
            /\ (forall q, parent (objs st b) = RProxy q ->
                  if matches (proxies st q) (RObj a) then attached st' a b
                  else parent (objs st' b) = RProxy q
                       /\ RObj a ∈ candidates (proxies st' q))
            /\ (forall p, parent (objs st b) = RObj p ->
                  parent (objs st' b) = RObj p).
Proof.
  intros Hs (v & Hc & Hv) Ha Hval Hrun.
  split; [done|]. split; [done|]. split; [done|].
  unfold Container_setter in Hs.
  destruct (find _ _); [done|]. rewrite Hc, Hv in Hs. injection Hs as <-.
  unfold child_setter in Hrun. apply bind_ok in Hrun as (s1 & [] & Hinner & Hloop).
  assert (Hloop' : register_children depth a (child_values val) s1 = (st', Ok tt))
    by by destruct val.
  clear Hloop.
  destruct (register_children_objs _ _ _ _ _ Hloop') as [bs Hbs].
  exists bs. split; [done|]. rewrite Hbs in Hloop'.
  pose proof (call_named_links field depth a val st) as [L LP].
  rewrite Hinner in L, LP. cbn [fst] in L, LP.
  assert (Ha1 : is_Container (kind (objs s1 a)) = true).
  { destruct (L a) as (-> & _). done. }
  destruct (register_children_effect depth a bs s1 st' Hloop' Ha1) as (G & F & Hb).
  intros b Hin. destruct (Hb b) as [_ Hb']. destruct (Hb' Hin) as [Hn Hq].
  destruct (L b) as (_ & Lp & _). rewrite Lp, LP in *.
  split; [done|]. split; [done|].
  intros p Hp. destruct G as (_ & P & _). apply P. by rewrite Lp.
Qed.

Lemma child_setter_registers_witness :
  let s := child_setter (named_setter items_field) in
  let st' := state_after (s 8 2 (VList [VObj 1; VObj 0])) proxy_store in
  Container_setter items_field = Ok (Some s)
  /\ s 8 2 (VList [VObj 1; VObj 0]) proxy_store = (st', Ok tt)
  /\ attached st' 2 1
  /\ parent (objs st' 0) = RProxy 0
  /\ RObj 2 ∈ candidates (proxies st' 0).
Proof.
  intros s st'.
  assert (Hs : Container_setter items_field = Ok (Some s)) by reflexivity.
  assert (Hrun : s 8 2 (VList [VObj 1; VObj 0]) proxy_store = (st', Ok tt))
    by reflexivity.
  split; [exact Hs|]. split; [exact Hrun|].
  destruct (child_setter_registers items_field s 8 2 (VList [VObj 1; VObj 0])
              proxy_store st' Hs)
    as (_ & _ & _ & bs & Hbs & Hb);
    [by exists (VBool true) | reflexivity | discriminate | exact Hrun |].
  assert (Ebs : bs = [1; 0]).
  { cbn in Hbs. destruct bs as [|b1 [|b2 [|b3 bs]]]; try discriminate.
    by injection Hbs as <- <-. }
  subst bs. split.
  - apply (Hb 1); [apply list_elem_of_In; simpl; auto | reflexivity].
  - assert (H0 : 0 ∈ [1; 0]) by (apply list_elem_of_In; simpl; auto).
    destruct (Hb 0 H0) as (_ & Hq & _). exact (Hq 0 eq_refl).
Defined.

(** ** The children collection *)

Lemma register_child_tree_grows depth a v st :
  tree_grows st (fst (register_child depth a v st)).
Proof.
  unfold register_child. destruct v; try apply tree_grows_refl.
  destruct (ref_is_Container _ _); [apply tree_grows_refl|].
  apply parent_setter_tree_grows.
Qed.

Lemma register_children_tree_grows depth a : forall vals st,
  tree_grows st (fst (register_children depth a vals st)).
Proof.
  induction vals as [|v vals IH]; intros st; [apply tree_grows_refl|].
  cbn [register_children]. unfold bind.
  pose proof (register_child_tree_grows depth a v st) as H1.
  destruct (register_child depth a v st) as [s1 [u|e]]; cbn [fst] in *; [|done].
  eapply tree_grows_trans; [exact H1|apply IH].
Qed.

Lemma child_setter_tree_grows field depth self val st :
  tree_grows st
    (fst (child_setter (named_setter field) depth self val st)).
Proof.
  unfold child_setter, bind.
  pose proof (call_named_links field depth self val st) as H1.
  destruct (call_setter (named_setter field) depth self val st) as [s1 [u|e]];
    cbn [fst] in *; [|by apply links_same_tree_grows].
  eapply tree_grows_trans; [by apply links_same_tree_grows|].
  destruct val; try apply register_children_tree_grows. apply tree_grows_refl.
Qed.

Lemma assign_field_state s nm depth self val st :
  fst (assign_field s nm depth self val st) = fst (call_setter s depth self val st).
Proof. by destruct s. Qed.

(** A call that cannot reach the parent setter leaves the tree as it is. *)
Lemma exec_links_same depth c st :
  assigns_parent c = false -> links_same st (fst (exec depth c st)).
Proof.
  destruct c as [self m|self p|self child|self source|cc field self val
                |self arg|self arg|self]; cbn [assigns_parent exec]; intros Hc;
    try done.
  - apply set_modified_links_same.
  - unfold container_source_setter.
    destruct (container_source _); try apply links_same_refl.
    by apply links_same_upd.
  - unfold class_setter. destruct cc.
    + unfold Container_setter. destruct (find _ _); [apply links_same_refl|].
      cbn [andb] in Hc.
      destruct (dict_get "child" field) as [v|];
        [rewrite Hc|]; rewrite assign_field_state; apply call_named_links.
    + rewrite assign_field_state. apply call_abstract_links.
  - unfold Data_append, set_data.
    destruct (data _) as [[l|l|l|ty l]|]; try apply links_same_refl;
      by apply links_same_upd.
  - unfold Data_extend, set_data.
    destruct (data _) as [[l|l|l|ty l]|]; try apply links_same_refl;
      try (by apply links_same_upd).
    destruct arg, l; try apply links_same_refl; by apply links_same_upd.
  - unfold Data_set_dataio, set_data.
    destruct (data _); [by apply links_same_upd|apply links_same_refl].
Qed.

(** Every call only lets the tree grow. *)
Lemma exec_tree_grows depth c st : tree_grows st (fst (exec depth c st)).
Proof.
  destruct (assigns_parent c) eqn:Hc;
    [|by apply links_same_tree_grows, exec_links_same].
  destruct c as [self m|self p|self child|self source|cc field self val
                |self arg|self arg|self]; cbn [assigns_parent exec] in *;
    try done.
  - apply parent_setter_tree_grows.
  - unfold add_child. destruct child as [c|]; [|apply tree_grows_refl].
    destruct (parent (objs st c)); try apply parent_setter_tree_grows.
    apply tree_grows_refl.
  - apply andb_prop in Hc as [-> Hc]. unfold class_setter, Container_setter.
    destruct (find _ _); [apply tree_grows_refl|].
    destruct (dict_get "child" field) as [v|]; [|done]. rewrite Hc.
    rewrite assign_field_state. cbn [call_setter]. apply child_setter_tree_grows.
Qed.

(** Construction reaches the children lists of existing instances only
    through the parent setter as well. *)
Lemma construction_tree_grows depth k dt nm source kw_parent st y :
  y <> next st ->
  let st' := state_after (new_Container depth k dt nm source kw_parent) st in
  children (objs st y) `prefix_of` children (objs st' y)
  /\ forall b, b ∈ children (objs st' y) ->
       b ∈ children (objs st y) \/ parent (objs st' b) = RObj y.
Proof.
  intros Hy st'. subst st'.
  unfold state_after, new_Container, bind, AbstractContainer_new.
  set (st1 := mkState _ _ _).
  assert (H1 : children (objs st1 y) = children (objs st y)).
  { subst st1. cbn [objs]. by rewrite fn_lookup_insert_ne. }
  pose proof (parent_setter_tree_grows depth (next st) kw_parent st1)
    as (_ & _ & C & N & _).
  destruct (parent_setter depth (next st) kw_parent st1) as [st2 [u|e]];
    cbn [fst] in *.
  - unfold AbstractContainer_init. destruct (contains_slash nm); cbn [fst ret].
    + rewrite <- H1. split; [apply C|]. intros b Hb.
      destruct (N y b Hb) as [?|[? _]]; [by left|by right].
    + assert (L : links_same st2
                    (upd_obj (next st) (fun o => with_field_values ∅ (with_name nm o))
                       st2)) by by apply links_same_upd.
      destruct L as [L _]. destruct (L y) as (_ & _ & ->). rewrite <- H1.
      split; [apply C|]. intros b Hb. destruct (L b) as (_ & -> & _).
      destruct (N y b Hb) as [?|[? _]]; [by left|by right].
  - rewrite <- H1. split; [apply C|]. intros b Hb.
    destruct (N y b Hb) as [?|[? _]]; [by left|by right].
Qed.

(** C10: the [children] accessor answers a tuple holding the internal
    list, a value no in-place operation applies to; a call that does not
    go through the parent setter leaves every children list as it is, and
    any call only extends a list at its end, by instances that have just
    received the owner as parent. *)
Theorem children_only_change_by_parent_assignment depth c st x :
  let st' := state_after (exec depth c) st in
  children_prop st x = VTuple (map VObj (children (objs st x)))
  /\ (forall m, raised (mutate m (children_prop st x)) = true)
  /\ (assigns_parent c = false ->
        forall y, children (objs st' y) = children (objs st y))
  /\ (forall y, children (objs st y) `prefix_of` children (objs st' y))
  /\ (forall y b, b ∈ children (objs st' y) ->
        b ∈ children (objs st y)
        \/ (parent (objs st' b) = RObj y /\ parent (objs st b) <> RObj y)).
Proof.
  intros st'. subst st'. unfold state_after.
  split; [done|]. split; [by intros []|]. split.
  - intros Hc y. by apply links_same_children, exec_links_same.
  - destruct (exec_tree_grows depth c st) as (_ & _ & C & N & _). by split.
Qed.

Lemma children_only_change_by_parent_assignment_witness :
  assigns_parent (Call_set_modified 2 true) = false
  /\ children (objs (state_after (exec 8 (Call_set_modified 2 true)) chain_store) 1)
     = [2]
  /\ raised (mutate (MAppend (VObj 0)) (children_prop chain_store 1)) = true.
Proof.
  split; [reflexivity|].
  destruct (children_only_change_by_parent_assignment 8 (Call_set_modified 2 true)
              chain_store 1) as (_ & Hm & Hsame & _).
  split; [|apply Hm]. rewrite (Hsame eq_refl 1). reflexivity.
Defined.

(** ** When a child assignment returns *)

Lemma container_chain_agree n : forall st st' x anc,
  container_chain n st x = Some anc ->
  (forall y, y ∈ x :: anc -> Container_parent st' y = Container_parent st y) ->
  container_chain n st' x = Some anc.
Proof.
  induction n as [|n IH]; intros st st' x anc Hc Hy; cbn [container_chain] in *;
    rewrite (Hy x) by apply list_elem_of_here;
    destruct (Container_parent st x) as [p|]; try done.
  destruct (container_chain n st p) as [anc'|] eqn:Hp; [|done].
  injection Hc as <-. rewrite (IH st st' p anc' Hp); [done|].
  intros y Hin. apply Hy. by apply list_elem_of_further.
Qed.

Lemma Container_parent_links st st' y :
  links_same st st' -> Container_parent st' y = Container_parent st y.
Proof.
  intros [L _]. unfold Container_parent. destruct (L y) as (_ & -> & _).
  destruct (parent (objs st y)) as [|p|q]; try done.
  destruct (L p) as (-> & _). done.
Qed.

Lemma mark_modified_links_same l : forall st, links_same st (mark_modified l st).
Proof.
  induction l as [|z l IH]; intros st; cbn [mark_modified];
    [apply links_same_refl|].
  eapply links_same_trans; [|apply IH]. by apply links_same_upd.
Qed.

(** Linking an instance that is not on the chain above [a] under [a]
    leaves that chain as it is. *)
Lemma Container_parent_attach st a b y :
  y <> b ->
  Container_parent
    (upd_obj a (append_child b) (upd_obj b (with_parent (RObj a)) st)) y
  = Container_parent st y.
Proof.
  intros Hy.
  assert (K : forall z,
    kind (objs (upd_obj a (append_child b)
                  (upd_obj b (with_parent (RObj a)) st)) z) = kind (objs st z)).
  { intros z. rewrite objs_upd_obj. destruct (decide (a = z)) as [->|];
      rewrite objs_upd_obj; destruct (decide (b = z)) as [->|]; try done;
      by destruct (objs st z). }
  unfold Container_parent. rewrite objs_upd_obj.
  destruct (decide (a = y)) as [->|]; rewrite objs_upd_obj_ne by done.
  - cbn [append_child with_children parent].
    destruct (parent (objs st y)) as [|p|q]; try done. by rewrite K.
  - destruct (parent (objs st y)) as [|p|q]; try done. by rewrite K.
Qed.

(** The loop returns when the depth available exceeds the length of the
    chain above the receiver and every element is an instance off that
    chain that has no parent, or the receiver as parent already. *)
Lemma register_children_returns depth a n anc : forall bs st,
  is_Container (kind (objs st a)) = true ->
  container_chain n st a = Some anc ->
  n < depth ->
  (forall b, b ∈ bs ->
     (b ∉ a :: anc)
     /\ (parent (objs st b) = RNone \/ parent (objs st b) = RObj a)) ->
  snd (register_children depth a (map VObj bs) st) = Ok tt.
Proof.
  induction bs as [|b bs IH]; intros st Ha Hc Hd Hbs; [done|].
  cbn [map register_children]. unfold bind.
  destruct (Hbs b) as [Hoff Hpar]; [apply list_elem_of_here|].
  assert (Hrest : forall st1,
    (forall y, kind (objs st1 y) = kind (objs st y)) ->
    container_chain n st1 a = Some anc ->
    (forall y, y <> b -> parent (objs st1 y) = parent (objs st y)) ->
    parent (objs st1 b) = RObj a ->
    snd (register_children depth a (map VObj bs) st1) = Ok tt).
  { intros st1 K1 C1 P1 Pb. apply IH; try done; [by rewrite K1|].
    intros y Hy. destruct (Hbs y) as [Hoffy Hpary]; [by apply list_elem_of_further|].
    split; [done|]. destruct (decide (y = b)) as [->|Hne]; [by right|].
    by rewrite (P1 y Hne). }
  unfold register_child. destruct Hpar as [Hp|Hp].
  - assert (E : ref_is_Container st (parent (objs st b)) = false) by by rewrite Hp.
    rewrite E, (parent_setter_unset _ _ _ _ Hp) by done. cbn zeta. rewrite Ha.
    set (linked := upd_obj a (append_child b) (upd_obj b (with_parent (RObj a)) st)).
    assert (Hne : forall y, y ∈ a :: anc -> y <> b) by (intros y Hy ->; done).
    assert (Hcl : container_chain n linked a = Some anc).
    { apply (container_chain_agree n st); [done|]. intros y Hy.
      apply Container_parent_attach. by apply Hne. }
    rewrite (set_modified_true_chain n depth linked a anc Hcl Hd).
    pose proof (mark_modified_links_same (a :: anc) linked) as L.
    assert (Pl : forall y, y <> b -> parent (objs linked y) = parent (objs st y)).
    { intros y Hy. subst linked. rewrite objs_upd_obj.
      destruct (decide (a = y)) as [->|]; rewrite objs_upd_obj_ne by done; done. }
    assert (Pbl : parent (objs linked b) = RObj a).
    { subst linked. rewrite objs_upd_obj.
      destruct (decide (a = b)) as [->|]; rewrite objs_upd_obj_eq; by destruct (objs st b). }
    assert (Kl : forall y, kind (objs linked y) = kind (objs st y)).
    { intros y. subst linked. rewrite objs_upd_obj. destruct (decide (a = y)) as [->|];
        rewrite objs_upd_obj; destruct (decide (b = y)) as [->|]; try done;
        by destruct (objs st y). }
    destruct L as [L _]. apply Hrest.
    + intros y. destruct (L y) as (-> & _). apply Kl.
    + apply (container_chain_agree n linked); [done|]. intros y Hy.
      apply Container_parent_links, mark_modified_links_same.
    + intros y Hy. destruct (L y) as (_ & -> & _). by apply Pl.
    + destruct (L b) as (_ & -> & _). done.
  - assert (E : ref_is_Container st (parent (objs st b)) = true)
      by (rewrite Hp; exact Ha).
    rewrite E. by apply Hrest.
Qed.

(** A child field that is settable and carries no [required_name], not
    yet set on a container [a]: assigning a list of such instances
    returns. *)
Lemma child_setter_returns field s depth a bs st n anc :
  Container_setter field = Ok (Some s) ->
  (exists v, dict_get "child" field = Some v /\ truthy v = true) ->
  dict_get "required_name" field = None ->
  dict_get "settable" field = None ->
  field_values (objs st a) !! field_name field = None ->
  is_Container (kind (objs st a)) = true ->
  container_chain n st a = Some anc ->
  n < depth ->
  (forall b, b ∈ bs ->
     (b ∉ a :: anc)
     /\ (parent (objs st b) = RNone \/ parent (objs st b) = RObj a)) ->
  outcome_of (s depth a (VList (map VObj bs))) st = Ok tt.
Proof.
  intros Hs (v & Hc & Hv) Hr Hset Hf Ha Hch Hd Hbs.
  unfold Container_setter in Hs. destruct (find _ _); [done|].
  rewrite Hc, Hv in Hs. injection Hs as <-.
  unfold outcome_of, child_setter, bind, named_setter, AbstractContainer_setter.
  rewrite Hr, Hset. cbn [call_setter setter]. rewrite Hf.
  set (st1 := upd_obj a _ st).
  assert (L : links_same st st1) by by apply links_same_upd.
  cbn [child_values]. apply (register_children_returns depth a n anc).
  - destruct L as [L _]. destruct (L a) as (-> & _). done.
  - apply (container_chain_agree n st); [done|]. intros y _.
    by apply Container_parent_links.
  - done.
  - intros b Hb. destruct (Hbs b Hb) as [Hoff Hp]. split; [done|].
    destruct L as [L _]. destruct (L b) as (_ & -> & _). done.
Qed.

(** * Further properties of the module *)

(** ** What every operation preserves in each instance *)

Section Preservation.

Variable r : Obj -> Obj -> Prop.
Hypothesis r_refl : forall o, r o o.
Hypothesis r_trans : forall o1 o2 o3, r o1 o2 -> r o2 o3 -> r o1 o3.
Hypothesis r_flag : forall o, r o (with_modified true o).
Hypothesis r_parent : forall o P, r o (with_parent P o).
Hypothesis r_child : forall o c, r o (append_child c o).

Lemma pointwise_refl st : pointwise r st st.
Proof. intros y. apply r_refl. Qed.

Lemma pointwise_trans st1 st2 st3 :
  pointwise r st1 st2 -> pointwise r st2 st3 -> pointwise r st1 st3.
Proof. intros H1 H2 y. eapply r_trans; [apply H1|apply H2]. Qed.

Lemma pointwise_upd x f st :
  (forall o, r o (f o)) -> pointwise r st (upd_obj x f st).
Proof.
  intros Hf y. rewrite objs_upd_obj. destruct (decide (x = y)) as [->|]; [apply Hf|].
  apply r_refl.
Qed.

Lemma pointwise_proxy q f st : pointwise r st (upd_proxy q f st).
Proof. intros y. apply r_refl. Qed.

Lemma set_modified_pointwise depth : forall self m st,
  (forall o, r o (with_modified m o)) ->
  pointwise r st (fst (set_modified depth self m st)).
Proof.
  induction depth as [|depth IH]; intros self m st Hm; [apply pointwise_refl|].
  rewrite set_modified_S. cbn zeta.
  assert (H1 : pointwise r st (upd_obj self (with_modified m) st))
    by by apply pointwise_upd.
  destruct m; [|exact H1].
  destruct (Container_parent st self) as [p|]; [|exact H1].
  eapply pointwise_trans; [exact H1|]. by apply IH.
Qed.

Lemma attach_pointwise depth self p st :
  pointwise r st
    (fst (set_modified depth p true
            (upd_obj p (append_child self)
               (upd_obj self (with_parent (RObj p)) st)))).
Proof.
  eapply pointwise_trans; [|by apply set_modified_pointwise].
  eapply pointwise_trans; apply pointwise_upd; intros o; [apply r_parent|apply r_child].
Qed.

Lemma parent_setter_pointwise depth self P st :
  pointwise r st (fst (parent_setter depth self P st)).
Proof.
  unfold parent_setter. destruct (ref_is _ _); [apply pointwise_refl|].
  destruct (parent (objs st self)) as [|p0|q].
  - destruct (ref_is_Container _ _); [|by apply pointwise_upd].
    destruct P as [|p|q']; try by apply pointwise_upd. apply attach_pointwise.
  - apply pointwise_refl.
  - destruct P as [|p|q']; [apply pointwise_refl| |].
    + destruct (matches _ _); [apply attach_pointwise|apply pointwise_proxy].
    + destruct (matches _ _); [by apply pointwise_upd|apply pointwise_proxy].
Qed.

Lemma add_child_pointwise depth self child st :
  pointwise r st (fst (add_child depth self child st)).
Proof.
  unfold add_child. destruct child as [c|]; [|apply pointwise_refl].
  destruct (parent (objs st c)); try apply parent_setter_pointwise.
  apply pointwise_refl.
Qed.

Lemma register_children_pointwise depth a : forall vals st,
  pointwise r st (fst (register_children depth a vals st)).
Proof.
  induction vals as [|v vals IH]; intros st; [apply pointwise_refl|].
  cbn [register_children]. unfold bind.
  assert (H1 : pointwise r st (fst (register_child depth a v st))).
  { unfold register_child. destruct v; try apply pointwise_refl.
    destruct (ref_is_Container _ _); [apply pointwise_refl|].
    apply parent_setter_pointwise. }
  destruct (register_child depth a v st) as [s1 [u|e]]; cbn [fst] in *; [|done].
  eapply pointwise_trans; [exact H1|apply IH].
Qed.

Hypothesis r_fields : forall o f, r o (with_field_values f o).

Lemma call_abstract_pointwise field depth self val st :
  pointwise r st
    (fst (call_setter (AbstractContainer_setter field) depth self val st)).
Proof.
  unfold AbstractContainer_setter.
  destruct (match dict_get "settable" field with
            | Some v => truthy v | None => true end); cbn [call_setter];
    [|apply pointwise_refl].
  unfold setter. destruct val; try apply pointwise_refl;
    (destruct (field_values (objs st self) !! field_name field);
     [apply pointwise_refl | by apply pointwise_upd]).
Qed.

Lemma required_name_pointwise field required depth self val st :
  pointwise r st
    (fst (required_name_setter field required (AbstractContainer_setter field)
            depth self val st)).
Proof.
  unfold required_name_setter.
  destruct val; try apply pointwise_refl; try apply call_abstract_pointwise.
  destruct (name_differs _ _); [apply pointwise_refl|apply call_abstract_pointwise].
Qed.

Lemma call_named_pointwise field depth self val st :
  pointwise r st (fst (call_setter (named_setter field) depth self val st)).
Proof.
  unfold named_setter.
  destruct (dict_get "required_name" field) as [req|];
    [|apply call_abstract_pointwise].
  destruct req; try apply call_abstract_pointwise; apply required_name_pointwise.
Qed.

Hypothesis r_source : forall o s, r o (with_container_source s o).
Hypothesis r_data : forall o d, r o (with_data d o).

(** Every call relates the old and the new form of every instance by
    [r], once [r] admits the updates the call may make; lowering a flag
    is only asked of a call that does so. *)
Lemma exec_pointwise depth c st :
  (forall self, c = Call_set_modified self false ->
     forall o, r o (with_modified false o)) ->
  pointwise r st (fst (exec depth c st)).
Proof.
  intros Hlow.
  destruct c as [self m|self p|self child|self source|cc field self val
                |self arg|self arg|self]; cbn [exec].
  - apply set_modified_pointwise. destruct m; [apply r_flag|by apply (Hlow self)].
  - apply parent_setter_pointwise.
  - apply add_child_pointwise.
  - unfold container_source_setter.
    destruct (container_source _); try apply pointwise_refl.
    by apply pointwise_upd.
  - unfold class_setter. destruct cc.
    + unfold Container_setter. destruct (find _ _); [apply pointwise_refl|].
      assert (Hc : pointwise r st
        (fst (child_setter (named_setter field) depth self val st))).
      { unfold child_setter, bind.
        pose proof (call_named_pointwise field depth self val st) as H1.
        destruct (call_setter (named_setter field) depth self val st)
          as [s1 [u|e]]; cbn [fst] in *; [|done].
        eapply pointwise_trans; [exact H1|].
        destruct val; try apply register_children_pointwise. apply pointwise_refl. }
      destruct (dict_get "child" field) as [v|];
        [destruct (truthy v)|]; rewrite assign_field_state; cbn [call_setter];
        try done; apply call_named_pointwise.
    + rewrite assign_field_state. apply call_abstract_pointwise.
  - unfold Data_append, set_data.
    destruct (data _) as [[l|l|l|ty l]|]; try apply pointwise_refl;
      by apply pointwise_upd.
  - unfold Data_extend, set_data.
    destruct (data _) as [[l|l|l|ty l]|]; try apply pointwise_refl;
      try (by apply pointwise_upd).
    destruct arg, l; try apply pointwise_refl; by apply pointwise_upd.
  - unfold Data_set_dataio, set_data.
    destruct (data _); [by apply pointwise_upd|apply pointwise_refl].
Qed.

End Preservation.

Lemma same_identity_refl o : same_identity o o.
Proof. done. Qed.

Lemma same_identity_trans o1 o2 o3 :
  same_identity o1 o2 -> same_identity o2 o3 -> same_identity o1 o3.
Proof.
  intros (K1 & D1 & N1) (K2 & D2 & N2). repeat split; congruence.
Qed.

(** X4: no operation on existing instances changes the class, the type
    tag or the name of any instance; construction only writes those of
    the instance it creates. *)
Theorem identity_is_immutable depth c st y :
  same_identity (objs st y) (objs (state_after (exec depth c) st) y)
  /\ forall k dt nm source kw_parent,
       y <> next st ->
       same_identity (objs st y)
         (objs (state_after (new_Container depth k dt nm source kw_parent) st) y).
Proof.
  assert (P : forall d x Q s, pointwise same_identity s (fst (parent_setter d x Q s))).
  { intros d x Q s. apply parent_setter_pointwise; try done.
    apply same_identity_trans. }
  split.
  - apply (exec_pointwise same_identity); try done. apply same_identity_trans.
  - intros k dt nm source kw_parent Hy.
    unfold state_after, new_Container, bind, AbstractContainer_new.
    set (st1 := mkState _ _ _).
    assert (H1 : objs st1 y = objs st y).
    { subst st1. cbn [objs]. by rewrite fn_lookup_insert_ne. }
    pose proof (P depth (next st) kw_parent st1 y) as H2. rewrite H1 in H2.
    destruct (parent_setter depth (next st) kw_parent st1) as [st2 [u|e]];
      cbn [fst] in *; [|done].
    unfold AbstractContainer_init. destruct (contains_slash nm); cbn [fst ret];
      [done|].
    by rewrite objs_upd_obj_ne.
Qed.

Lemma flag_kept_trans o1 o2 o3 :
  flag_kept o1 o2 -> flag_kept o2 o3 -> flag_kept o1 o3.
Proof. intros H1 H2 H. by apply H2, H1. Qed.

(** X3: the only operation that lowers a dirty flag is
    [set_modified(False)], and it lowers that of its receiver alone:
    after any other call every flag that was up is still up, and after
    [set_modified(False)] every other instance is as before. *)
Theorem flags_lowered_only_by_set_modified depth c st :
  (forall self, c <> Call_set_modified self false) ->
  flags_mono st (state_after (exec depth c) st)
  /\ forall self y, y <> self ->
       objs (state_after (exec depth (Call_set_modified self false)) st) y
       = objs st y.
Proof.
  intros Hc. split.
  - intros y.
    apply (exec_pointwise flag_kept (fun o H => H) flag_kept_trans);
      try (by intros o; intros; unfold flag_kept).
    intros self E. by destruct (Hc self).
  - intros self y Hy. unfold state_after. cbn [exec].
    destruct depth as [|depth]; [done|]. rewrite set_modified_false. cbn [fst].
    by apply objs_upd_obj_ne.
Qed.

Lemma flags_lowered_only_by_set_modified_witness :
  modified (objs (state_after (set_modified 8 2 true) chain_store) 1) = true
  /\ modified
       (objs (state_after (exec 8 (Call_field true items_field 1 (VObj 2)))
                (state_after (set_modified 8 2 true) chain_store)) 1) = true.
Proof.
  split; [reflexivity|].
  destruct (flags_lowered_only_by_set_modified 8
              (Call_field true items_field 1 (VObj 2))
              (state_after (set_modified 8 2 true) chain_store)) as [H _];
    [discriminate|].
  apply H. reflexivity.
Defined.

Lemma same_payload_refl o : same_payload o o.
Proof. done. Qed.

Lemma same_payload_trans o1 o2 o3 :
  same_payload o1 o2 -> same_payload o2 o3 -> same_payload o1 o3.
Proof.
  intros (F1 & D1 & S1) (F2 & D2 & S2). repeat split; congruence.
Qed.

(** X5: the tree operations (assigning a parent, [add_child],
    [set_modified]) never touch the stored fields, the data or the source
    of any instance, whatever their outcome. *)
Theorem tree_operations_keep_payload depth st y :
  (forall self m,
     same_payload (objs st y) (objs (state_after (set_modified depth self m) st) y))
  /\ (forall self P,
        same_payload (objs st y)
          (objs (state_after (parent_setter depth self P) st) y))
  /\ (forall self child,
        same_payload (objs st y)
          (objs (state_after (add_child depth self child) st) y)).
Proof.
  split; [|split].
  - intros self m.
    by apply (set_modified_pointwise same_payload same_payload_refl
                same_payload_trans).
  - intros self P.
    by apply (parent_setter_pointwise same_payload same_payload_refl
                same_payload_trans).
  - intros self child.
    by apply (add_child_pointwise same_payload same_payload_refl
                same_payload_trans).
Qed.

(** ** The consistency of the tree *)

Lemma tree_ok_links_same st st' : links_same st st' -> tree_ok st -> tree_ok st'.
Proof.
  intros [L _] (T1 & T2 & T3). repeat split.
  - intros y c Hc. destruct (L y) as (_ & _ & Ey), (L c) as (_ & Ec & _).
    rewrite Ey in Hc. rewrite Ec. by apply T1.
  - intros c y Hp Hk. destruct (L y) as (Ky & _ & Ey), (L c) as (_ & Ec & _).
    rewrite Ey. apply T2; congruence.
  - intros y. destruct (L y) as (_ & _ & ->). apply T3.
Qed.

Lemma ref_is_Container_link x Q st P :
  ref_is_Container (upd_obj x (with_parent Q) st) P = ref_is_Container st P.
Proof.
  destruct P as [|p|q]; try done. cbn [ref_is_Container]. rewrite objs_upd_obj.
  destruct (decide (x = p)) as [->|]; [|done]. by destruct (objs st p).
Qed.

(** Giving an instance without instance parent a parent that is no
    [Container]. *)
Lemma tree_ok_link st x P :
  (forall p, parent (objs st x) <> RObj p) ->
  ref_is_Container st P = false ->
  tree_ok st -> tree_ok (upd_obj x (with_parent P) st).
Proof.
  intros Hx HP (T1 & T2 & T3).
  assert (Hch : forall y,
    children (objs (upd_obj x (with_parent P) st) y) = children (objs st y)).
  { intros y. rewrite objs_upd_obj. destruct (decide (x = y)) as [->|]; [|done].
    by destruct (objs st y). }
  assert (Hk : forall y,
    kind (objs (upd_obj x (with_parent P) st) y) = kind (objs st y)).
  { intros y. rewrite objs_upd_obj. destruct (decide (x = y)) as [->|]; [|done].
    by destruct (objs st y). }
  repeat split.
  - intros y c Hc. rewrite Hch in Hc. rewrite objs_upd_obj_ne; [by apply T1|].
    intros ->. by apply (Hx y), T1.
  - intros c y Hp Hy. rewrite Hch. rewrite Hk in Hy.
    rewrite objs_upd_obj in Hp. destruct (decide (x = c)) as [->|]; [|by apply T2].
    assert (E : P = RObj y) by (by destruct (objs st c)). subst P.
    cbn [ref_is_Container] in HP. congruence.
  - intros y. rewrite Hch. apply T3.
Qed.

(** Giving it an instance as parent and registering it there. *)
Lemma tree_ok_attach st x p :
  (forall p', parent (objs st x) <> RObj p') ->
  tree_ok st ->
  tree_ok (upd_obj p (append_child x) (upd_obj x (with_parent (RObj p)) st)).
Proof.
  intros Hx (T1 & T2 & T3).
  set (linked := upd_obj p (append_child x) (upd_obj x (with_parent (RObj p)) st)).
  assert (Hnot : forall y, x ∉ children (objs st y)).
  { intros y Hin. by apply (Hx y), T1. }
  assert (Hpar : forall y, y <> x -> parent (objs linked y) = parent (objs st y)).
  { intros y Hy. subst linked. rewrite objs_upd_obj.
    destruct (decide (p = y)) as [->|]; rewrite objs_upd_obj_ne by done; done. }
  assert (Hparx : parent (objs linked x) = RObj p).
  { subst linked. rewrite objs_upd_obj.
    destruct (decide (p = x)) as [->|]; rewrite objs_upd_obj_eq; by destruct (objs st x). }
  assert (Hch : forall y,
    children (objs linked y)
    = children (objs st y) ++ (if decide (p = y) then [x] else [])).
  { intros y. subst linked. rewrite objs_upd_obj. destruct (decide (p = y)) as [->|].
    - rewrite objs_upd_obj. destruct (decide (x = y)) as [->|]; [|done].
      by destruct (objs st y).
    - rewrite app_nil_r, objs_upd_obj. destruct (decide (x = y)) as [->|]; [|done].
      by destruct (objs st y). }
  assert (Hk : forall y, kind (objs linked y) = kind (objs st y)).
  { intros y. subst linked. rewrite objs_upd_obj. destruct (decide (p = y)) as [->|];
      rewrite objs_upd_obj; destruct (decide (x = y)) as [->|]; try done;
      by destruct (objs st y). }
  repeat split.
  - intros y c Hc. rewrite Hch in Hc. apply elem_of_app in Hc as [Hc|Hc].
    + rewrite Hpar; [by apply T1|]. intros ->. by apply (Hnot y).
    + destruct (decide (p = y)) as [->|]; [|by apply elem_of_nil in Hc].
      by apply list_elem_of_singleton in Hc as ->.
  - intros c y Hp Hy. rewrite Hk in Hy. rewrite Hch. apply elem_of_app.
    destruct (decide (c = x)) as [->|Hne].
    + right. rewrite Hparx in Hp. injection Hp as ->.
      destruct (decide (y = y)); [|done]. by apply list_elem_of_singleton.
    + left. rewrite Hpar in Hp by done. by apply T2.
  - intros y. rewrite Hch. apply list.NoDup_app. split; [apply T3|]. split.
    + intros c Hc Hc'. destruct (decide (p = y)); [|by apply elem_of_nil in Hc'].
      apply list_elem_of_singleton in Hc' as ->. by apply (Hnot y).
    + destruct (decide (p = y)); [apply NoDup_singleton|apply NoDup_nil_2].
Qed.

(** The parent setter keeps the tree consistent, whatever its outcome. *)
Lemma parent_setter_tree_ok depth self P st :
  tree_ok st -> tree_ok (fst (parent_setter depth self P st)).
Proof.
  intros T. unfold parent_setter. destruct (ref_is _ _); [done|].
  destruct (parent (objs st self)) as [|p0|q] eqn:Hp.
  - assert (Hx : forall p', parent (objs st self) <> RObj p') by (by rewrite Hp).
    rewrite ref_is_Container_link.
    destruct (ref_is_Container st P) eqn:HP; [|by apply tree_ok_link].
    destruct P as [|p|q']; try done.
    eapply tree_ok_links_same; [apply set_modified_links_same|].
    by apply tree_ok_attach.
  - done.
  - assert (Hx : forall p', parent (objs st self) <> RObj p') by (by rewrite Hp).
    destruct P as [|p|q']; [done| |].
    + destruct (matches _ _); [|done].
      eapply tree_ok_links_same; [apply set_modified_links_same|].
      by apply tree_ok_attach.
    + destruct (matches _ _); [by apply tree_ok_link|done].
Qed.

Lemma register_children_tree_ok depth a : forall vals st,
  tree_ok st -> tree_ok (fst (register_children depth a vals st)).
Proof.
  induction vals as [|v vals IH]; intros st T; [done|].
  cbn [register_children]. unfold bind.
  assert (H1 : tree_ok (fst (register_child depth a v st))).
  { unfold register_child. destruct v; try done.
    destruct (ref_is_Container _ _); [done|]. by apply parent_setter_tree_ok. }
  destruct (register_child depth a v st) as [s1 [u|e]]; cbn [fst] in *; [|done].
  by apply IH.
Qed.

(** X1: every operation on existing instances keeps the tree consistent,
    whatever its outcome: children lists and parent links agree and no
    child is listed twice. *)
Theorem exec_keeps_tree_ok depth c st :
  tree_ok st -> tree_ok (state_after (exec depth c) st).
Proof.
  intros T. unfold state_after.
  destruct (assigns_parent c) eqn:Hc;
    [|by apply (tree_ok_links_same st); [apply exec_links_same|]].
  destruct c as [self m|self p|self child|self source|cc field self val
                |self arg|self arg|self]; cbn [assigns_parent exec] in *;
    try done.
  - by apply parent_setter_tree_ok.
  - unfold add_child. destruct child as [c|]; [|done].
    destruct (parent (objs st c)); try by apply parent_setter_tree_ok. done.
  - apply andb_prop in Hc as [-> Hc]. unfold class_setter, Container_setter.
    destruct (find _ _); [done|].
    destruct (dict_get "child" field) as [v|]; [|done]. rewrite Hc.
    rewrite assign_field_state. cbn [call_setter]. unfold child_setter, bind.
    pose proof (call_named_links field depth self val st) as H1.
    destruct (call_setter (named_setter field) depth self val st) as [s1 [u|e]];
      cbn [fst] in *; [|by apply (tree_ok_links_same st)].
    assert (T1 : tree_ok s1) by by apply (tree_ok_links_same st).
    destruct val; try by apply register_children_tree_ok. done.
Qed.

(** The chain of three containers is a consistent tree. *)
Lemma chain_store_tree_ok : tree_ok chain_store.
Proof.
  assert (C0 : children (objs chain_store 0) = [1]) by reflexivity.
  assert (C1 : children (objs chain_store 1) = [2]) by reflexivity.
  assert (C2 : forall y, children (objs chain_store (S (S y))) = [])
    by (intros [|y]; reflexivity).
  assert (P0 : parent (objs chain_store 0) = RNone) by reflexivity.
  assert (P1 : parent (objs chain_store 1) = RObj 0) by reflexivity.
  assert (P2 : parent (objs chain_store 2) = RObj 1) by reflexivity.
  assert (P3 : forall c, parent (objs chain_store (S (S (S c)))) = RNone)
    by (intros c; reflexivity).
  repeat split.
  - intros [|[|y]] c Hc.
    + rewrite C0 in Hc. by apply list_elem_of_singleton in Hc as ->.
    + rewrite C1 in Hc. by apply list_elem_of_singleton in Hc as ->.
    + rewrite C2 in Hc. by apply elem_of_nil in Hc.
  - intros [|[|[|c]]] y Hp _.
    + by rewrite P0 in Hp.
    + rewrite P1 in Hp. injection Hp as <-. rewrite C0. apply list_elem_of_here.
    + rewrite P2 in Hp. injection Hp as <-. rewrite C1. apply list_elem_of_here.
    + by rewrite P3 in Hp.
  - intros [|[|y]].
    + rewrite C0. apply NoDup_singleton.
    + rewrite C1. apply NoDup_singleton.
    + rewrite C2. apply NoDup_nil_2.
Qed.

Lemma exec_keeps_tree_ok_witness :
  tree_ok chain_store
  /\ tree_ok (state_after (exec 8 (Call_field true items_field 2 (VList [VObj 3; VObj 4])))
               chain_store).
Proof.
  split; [exact chain_store_tree_ok|].
  exact (exec_keeps_tree_ok 8 (Call_field true items_field 2 (VList [VObj 3; VObj 4]))
           chain_store chain_store_tree_ok).
Defined.

Lemma tree_ok_fresh st x o :
  parent o = RNone -> children o = [] ->
  tree_ok st -> unused st x ->
  tree_ok (mkState (<[x := o]> (objs st)) (proxies st) (S (next st))).
Proof.
  intros Hp Hc (T1 & T2 & T3) [U1 U2]. repeat split; cbn [objs].
  - intros y c Hin. destruct (decide (x = y)) as [->|Hy].
    + rewrite fn_lookup_insert, Hc in Hin. by apply elem_of_nil in Hin.
    + rewrite fn_lookup_insert_ne in Hin by done.
      destruct (decide (x = c)) as [->|Hxc]; [by destruct (U1 y)|].
      rewrite fn_lookup_insert_ne by done. by apply T1.
  - intros c y Hpar Hk. destruct (decide (x = c)) as [->|Hxc].
    + by rewrite fn_lookup_insert, Hp in Hpar.
    + rewrite fn_lookup_insert_ne in Hpar by done.
      destruct (decide (x = y)) as [->|Hy]; [by destruct (U2 c)|].
      rewrite fn_lookup_insert_ne in Hk |- * by done. by apply T2.
  - intros y. destruct (decide (x = y)) as [->|Hy].
    + rewrite fn_lookup_insert, Hc. apply NoDup_nil_2.
    + rewrite fn_lookup_insert_ne by done. apply T3.
Qed.

(** X2: construction keeps the tree consistent when the identity the
    new instance receives is not referred to yet, whatever the [parent]
    keyword and whether or not [__init__] accepts the name. *)
Theorem construction_keeps_tree_ok depth k dt nm d source kw_parent st :
  tree_ok st -> unused st (next st) ->
  tree_ok (state_after (new_Container depth k dt nm source kw_parent) st)
  /\ tree_ok (state_after (new_Data depth dt nm d source kw_parent) st).
Proof.
  intros T U.
  assert (H : forall k' (init : oid -> M unit),
    (forall self s, links_same s (fst (init self s))) ->
    tree_ok (state_after
               (inst <- AbstractContainer_new depth k' dt source kw_parent ;;
                init inst ;;; ret inst) st)).
  { intros k' init Hinit. unfold state_after, bind, AbstractContainer_new.
    set (st1 := mkState _ _ _).
    assert (T1 : tree_ok st1) by by apply tree_ok_fresh.
    pose proof (parent_setter_tree_ok depth (next st) kw_parent st1 T1) as T2.
    destruct (parent_setter depth (next st) kw_parent st1) as [st2 [u|e]];
      cbn [fst] in *; [|done].
    pose proof (Hinit (next st) st2) as L.
    destruct (init (next st) st2) as [st3 [u'|e]]; cbn [fst ret] in *;
      by apply (tree_ok_links_same st2). }
  assert (Li : forall self s,
    links_same s (fst (AbstractContainer_init self nm s))).
  { intros self s. unfold AbstractContainer_init.
    destruct (contains_slash nm); [apply links_same_refl|].
    by apply links_same_upd. }
  split.
  - apply (H k (fun inst => AbstractContainer_init inst nm)). exact Li.
  - apply (H KData (fun inst => Data_init inst nm d)).
    intros self s. unfold Data_init, bind. pose proof (Li self s) as L.
    destruct (AbstractContainer_init self nm s) as [s1 [u|e]]; cbn [fst] in *;
      [|done].
    eapply links_same_trans; [exact L|]. by apply links_same_upd.
Qed.

Lemma chain_store_next_unused : unused chain_store (next chain_store).
Proof.
  split.
  - intros [|[|[|y]]] Hin; vm_compute in Hin;
      repeat (apply elem_of_cons in Hin as [Hin|Hin]; [discriminate|]);
      by apply elem_of_nil in Hin.
  - intros [|[|[|c]]]; discriminate.
Qed.

Lemma construction_keeps_tree_ok_witness :
  tree_ok chain_store
  /\ unused chain_store (next chain_store)
  /\ tree_ok (state_after
                (new_Container 8 KContainer None "c" VNone (RObj 2)) chain_store).
Proof.
  split; [exact chain_store_tree_ok|]. split; [exact chain_store_next_unused|].
  exact (proj1 (construction_keeps_tree_ok 8 KContainer None "c" (BList []) VNone
                  (RObj 2) chain_store chain_store_tree_ok
                  chain_store_next_unused)).
Defined.

(** ** Cycles *)

Lemma climbs_snoc st a y p :
  climbs st a y -> Container_parent st y = Some p -> climbs st a p.
Proof.
  induction 1 as [x|x q y Hq Hc IH]; intros Hp.
  - by eapply climbs_up; [|apply climbs_here].
  - eapply climbs_up; [exact Hq|]. by apply IH.
Qed.

(** Where the walk up the [Container] parents never ends,
    [set_modified(True)] uses up any depth. *)
Lemma set_modified_endless depth : forall st x C,
  endless st C -> C x ->
  snd (set_modified depth x true st) = Raise RecursionLimit.
Proof.
  induction depth as [|depth IH]; intros st x C HC Hx; [done|].
  rewrite set_modified_S. cbn zeta.
  destruct (HC x Hx) as (p & Hp & Cp). rewrite Hp.
  apply (IH _ p C); [|done].
  intros y Cy. destruct (HC y Cy) as (p' & Hp' & Cp').
  exists p'. by rewrite Container_parent_upd_modified.
Qed.

(** X6: giving a parentless instance [b] one of its own descendants [a]
    (or itself) as parent closes a cycle: the assignment raises
    [RecursionError] whatever the recursion limit, yet the parent link
    and the entry in the children of [a] are in place afterwards. *)
Theorem cyclic_parent_raises depth st a b :
  parent (objs st b) = RNone ->
  is_Container (kind (objs st a)) = true ->
  climbs st a b ->
  let st' := state_after (parent_setter depth b (RObj a)) st in
  outcome_of (parent_setter depth b (RObj a)) st = Raise RecursionLimit
  /\ py_class RecursionLimit = RecursionError
  /\ parent (objs st' b) = RObj a
  /\ b ∈ children (objs st' a).
Proof.
  intros Hb Ha Hab st'. subst st'. unfold state_after, outcome_of.
  rewrite (parent_setter_unset _ _ _ _ Hb) by done. cbn zeta. rewrite Ha.
  set (linked := upd_obj a (append_child b) (upd_obj b (with_parent (RObj a)) st)).
  assert (Hpb : parent (objs linked b) = RObj a).
  { subst linked. rewrite objs_upd_obj.
    destruct (decide (a = b)) as [->|]; rewrite objs_upd_obj_eq; by destruct (objs st b). }
  assert (Hka : kind (objs linked a) = kind (objs st a)).
  { subst linked. rewrite objs_upd_obj_eq, objs_upd_obj.
    destruct (decide (b = a)) as [->|]; by destruct (objs st a). }
  split; [|split; [done|split]].
  - apply (set_modified_endless depth linked a
             (fun y => climbs st a y /\ climbs st y b)).
    + intros y [Hay Hyb]. destruct (decide (y = b)) as [->|Hne].
      * exists a. split; [|split; [apply climbs_here|done]].
        unfold Container_parent. by rewrite Hpb, Hka, Ha.
      * inversion Hyb as [|? p ? Hp Hpb' ]; subst; [done|].
        exists p. split; [|split; [by eapply climbs_snoc|done]].
        subst linked. by rewrite Container_parent_attach.
    + split; [apply climbs_here|done].
  - by rewrite (unflag_parent _ _ (set_modified_unflag _ _ _ _ _)).
  - rewrite (unflag_children _ _ (set_modified_unflag _ _ _ _ _)). subst linked.
    rewrite objs_upd_obj_eq. apply elem_of_app. right.
    by apply list_elem_of_singleton.
Qed.

Lemma cyclic_parent_raises_witness :
  parent (objs chain_store 0) = RNone
  /\ climbs chain_store 2 0
  /\ outcome_of (parent_setter 1000 0 (RObj 2)) chain_store = Raise RecursionLimit
  /\ parent (objs (state_after (parent_setter 1000 0 (RObj 2)) chain_store) 0)
     = RObj 2.
Proof.
  assert (Hc : climbs chain_store 2 0).
  { apply (climbs_up _ 2 1 0); [reflexivity|].
    apply (climbs_up _ 1 0 0); [reflexivity|]. apply climbs_here. }
  split; [reflexivity|]. split; [exact Hc|].
  destruct (cyclic_parent_raises 1000 chain_store 2 0 eq_refl eq_refl Hc)
    as (Ho & _ & Hp & _).
  split; [exact Ho | exact Hp].
Defined.

(** X7: on a cyclic chain of parents none of which carries the tag
    asked for, the loop of [get_ancestor] is still running after any
    number of turns. *)
Theorem get_ancestor_never_answers_on_cycle st (C : oid -> Prop) dt x :
  (forall y, C y ->
     tagged_other st dt y /\ exists p, parent (objs st y) = RObj p /\ C p) ->
  (exists p, parent (objs st x) = RObj p /\ C p) ->
  forall steps, get_ancestor steps st x (Some dt) = None.
Proof.
  intros HC (p & Hp & Cp) steps. cbn [get_ancestor]. rewrite Hp.
  clear x Hp. revert p Cp.
  induction steps as [|steps IH]; intros p Cp;
    destruct (HC p Cp) as ((t & Ht & Hne) & p' & Hp' & Cp');
    cbn [get_ancestor_loop]; rewrite Ht;
    apply String.eqb_neq in Hne; rewrite Hne; [done|].
  rewrite Hp'. by apply IH.
Qed.

Lemma get_ancestor_never_answers_on_cycle_witness :
  parent (objs cyclic_store 0) = RObj 1
  /\ parent (objs cyclic_store 1) = RObj 0
  /\ forall steps, get_ancestor steps cyclic_store 0 (Some "File") = None.
Proof.
  split; [reflexivity|]. split; [reflexivity|].
  apply (get_ancestor_never_answers_on_cycle cyclic_store
           (fun y => y = 0 \/ y = 1) "File" 0).
  - intros y [-> | ->].
    + split; [exists "Group"; split; [reflexivity|discriminate]|].
      exists 1. split; [reflexivity|by right].
    + split; [exists "Group"; split; [reflexivity|discriminate]|].
      exists 0. split; [reflexivity|by left].
  - exists 1. split; [reflexivity|by right].
Defined.

(** ** The source of a container and [add_child] *)

(** X8: [container_source] can be given once: after a value other than
    [None] has been assigned, every further assignment raises and leaves
    the source as it is; assigning [None] to an unset source leaves it
    unset, so that it can still be given. *)
Theorem container_source_write_once st x v w :
  v <> VNone ->
  container_source (objs st x) = VNone ->
  let st1 := state_after (container_source_setter x v) st in
  let st0 := state_after (container_source_setter x VNone) st in
  outcome_of (container_source_setter x v) st = Ok tt
  /\ container_source (objs st1 x) = v
  /\ container_source_setter x w st1 = (st1, Raise ReassignContainerSource)
  /\ outcome_of (container_source_setter x VNone) st = Ok tt
  /\ container_source (objs st0 x) = VNone
  /\ outcome_of (container_source_setter x v) st0 = Ok tt.
Proof.
  intros Hv Hs st1 st0. subst st1 st0.
  unfold state_after, outcome_of, container_source_setter. rewrite Hs. cbn [fst snd].
  rewrite !objs_upd_obj_eq. cbn [with_container_source container_source].
  repeat split. by destruct v.
Qed.

Lemma container_source_write_once_witness :
  container_source (objs chain_store 0) = VNone
  /\ outcome_of (container_source_setter 0 (VStr "b.h5"))
       (state_after (container_source_setter 0 (VStr "a.h5")) chain_store)
     = Raise ReassignContainerSource.
Proof.
  split; [reflexivity|].
  destruct (container_source_write_once chain_store 0 (VStr "a.h5") (VStr "b.h5"))
    as (_ & _ & H & _); [discriminate|reflexivity|].
  unfold outcome_of. cbn zeta in H. rewrite H. reflexivity.
Defined.





(** ** Reading and growing a buffer *)

Lemma py_index_nonneg {A} (l : list A) i :
  (0 <= i)%Z -> py_index l i = l !! Z.to_nat i.
Proof.
  intros Hi. unfold py_index. cbn zeta.
  destruct (Z.leb_spec 0 i); [|lia]. destruct (Z.ltb_spec i (Z.of_nat (length l))).
  - done.
  - cbn [andb]. destruct (Z.ltb_spec i 0); [lia|]. rewrite andb_false_r.
    symmetry. apply lookup_ge_None. lia.
Qed.

Lemma py_index_neg {A} (l : list A) i :
  (i < 0)%Z ->
  py_index l i
  = if (- Z.of_nat (length l) <=? i)%Z
    then l !! Z.to_nat (Z.of_nat (length l) + i) else None.
Proof.
  intros Hi. unfold py_index. cbn zeta.
  destruct (Z.leb_spec 0 i); [lia|]. cbn [andb].
  destruct (Z.ltb_spec i 0); [|lia]. by rewrite andb_true_r.
Qed.

Lemma Data_getitem_int st self l i :
  data (objs st self) = Some (BList l) ->
  Data_getitem st self (VInt i)
  = Some (match py_index l i with Some v => Found v | None => IndexOutOfRange end).
Proof. intros Hd. unfold Data_getitem. by rewrite Hd. Qed.

Lemma Data_append_list st self l arg :
  data (objs st self) = Some (BList l) ->
  data (objs (state_after (Data_append self arg) st) self)
  = Some (BList (l ++ [arg])).
Proof.
  intros Hd. unfold state_after, Data_append, set_data. rewrite Hd. cbn [fst].
  by rewrite objs_upd_obj_eq.
Qed.

(** X10: on a buffer over a list, [append] and indexing round-trip: the
    length grows by one and the buffer is true; the new item is read at
    the old length and at [-1]; an item read at a non-negative index
    before is read there after, one read at a negative index [i] is read
    at [i - 1]; the index one past the new end is out of range. *)
Theorem list_buffer_append_roundtrip st self l arg :
  data (objs st self) = Some (BList l) ->
  let st' := state_after (Data_append self arg) st in
  Data_len st self = Some (length l)
  /\ Data_len st' self = Some (S (length l))
  /\ Data_bool st' self = Some true
  /\ Data_getitem st' self (VInt (Z.of_nat (length l))) = Some (Found arg)
  /\ Data_getitem st' self (VInt (-1)) = Some (Found arg)
  /\ (forall i v, (0 <= i)%Z ->
        Data_getitem st self (VInt i) = Some (Found v) ->
        Data_getitem st' self (VInt i) = Some (Found v))
  /\ (forall i v, (i < 0)%Z ->
        Data_getitem st self (VInt i) = Some (Found v) ->
        Data_getitem st' self (VInt (i - 1)) = Some (Found v))
  /\ Data_getitem st' self (VInt (Z.of_nat (S (length l)))) = Some IndexOutOfRange.
Proof.
  intros Hd st'. pose proof (Data_append_list st self l arg Hd) as Hd'.
  fold st' in Hd'.
  assert (Hlen : length (l ++ [arg]) = S (length l))
    by (rewrite length_app; simpl; lia).
  split; [unfold Data_len; by rewrite Hd|].
  split; [unfold Data_len; rewrite Hd'; cbn [backing_items]; by rewrite Hlen|].
  split; [unfold Data_bool, Data_len; rewrite Hd'; cbn [backing_items];
          by rewrite Hlen|].
  rewrite !(Data_getitem_int st' self _ _ Hd').
  split; [|split; [|split; [|split]]].
  - rewrite py_index_nonneg by lia. rewrite Nat2Z.id.
    by rewrite list_lookup_middle.
  - rewrite py_index_neg by lia. rewrite Hlen.
    destruct (Z.leb_spec (- Z.of_nat (S (length l))) (-1)); [|lia].
    replace (Z.to_nat (Z.of_nat (S (length l)) + -1)) with (length l) by lia.
    by rewrite list_lookup_middle.
  - intros i v Hi. rewrite (Data_getitem_int st self _ _ Hd).
    rewrite (Data_getitem_int st' self _ _ Hd'). rewrite !py_index_nonneg by lia.
    destruct (l !! Z.to_nat i) as [v'|] eqn:E; [|done]. intros [= ->].
    by rewrite (lookup_app_l_Some _ _ _ _ E).
  - intros i v Hi. rewrite (Data_getitem_int st self _ _ Hd).
    rewrite (Data_getitem_int st' self _ _ Hd'). rewrite !py_index_neg by lia.
    rewrite Hlen.
    destruct (Z.leb_spec (- Z.of_nat (length l)) i); [|done].
    destruct (Z.leb_spec (- Z.of_nat (S (length l))) (i - 1)); [|lia].
    replace (Z.to_nat (Z.of_nat (S (length l)) + (i - 1)))
      with (Z.to_nat (Z.of_nat (length l) + i)) by lia.
    destruct (l !! Z.to_nat (Z.of_nat (length l) + i)) as [v'|] eqn:E; [|done].
    intros [= ->]. by rewrite (lookup_app_l_Some _ _ _ _ E).
  - rewrite py_index_nonneg by lia. rewrite Nat2Z.id.
    rewrite (proj2 (lookup_ge_None (l ++ [arg]) (S (length l)))); [done|]. lia.
Qed.

Lemma list_buffer_append_roundtrip_witness :
  data (objs buffer_store 2) = Some (BList [VInt 1; VInt 2; VInt 3])
  /\ Data_len (state_after (Data_append 2 (VInt 4)) buffer_store) 2 = Some 4
  /\ Data_getitem (state_after (Data_append 2 (VInt 4)) buffer_store) 2 (VInt 3)
     = Some (Found (VInt 4)).
Proof.
  split; [reflexivity|].
  destruct (list_buffer_append_roundtrip buffer_store 2 [VInt 1; VInt 2; VInt 3]
              (VInt 4) eq_refl) as (_ & Hl & _ & Hg & _).
  split; [exact Hl | exact Hg].
Defined.

Lemma list_getitems_error l idx e :
  list_getitems l idx = inr e -> forall v, e <> Found v.
Proof.
  revert e. induction idx as [|i idx IH]; intros e H v; [done|].
  cbn [list_getitems] in H. destruct (list_getitem l i) as [w| |w] eqn:E.
  - destruct (list_getitems l idx) as [vs|e']; [done|].
    injection H as <-. by apply IH.
  - by injection H as <-.
  - by injection H as <-.
Qed.

Lemma list_getitems_spec l idx vs :
  list_getitems l idx = inl vs
  <-> Forall2 (fun i v => list_getitem l i = Found v) idx vs.
Proof.
  revert vs. induction idx as [|i idx IH]; intros vs; cbn [list_getitems].
  - split; [intros [= <-]; constructor|]. intros H. by inversion H.
  - split.
    + destruct (list_getitem l i) as [w| |w] eqn:E; try done.
      destruct (list_getitems l idx) as [ws|e] eqn:E'; [|done].
      intros [= <-]. constructor; [done|]. by apply IH.
    + intros H. inversion H as [|? v ? vs' Hi Hrest]; subst.
      rewrite Hi. apply IH in Hrest. by rewrite Hrest.
Qed.

(** X11: on a buffer over a list, indexing with a list or a tuple of
    indices answers the list of the items each index reads, in order, and
    does so exactly when every index reads an item; otherwise the error
    of the first failing index is raised.  No index gives the empty
    list. *)
Theorem list_buffer_getitems st self l idx :
  data (objs st self) = Some (BList l) ->
  (forall vs,
     Data_getitem st self (VList idx) = Some (Found (VList vs))
     <-> Forall2 (fun i v => list_getitem l i = Found v) idx vs)
  /\ Data_getitem st self (VTuple idx) = Data_getitem st self (VList idx)
  /\ Data_getitem st self (VList []) = Some (Found (VList []))
  /\ (forall pre i post e,
        idx = pre ++ i :: post ->
        Forall (fun j => exists v, list_getitem l j = Found v) pre ->
        list_getitem l i = e -> (forall v, e <> Found v) ->
        Data_getitem st self (VList idx) = Some e).
Proof.
  intros Hd. unfold Data_getitem. rewrite Hd. split; [|split; [done|split; [done|]]].
  - intros vs. rewrite <- list_getitems_spec.
    destruct (list_getitems l idx) as [ws|e] eqn:E.
    + split; [by intros [= ->]|by intros [= ->]].
    + split; [|done]. intros [= ->]. by destruct (list_getitems_error _ _ _ E (VList vs)).
  - intros pre i post e -> Hpre Hi He.
    assert (H : list_getitems l (pre ++ i :: post) = inr e).
    { clear Hd. induction pre as [|j pre IH]; cbn [app list_getitems].
      - rewrite Hi. destruct e; try done. by destruct (He v).
      - apply Forall_cons_1 in Hpre as [[v Hv] Hpre]. rewrite Hv.
        by rewrite (IH Hpre). }
    by rewrite H.
Qed.

Lemma list_buffer_getitems_witness :
  data (objs buffer_store 2) = Some (BList [VInt 1; VInt 2; VInt 3])
  /\ Data_getitem buffer_store 2 (VList [VInt 0; VInt (-1); VBool true])
     = Some (Found (VList [VInt 1; VInt 3; VInt 2])).
Proof.
  split; [reflexivity|].
  destruct (list_buffer_getitems buffer_store 2 [VInt 1; VInt 2; VInt 3]
              [VInt 0; VInt (-1); VBool true] eq_refl) as (H & _).
  apply H. repeat constructor.
Defined.

Lemma Data_len_set_data st self b :
  Data_len (fst (set_data self b st)) self = Some (length (backing_items b)).
Proof. unfold Data_len, set_data. cbn [fst]. by rewrite objs_upd_obj_eq. Qed.

(** X12: how the length of a buffer moves.  Over a list [append] adds
    one item, whatever it is, and [extend] as many as it is given; over
    an array both add what their argument flattens to, so that appending
    an empty list adds nothing; over a dataset [append] adds one; over
    any other representation neither changes the length. *)
Theorem buffer_length_after_mutation st self b arg xs :
  data (objs st self) = Some b ->
  let n := length (backing_items b) in
  let after_append := Data_len (state_after (Data_append self arg) st) self in
  let after_extend := Data_len (state_after (Data_extend self xs) st) self in
  Data_len st self = Some n
  /\ match b with
     | BList _ =>
         after_append = Some (n + 1) /\ after_extend = Some (n + length xs)
     | BNdarray _ =>
         after_append = Some (n + length (np_ravel arg))
         /\ after_extend = Some (n + length (flat_map np_ravel xs))
         /\ np_ravel (VList []) = []
         /\ np_ravel (VInt 0) = [VInt 0]
     | BDataset _ =>
         after_append = Some (n + 1)
         /\ (xs <> [] -> after_extend = Some (n + length xs))
     | BOther _ _ => after_append = Some n /\ after_extend = Some n
     end.
Proof.
  intros Hd n after_append after_extend.
  subst n after_append after_extend. unfold state_after.
  split; [unfold Data_len; by rewrite Hd|].
  unfold Data_append, Data_extend. rewrite Hd.
  destruct b as [l|l|l|ty l]; rewrite ?Data_len_set_data;
    cbn [backing_items np_ravel flat_map fst]; rewrite ?app_nil_r, ?length_app.
  - done.
  - done.
  - split; [done|]. intros Hxs. destruct xs as [|x xs]; [done|].
    destruct l; rewrite Data_len_set_data; cbn [backing_items];
      by rewrite length_app.
  - unfold Data_len. by rewrite Hd.
Qed.

Lemma buffer_length_after_mutation_witness :
  data (objs buffer_store 0) = Some (BNdarray [VInt 1; VInt 2; VInt 3])
  /\ Data_len (state_after (Data_append 0 (VList [VInt 4; VInt 5])) buffer_store) 0
     = Some 5
  /\ Data_len (state_after (Data_append 2 (VList [VInt 4; VInt 5])) buffer_store) 2
     = Some 4.
Proof.
  split; [reflexivity|].
  destruct (buffer_length_after_mutation buffer_store 0
              (BNdarray [VInt 1; VInt 2; VInt 3]) (VList [VInt 4; VInt 5]) []
              eq_refl) as (_ & Ha & _).
  destruct (buffer_length_after_mutation buffer_store 2
              (BList [VInt 1; VInt 2; VInt 3]) (VList [VInt 4; VInt 5]) []
              eq_refl) as (_ & Hl & _).
  split; [exact Ha | exact Hl].
Defined.

(** X13: once a [DataIO] has been installed with [set_dataio], whatever
    the buffer was over, [append] and [extend] are refused with the error
    naming the [DataIO] type and change nothing, while installing another
    [DataIO] is accepted. *)
Theorem dataio_blocks_growth st self b arg xs :
  data (objs st self) = Some b ->
  let st1 := state_after (Data_set_dataio self) st in
  let io := "<class 'hdmf.data_utils.DataIO'>" in
  outcome_of (Data_set_dataio self) st = Ok tt
  /\ Data_append self arg st1 = (st1, Raise (CannotAppend io))
  /\ Data_extend self xs st1 = (st1, Raise (CannotExtend io))
  /\ outcome_of (Data_set_dataio self) st1 = Ok tt
  /\ (forall y, y <> self -> objs st1 y = objs st y).
Proof.
  intros Hd st1 io. subst st1 io.
  unfold state_after, outcome_of, Data_set_dataio, set_data. rewrite Hd.
  cbn [fst snd]. unfold Data_append, Data_extend.
  rewrite !objs_upd_obj_eq. cbn [with_data data type_repr].
  repeat split. intros y Hy. by apply objs_upd_obj_ne.
Qed.

Lemma dataio_blocks_growth_witness :
  data (objs buffer_store 2) = Some (BList [VInt 1; VInt 2; VInt 3])
  /\ outcome_of (Data_append 2 (VInt 4))
       (state_after (Data_set_dataio 2) buffer_store)
     = Raise (CannotAppend "<class 'hdmf.data_utils.DataIO'>").
Proof.
  split; [reflexivity|].
  destruct (dataio_blocks_growth buffer_store 2 (BList [VInt 1; VInt 2; VInt 3])
              (VInt 4) [] eq_refl) as (_ & H & _).
  unfold outcome_of. cbn zeta in H. rewrite H. reflexivity.
Defined.

(** ** Accessors of a type *)

Lemma str_in_spec s l : str_in s l = true <-> s ∈ l.
Proof.
  unfold str_in. induction l as [|t l IH]; cbn [existsb].
  - split; [done|]. intros H. by apply elem_of_nil in H.
  - rewrite orb_true_iff, IH, elem_of_cons, String.eqb_eq. tauto.
Qed.

Lemma str_in_false s l : str_in s l = false <-> s ∉ l.
Proof.
  rewrite <- str_in_spec. destruct (str_in s l); split; try done.
Qed.

(** What the loop does to the attributes of the class and to the list of
    names. *)
Lemma gather_loop_attrs container_cls docs fs :
  forall cls_attrs acc cls_attrs' names,
  gather_loop container_cls docs fs cls_attrs acc = Ok (cls_attrs', names) ->
  cls_attrs `prefix_of` cls_attrs'
  /\ acc `prefix_of` names
  /\ (forall n, n ∈ names -> n ∈ acc \/ n ∈ cls_attrs')
  /\ (forall n, n ∈ cls_attrs' -> n ∈ cls_attrs \/ n ∈ names)
  /\ (NoDup cls_attrs -> NoDup cls_attrs').
Proof.
  induction fs as [|f fs IH]; intros cls_attrs acc cls_attrs' names H.
  - cbn in H. injection H as <- <-. repeat split; try done; by left.
  - cbn [gather_loop] in H. destruct (check_field_spec f) as [d|e]; [|done].
    destruct (dict_get "name" d) as [[| | |s| | | | | |]|]; try done.
    destruct (str_in s cls_attrs) eqn:Hin.
    + apply IH in H as (P1 & P2 & N1 & N2 & D).
      apply str_in_spec in Hin.
      split; [done|]. split; [by etrans; [apply prefix_app_r|apply P2]|].
      split; [|done].
      intros n Hn. destruct (N1 n Hn) as [Hacc|?]; [|by right].
      apply elem_of_app in Hacc as [?|Hs]; [by left|].
      apply list_elem_of_singleton in Hs as ->. right.
      by apply (elem_of_prefix _ _ _ Hin P1).
    + destruct (class_setter _ _); [|done].
      apply IH in H as (P1 & P2 & N1 & N2 & D).
      apply str_in_false in Hin.
      assert (Hs : s ∈ cls_attrs').
      { apply (elem_of_prefix (cls_attrs ++ [s])); [|done].
        apply elem_of_app. right. by apply list_elem_of_singleton. }
      assert (Hsn : s ∈ names).
      { apply (elem_of_prefix (acc ++ [s])); [|done].
        apply elem_of_app. right. by apply list_elem_of_singleton. }
      split; [by etrans; [apply prefix_app_r|apply P1]|].
      split; [by etrans; [apply prefix_app_r|apply P2]|].
      split; [|split].
      * intros n Hn. destruct (N1 n Hn) as [Hacc|?]; [|by right].
        apply elem_of_app in Hacc as [?|Hs']; [by left|].
        apply list_elem_of_singleton in Hs' as ->. by right.
      * intros n Hn. destruct (N2 n Hn) as [Ha|?]; [|by right].
        apply elem_of_app in Ha as [?|Hs']; [by left|].
        apply list_elem_of_singleton in Hs' as ->. by right.
      * intros Hnd. apply D. apply list.NoDup_app. split; [done|].
        split; [|apply NoDup_singleton].
        intros n Hn Hn'. apply list_elem_of_singleton in Hn' as ->. done.
Qed.

(** X14: when a type definition succeeds, every name of the resolved
    field list is an attribute of the new type; the attributes the type
    had are kept in place and every added one is a field name; no
    attribute name is added twice. *)
Theorem gather_fields_accessors container_defined container_cls docs declared
    cls_attrs last_base shared cls :
  gather_fields container_defined container_cls docs declared cls_attrs
    last_base shared = Ok cls ->
  (forall n, n ∈ fields cls -> n ∈ attrs cls)
  /\ cls_attrs `prefix_of` attrs cls
  /\ (forall n, n ∈ attrs cls -> n ∈ cls_attrs \/ n ∈ fields cls)
  /\ (NoDup cls_attrs -> NoDup (attrs cls))
  /\ subclass_of_Container cls = container_cls.
Proof.
  unfold gather_fields. destruct declared; try done.
  destruct (gather_loop _ _ _ _ _) as [[a names]|e] eqn:E; [|done].
  intros [= <-]. cbn [fields attrs subclass_of_Container].
  apply gather_loop_attrs in E as (P1 & _ & N1 & N2 & D).
  split; [|done].
  intros n Hn. destruct (N1 n Hn) as [Hnil|?]; [|done]. by apply elem_of_nil in Hnil.
Qed.

Lemma gather_fields_accessors_witness :
  gather_fields true true [] (VTuple [VStr "b"; VStr "name"])
    ["a"; "name"] (Some container_base) false
  = Ok (mkClass true ["a"; "b"; "name"] ["a"; "name"; "b"])
  /\ (forall n, n ∈ ["a"; "b"; "name"] -> n ∈ ["a"; "name"; "b"]).
Proof.
  split; [reflexivity|].
  exact (proj1 (gather_fields_accessors true true [] (VTuple [VStr "b"; VStr "name"])
                  ["a"; "name"] (Some container_base) false
                  (mkClass true ["a"; "b"; "name"] ["a"; "name"; "b"]) eq_refl)).
Defined.

(** Bare names that are attributes already pass the loop without any
    accessor being generated. *)
Lemma gather_loop_known container_cls docs names : forall cls_attrs acc,
  (forall n, n ∈ names -> n ∈ cls_attrs) ->
  gather_loop container_cls docs (map VStr names) cls_attrs acc
  = Ok (cls_attrs, acc ++ names).
Proof.
  induction names as [|n names IH]; intros cls_attrs acc Hin.
  - cbn. by rewrite app_nil_r.
  - cbn [map gather_loop check_field_spec dict_get]. cbn.
    assert (E : str_in n cls_attrs = true).
    { apply str_in_spec, Hin, list_elem_of_here. }
    rewrite E, IH; [by rewrite <- app_assoc|].
    intros m Hm. by apply Hin, list_elem_of_further.
Qed.

(** X15: a type that declares no fields of its own, so that its
    [__fields__] is the tuple of its base, resolves to the field list of
    that base and gets no new accessor, the inherited ones being
    attributes already. *)
Theorem undeclared_fields_are_inherited container_defined container_cls docs
    cls_attrs base :
  (forall n, n ∈ fields base -> n ∈ cls_attrs) ->
  gather_fields container_defined container_cls docs
    (VTuple (map VStr (fields base))) cls_attrs (Some base) true
  = Ok (mkClass container_cls (fields base) cls_attrs).
Proof.
  intros Hin. unfold gather_fields.
  rewrite andb_false_r. by rewrite gather_loop_known.
Qed.

Lemma undeclared_fields_are_inherited_witness :
  (forall n, n ∈ fields container_base -> n ∈ ["a"; "x"])
  /\ gather_fields true true [] (VTuple [VStr "a"]) ["a"; "x"]
       (Some container_base) true
     = Ok (mkClass true ["a"] ["a"; "x"]).
Proof.
  assert (H : forall n, n ∈ fields container_base -> n ∈ ["a"; "x"]).
  { intros n Hn. apply list_elem_of_singleton in Hn as ->. apply list_elem_of_here. }
  split; [exact H|].
  exact (undeclared_fields_are_inherited true true [] ["a"; "x"] container_base H).
Defined.

(** What an accepted declaration is made of. *)
Lemma accepted_spec_inv container_cls f :
  accepted_spec container_cls f = true ->
  exists pname d,
    declared_name f = Some pname
    /\ check_field_spec f = Ok d
    /\ dict_get "name" d = Some (VStr pname)
    /\ negb container_cls
       || forallb (fun k => str_in k pconf_allowed_keys) (map fst d) = true.
Proof.
  intros Hf. destruct f as [| | |s| | | | |d|]; try done.
  - exists s, [("name", VStr s)]. repeat split; try done. by destruct container_cls.
  - cbn in Hf. cbn [declared_name check_field_spec].
    destruct (dict_get "name" d) as [[| | |s| | | | | |]|] eqn:Hn; try done.
    by exists s, d.
Qed.

(** The loop over accepted declarations, with what it leaves for the
    declarations that follow. *)
Lemma gather_loop_split container_cls docs pre rest : forall cls_attrs acc,
  Forall (fun f => accepted_spec container_cls f = true) pre ->
  exists cls_attrs',
    (forall n, n ∈ cls_attrs' -> n ∈ cls_attrs \/ n ∈ declared_names pre)
    /\ gather_loop container_cls docs (pre ++ rest) cls_attrs acc
       = gather_loop container_cls docs rest cls_attrs' (acc ++ declared_names pre).
Proof.
  induction pre as [|f pre IH]; intros cls_attrs acc Hpre.
  - exists cls_attrs. split; [by left|]. cbn. by rewrite app_nil_r.
  - apply Forall_cons_1 in Hpre as [Hf Hpre].
    destruct (accepted_spec_inv _ _ Hf) as (pname & d & Hname & Hchk & Hget & Hkeys).
    cbn [app gather_loop]. rewrite Hchk, Hget.
    rewrite (declared_names_cons f pre pname Hname).
    destruct (str_in pname cls_attrs).
    + destruct (IH cls_attrs (acc ++ [pname]) Hpre) as (a' & Ha' & ->).
      exists a'. split; [|by rewrite <- app_assoc].
      intros n Hn. destruct (Ha' n Hn) as [?|?]; [by left|].
      right. by apply list_elem_of_further.
    + destruct (class_setter_accepted container_cls
                  (match dict_get pname docs with Some v => v | None => VNone end)
                  d Hkeys) as [s ->].
      destruct (IH (cls_attrs ++ [pname]) (acc ++ [pname]) Hpre) as (a' & Ha' & ->).
      exists a'. split; [|by rewrite <- app_assoc].
      intros n Hn. destruct (Ha' n Hn) as [Ha|?].
      * apply elem_of_app in Ha as [?|Hs]; [by left|].
        apply list_elem_of_singleton in Hs as ->. right. apply list_elem_of_here.
      * right. by apply list_elem_of_further.
Qed.

Lemma find_app_first {A} (f : A -> bool) l l' k :
  find f l = Some k -> find f (l ++ l') = Some k.
Proof.
  induction l as [|x l IH]; [done|]. cbn [app find]. by destruct (f x).
Qed.

(** X16: a descriptor with a key [Container._setter] does not know
    makes the definition of a [Container] type fail with the
    unrecognized-key [ValueError] naming the first such key and the
    field, when the field is not an attribute of the type already, while
    the same declarations are accepted for a type that is no
    [Container], whose inherited [_setter] does not look at the keys. *)
Theorem unknown_key_only_rejected_for_containers container_defined docs pre d post
    s k cls_attrs last_base shared :
  Forall (fun f => accepted_spec true f = true) pre ->
  dict_get "name" d = Some (VStr s) ->
  find (fun k => negb (str_in k pconf_allowed_keys)) (map fst d) = Some k ->
  s ∉ cls_attrs ->
  s ∉ inherited_fields container_defined last_base shared ->
  s ∉ declared_names pre ->
  gather_fields container_defined true docs (VTuple (pre ++ VDict d :: post))
    cls_attrs last_base shared
  = Raise (UnrecognizedKey k s)
  /\ py_class (UnrecognizedKey k s) = ValueError
  /\ (Forall (fun f => accepted_spec false f = true) pre ->
      Forall (fun f => accepted_spec false f = true) post ->
      exists cls_attrs',
        gather_fields container_defined false docs (VTuple (pre ++ VDict d :: post))
          cls_attrs last_base shared
        = Ok (mkClass false
                (inherited_fields container_defined last_base shared
                 ++ declared_names (pre ++ VDict d :: post))
                cls_attrs')).
Proof.
  intros Hpre Hn Hk Hs1 Hs2 Hs3.
  assert (Hm : forall own,
    match last_base with
    | Some base =>
        if container_defined && subclass_of_Container base && negb shared
        then map VStr (fields base) ++ own else own
    | None => own
    end = map VStr (inherited_fields container_defined last_base shared) ++ own).
  { intros own. unfold inherited_fields. destruct last_base as [base|]; [|done].
    by destruct (_ && _). }
  assert (Hbare : forall cc names,
    Forall (fun f => accepted_spec cc f = true) (map VStr names)).
  { intros cc names. induction names; by constructor. }
  split; [|split; [done|]].
  - unfold gather_fields. rewrite Hm, app_assoc.
    destruct (gather_loop_split true docs
                (map VStr (inherited_fields container_defined last_base shared)
                 ++ pre) (VDict d :: post) cls_attrs [])
      as (a' & Ha' & ->).
    { apply Forall_app. split; [apply Hbare|done]. }
    assert (Hs : str_in s a' = false).
    { apply str_in_false. intros Hin. destruct (Ha' s Hin) as [?|Hd]; [done|].
      rewrite declared_names_app, declared_names_bare in Hd.
      apply elem_of_app in Hd as [?|?]; done. }
    cbn [gather_loop check_field_spec]. rewrite !Hn. cbn iota beta zeta.
    rewrite Hs. unfold class_setter, Container_setter.
    assert (Hf : find (fun k0 => negb (str_in k0 pconf_allowed_keys))
                   (map fst (setdefault "doc"
                      (match dict_get s docs with Some v => v | None => VNone end) d))
                 = Some k).
    { unfold setdefault. destruct (dict_get "doc" d); [done|].
      rewrite map_app. by apply find_app_first. }
    rewrite Hf. unfold field_name. by rewrite setdefault_doc_name, Hn.
  - intros Hpre' Hpost. unfold gather_fields. rewrite Hm.
    destruct (gather_loop_prefix false docs
                (map VStr (inherited_fields container_defined last_base shared)
                 ++ pre ++ VDict d :: post) [] cls_attrs [])
      as [a' Ha].
    { apply Forall_app. split; [apply Hbare|]. apply Forall_app. split; [done|].
      constructor; [|done]. cbn. by rewrite Hn. }
    rewrite app_nil_r in Ha. rewrite Ha. cbn [gather_loop app].
    exists a'. by rewrite declared_names_app, declared_names_bare.
Qed.

Lemma unknown_key_only_rejected_for_containers_witness :
  gather_fields true true []
    (VTuple [VStr "b"; VDict [("name", VStr "c"); ("is_child", VBool true)]])
    ["a"] (Some container_base) false
  = Raise (UnrecognizedKey "is_child" "c").
Proof.
  refine (proj1 (unknown_key_only_rejected_for_containers true [] [VStr "b"]
                   [("name", VStr "c"); ("is_child", VBool true)] [] "c" "is_child"
                   ["a"] (Some container_base) false _ eq_refl eq_refl _ _ _)).
  - repeat constructor.
  - intros H. apply list_elem_of_singleton in H. discriminate.
  - intros H. apply list_elem_of_singleton in H. discriminate.
  - intros H. apply list_elem_of_singleton in H. discriminate.
Defined.

(** ** Directives of a [Container] field *)

(** X17: a [Container] field that is a child field and is declared not
    settable still gets a setter, since the child wrapper is appended
    after the missing inherited one; that setter calls the missing one
    first, so that every assignment, [None] included, raises the
    [TypeError] of calling [None] and changes nothing.  On a type that is
    no [Container] the same field has no setter at all. *)
Theorem unsettable_child_field_raises field v c :
  find (fun k => negb (str_in k pconf_allowed_keys)) (map fst field) = None ->
  dict_get "settable" field = Some v -> truthy v = false ->
  dict_get "child" field = Some c -> truthy c = true ->
  dict_get "required_name" field = None ->
  AbstractContainer_setter field = None
  /\ class_setter false field = Ok None
  /\ exists s,
       class_setter true field = Ok (Some s)
       /\ forall depth self val st,
            assign_field (Some s) (field_name field) depth self val st
            = (st, Raise (NotCallable VNone))
            /\ py_class (NotCallable VNone) = TypeError.
Proof.
  intros Hk Hs Hv Hc Hcv Hr.
  assert (Ha : AbstractContainer_setter field = None).
  { unfold AbstractContainer_setter. by rewrite Hs, Hv. }
  split; [done|]. split; [unfold class_setter; by rewrite Ha|].
  exists (child_setter (named_setter field)). split.
  - unfold class_setter, Container_setter. by rewrite Hk, Hc, Hcv.
  - intros depth self val st. split; [|done].
    cbn [assign_field]. unfold child_setter, bind, named_setter.
    by rewrite Hr, Ha.
Qed.

Lemma unsettable_child_field_raises_witness :
  exists s,
    class_setter true locked_child_field = Ok (Some s)
    /\ assign_field (Some s) "items" 8 2 VNone chain_store
       = (chain_store, Raise (NotCallable VNone)).
Proof.
  destruct (unsettable_child_field_raises locked_child_field (VBool false)
              (VBool true) eq_refl eq_refl eq_refl eq_refl eq_refl eq_refl)
    as (_ & _ & s & Hs & H).
  exists s. split; [exact Hs|]. exact (proj1 (H 8 2 VNone chain_store)).
Defined.

(** X18: a field with a [required_name] checks the name before anything
    else: a value named otherwise raises the naming error and changes
    nothing, even when the field is set already; a value so named is
    handled by the write-once setter; [None] does nothing; a value that
    is no instance has no name to check and raises. *)
Theorem required_name_is_checked_first field rn :
  find (fun k => negb (str_in k pconf_allowed_keys)) (map fst field) = None ->
  dict_get "required_name" field = Some (VStr rn) ->
  dict_get "child" field = None ->
  dict_get "settable" field = None ->
  exists s,
    Container_setter field = Ok (Some s)
    /\ forall depth self st,
         (forall b, name (objs st b) <> rn ->
            s depth self (VObj b) st
            = (st, Raise (MustBeNamed (field_name field) (VStr rn))))
         /\ (forall b, name (objs st b) = rn ->
               s depth self (VObj b) st
               = setter (field_name field) depth self (VObj b) st)
         /\ s depth self VNone st = (st, Ok tt)
         /\ (forall z, s depth self (VInt z) st
                       = (st, Raise (NoAttribute (VInt z) "name"))).
Proof.
  intros Hk Hr Hc Hs.
  exists (required_name_setter field (VStr rn) (AbstractContainer_setter field)).
  split.
  - unfold Container_setter, named_setter. by rewrite Hk, Hc, Hr.
  - intros depth self st. unfold required_name_setter, AbstractContainer_setter.
    rewrite Hs. cbn [call_setter name_differs].
    split; [|split; [|done]].
    + intros b Hb. apply String.eqb_neq in Hb. by rewrite Hb.
    + intros b Hb. apply String.eqb_eq in Hb. by rewrite Hb.
Qed.

Lemma required_name_is_checked_first_witness :
  exists s,
    Container_setter main_field = Ok (Some s)
    /\ s 8 0 (VObj 1) chain_store
       = (chain_store, Raise (MustBeNamed "table" (VStr "main"))).
Proof.
  destruct (required_name_is_checked_first main_field "main"
              eq_refl eq_refl eq_refl eq_refl) as (s & Hs & H).
  exists s. split; [exact Hs|].
  destruct (H 8 0 chain_store) as (Hne & _). apply Hne. discriminate.
Defined.

(** ** Offers to a proxy *)

(** X19: while the parent is an unresolved proxy, a series of offers the
    proxy does not match are all recorded, in the order made and
    repeated ones included, and nothing else changes: the instances are
    as before, the proxy is still the parent and keeps its predicate. *)
Theorem offers_are_recorded_in_order depth x q ps : forall st,
  parent (objs st x) = RProxy q ->
  Forall (fun P => P <> RNone /\ P <> RProxy q
                   /\ matches (proxies st q) P = false) ps ->
  let st' := state_after (offer_parents depth x ps) st in
  outcome_of (offer_parents depth x ps) st = Ok tt
  /\ objs st' = objs st
  /\ matches (proxies st' q) = matches (proxies st q)
  /\ candidates (proxies st' q) = candidates (proxies st q) ++ ps.
Proof.
  induction ps as [|P ps IH]; intros st Hp Hps st'; subst st'.
  - unfold state_after, outcome_of. cbn. by rewrite app_nil_r.
  - apply Forall_cons_1 in Hps as [(HN & HP & Hm) Hps].
    unfold state_after, outcome_of. cbn [offer_parents]. unfold bind.
    rewrite (parent_setter_proxy_other _ _ _ _ _ Hp HN HP Hm).
    set (st1 := upd_proxy q (add_candidate P) st).
    assert (Hq : proxies st1 q = add_candidate P (proxies st q)).
    { subst st1. rewrite proxies_upd_proxy. by destruct (decide (q = q)). }
    assert (Hps1 : Forall (fun R => R <> RNone /\ R <> RProxy q
                                   /\ matches (proxies st1 q) R = false) ps).
    { clear IH. induction ps as [|R l IHl]; [constructor|].
      apply Forall_cons_1 in Hps as [(? & ? & HR) Hl].
      constructor; [|by apply IHl]. repeat split; try done. by rewrite Hq. }
    destruct (IH st1) as (Ho & Hobjs & Hmat & Hcand); [done|done|].
    unfold state_after, outcome_of in *.
    split; [done|]. split; [by rewrite Hobjs|].
    split; [by rewrite Hmat, Hq|].
    rewrite Hcand, Hq. cbn [add_candidate candidates]. by rewrite <- app_assoc.
Qed.

Lemma offers_are_recorded_in_order_witness :
  parent (objs proxy_store 0) = RProxy 0
  /\ candidates
       (proxies (state_after (offer_parents 8 0 [RObj 2; RProxy 5; RObj 2])
                   proxy_store) 0)
     = [RObj 2; RProxy 5; RObj 2].
Proof.
  split; [reflexivity|].
  destruct (offers_are_recorded_in_order 8 0 0 [RObj 2; RProxy 5; RObj 2]
              proxy_store eq_refl) as (_ & _ & _ & H).
  - repeat constructor; discriminate.
  - exact H.
Defined.

(** ** Names *)

Lemma contains_slash_spec s :
  contains_slash s = true <-> exists s1 s2, s = s1 +:+ "/" +:+ s2.
Proof.
  split.
  - induction s as [|c s IH]; [done|]. cbn [contains_slash].
    destruct (Ascii.eqb c "/") eqn:E.
    + intros _. apply Ascii.eqb_eq in E as ->. by exists "", s.
    + intros H. destruct (IH H) as (s1 & s2 & ->). by exists (String c s1), s2.
  - intros (s1 & s2 & ->). induction s1 as [|c s1 IH]; [done|].
    change (String c s1 +:+ "/" +:+ s2) with (String c (s1 +:+ "/" +:+ s2)).
    cbn [contains_slash]. destruct (Ascii.eqb c "/"); [done|exact IH].
Qed.

(** X20: a name that contains the path separator is refused by
    [__init__], but only after [__new__] has run: when the instance was
    created with a container as parent it is then already among the
    children of that container, with it as parent.  A name without
    separator is accepted and becomes the name of the instance. *)
Theorem name_with_slash_is_rejected depth k dt nm source p st st2 inst :
  AbstractContainer_new depth k dt source (RObj p) st = (st2, Ok inst) ->
  is_Container (kind (objs st p)) = true ->
  p <> next st ->
  ((exists s1 s2, nm = s1 +:+ "/" +:+ s2) ->
     new_Container depth k dt nm source (RObj p) st
     = (st2, Raise (NameContainsSlash nm)))
  /\ ((forall s1 s2, nm <> s1 +:+ "/" +:+ s2) ->
        outcome_of (new_Container depth k dt nm source (RObj p)) st = Ok inst
        /\ name (objs (state_after (new_Container depth k dt nm source (RObj p)) st)
                   inst) = nm)
  /\ inst ∈ children (objs st2 p)
  /\ parent (objs st2 inst) = RObj p.
Proof.
  intros Hnew Hk Hp.
  split; [|split].
  - intros Hs. apply contains_slash_spec in Hs.
    unfold new_Container, bind, AbstractContainer_init. by rewrite Hnew, Hs.
  - intros Hs.
    assert (E : contains_slash nm = false).
    { destruct (contains_slash nm) eqn:E; [|done].
      apply contains_slash_spec in E as (s1 & s2 & ->). by destruct (Hs s1 s2). }
    unfold outcome_of, state_after, new_Container, bind, AbstractContainer_init.
    rewrite Hnew, E. cbn [fst snd ret]. split; [done|].
    rewrite objs_upd_obj_eq. by destruct (objs st2 inst).
  - unfold AbstractContainer_new in Hnew.
    set (st1 := mkState _ _ _) in Hnew.
    assert (H1 : parent (objs st1 (next st)) = RNone).
    { subst st1. cbn [objs]. by rewrite fn_lookup_insert. }
    assert (K1 : is_Container (kind (objs st1 p)) = true).
    { subst st1. cbn [objs]. by rewrite fn_lookup_insert_ne. }
    rewrite (parent_setter_unset _ _ _ _ H1) in Hnew by done.
    cbn zeta in Hnew. rewrite K1 in Hnew.
    destruct (set_modified depth p true _) as [s2 [u|e]] eqn:Hm; [|done].
    injection Hnew as <- <-. destruct u.
    by destruct (linked_attached depth p (next st) st1 s2 Hm) as (? & ? & _).
Qed.

Lemma name_with_slash_is_rejected_witness :
  let mk := AbstractContainer_new 8 KContainer None VNone (RObj 2) in
  mk chain_store = (state_after mk chain_store, Ok 3)
  /\ new_Container 8 KContainer None "a/b" VNone (RObj 2) chain_store
     = (state_after mk chain_store, Raise (NameContainsSlash "a/b"))
  /\ 3 ∈ children (objs (state_after mk chain_store) 2).
Proof.
  intros mk.
  assert (Hnew : mk chain_store = (state_after mk chain_store, Ok 3)) by reflexivity.
  split; [exact Hnew|].
  destruct (name_with_slash_is_rejected 8 KContainer None "a/b" VNone 2 chain_store
              (state_after mk chain_store) 3 Hnew eq_refl)
    as (Hbad & _ & Hin & _); [discriminate|].
  split; [|exact Hin]. apply Hbad. by exists "a", "b".
Defined.

(** ** The order of children *)

Lemma same_fields_trans (o1 o2 o3 : Obj) :
  field_values o2 = field_values o1 -> field_values o3 = field_values o2 ->
  field_values o3 = field_values o1.
Proof. congruence. Qed.

(** The loop attaches parentless instances in the order of the
    sequence. *)
Lemma register_children_order depth a : forall bs st st',
  register_children depth a (map VObj bs) st = (st', Ok tt) ->
  is_Container (kind (objs st a)) = true ->
  NoDup bs ->
  (forall b, b ∈ bs -> parent (objs st b) = RNone) ->
  children (objs st' a) = children (objs st a) ++ bs.
Proof.
  induction bs as [|b bs IH]; intros st st' H Ha Hnd Hp.
  - cbn in H. injection H as <-. by rewrite app_nil_r.
  - cbn [map register_children] in H.
    apply bind_ok in H as (s1 & [] & Hstep & Hrest).
    apply list.NoDup_cons in Hnd as [Hb Hnd].
    assert (Hpb : parent (objs st b) = RNone) by apply Hp, list_elem_of_here.
    destruct (register_child_effect _ _ _ _ _ Hstep Ha) as (G1 & _ & Fr1 & _).
    assert (Hc1 : children (objs s1 a) = children (objs st a) ++ [b]).
    { unfold register_child in Hstep. rewrite Hpb in Hstep. cbn in Hstep.
      rewrite (parent_setter_unset _ _ _ _ Hpb) in Hstep by done.
      cbn zeta in Hstep. rewrite Ha in Hstep.
      assert (E : s1 = fst (set_modified depth a true
                              (upd_obj a (append_child b)
                                 (upd_obj b (with_parent (RObj a)) st))))
        by by rewrite Hstep.
      rewrite E, (unflag_children _ _ (set_modified_unflag _ _ _ _ _)).
      rewrite objs_upd_obj_eq, objs_upd_obj.
      destruct (decide (b = a)) as [->|]; [|done]. by destruct (objs st a). }
    rewrite (IH s1 st' Hrest); [by rewrite Hc1, <- app_assoc| |done|].
    + destruct G1 as (K & _). by rewrite K.
    + intros c Hc. rewrite Fr1; [by apply Hp, list_elem_of_further|].
      intros ->. done.
Qed.

(** X21: assigning a list of distinct parentless instances to an unset
    child field of a container appends them to its children in the order
    of the list, and the field reads back the value as it was assigned. *)
Theorem child_field_keeps_order field s depth a bs st st' :
  Container_setter field = Ok (Some s) ->
  (exists v, dict_get "child" field = Some v /\ truthy v = true) ->
  dict_get "required_name" field = None ->
  dict_get "settable" field = None ->
  field_values (objs st a) !! field_name field = None ->
  is_Container (kind (objs st a)) = true ->
  NoDup bs ->
  (forall b, b ∈ bs -> parent (objs st b) = RNone) ->
  s depth a (VList (map VObj bs)) st = (st', Ok tt) ->
  children (objs st' a) = children (objs st a) ++ bs
  /\ getter (field_name field) st' a = VList (map VObj bs)
  /\ forall b, b ∈ bs -> parent (objs st' b) = RObj a.
Proof.
  intros Hs (v & Hc & Hv) Hr Hset Hf Ha Hnd Hp Hrun.
  unfold Container_setter in Hs. destruct (find _ _); [done|].
  rewrite Hc, Hv in Hs. injection Hs as <-.
  unfold child_setter, bind, named_setter, AbstractContainer_setter in Hrun.
  rewrite Hr, Hset in Hrun. cbn [call_setter setter] in Hrun. rewrite Hf in Hrun.
  set (st1 := upd_obj a _ st) in Hrun. cbn [child_values] in Hrun.
  assert (L : links_same st st1) by by apply links_same_upd.
  destruct L as [L _].
  assert (Ha1 : is_Container (kind (objs st1 a)) = true).
  { destruct (L a) as (-> & _). done. }
  assert (Hp1 : forall b, b ∈ bs -> parent (objs st1 b) = RNone).
  { intros b Hb. destruct (L b) as (_ & -> & _). by apply Hp. }
  split; [|split].
  - rewrite (register_children_order depth a bs st1 st' Hrun Ha1 Hnd Hp1).
    destruct (L a) as (_ & _ & ->). done.
  - assert (F : field_values (objs st' a) = field_values (objs st1 a)).
    { assert (E : st' = fst (register_children depth a (map VObj bs) st1))
        by by rewrite Hrun.
      rewrite E.
      apply (register_children_pointwise
               (fun o o' => field_values o' = field_values o)); try done.
      intros o1 o2 o3. apply same_fields_trans. }
    unfold getter. rewrite F. subst st1. rewrite objs_upd_obj_eq.
    cbn [with_field_values field_values]. by rewrite lookup_insert_eq.
  - intros b Hb.
    destruct (register_children_effect depth a bs st1 st' Hrun Ha1) as (_ & _ & E).
    destruct (E b) as [_ Hin]. destruct (Hin Hb) as [Hn _].
    by destruct (Hn (Hp1 b Hb)) as (? & _).
Qed.

Lemma child_field_keeps_order_witness :
  let s := child_setter (named_setter items_field) in
  let st' := state_after (s 8 0 (VList [VObj 2; VObj 1])) flat_store in
  s 8 0 (VList [VObj 2; VObj 1]) flat_store = (st', Ok tt)
  /\ children (objs st' 0) = [2; 1]
  /\ getter "items" st' 0 = VList [VObj 2; VObj 1].
Proof.
  intros s st'.
  assert (Hrun : s 8 0 (VList [VObj 2; VObj 1]) flat_store = (st', Ok tt))
    by reflexivity.
  assert (Hnd : NoDup [2; 1]).
  { apply list.NoDup_cons. split; [|apply NoDup_singleton].
    intros H. apply list_elem_of_singleton in H. discriminate. }
  assert (Hp : forall b, b ∈ [2; 1] -> parent (objs flat_store b) = RNone).
  { intros b Hb. apply elem_of_cons in Hb as [-> | Hb]; [reflexivity|].
    apply list_elem_of_singleton in Hb as ->. reflexivity. }
  split; [exact Hrun|].
  destruct (child_field_keeps_order items_field s 8 0 [2; 1] flat_store st'
              eq_refl (ex_intro _ (VBool true) (conj eq_refl eq_refl))
              eq_refl eq_refl eq_refl eq_refl Hnd Hp Hrun)
    as (Hc & Hg & _).
  split; [exact Hc | exact Hg].
Defined.

(** ** Write-once fields of every class *)

(** A settable field has the write-once setter as inherited setter. *)
Lemma settable_setter field :
  AbstractContainer_setter field <> None ->
  AbstractContainer_setter field = Some (setter (field_name field)).
Proof.
  unfold AbstractContainer_setter.
  by destruct (match dict_get "settable" field with
               | Some v => truthy v | None => true end).
Qed.

(** The naming check, where there is one, runs before the write-once
    setter and lets through [None] and the instances so named. *)
Lemma inner_setter_spec container_cls field depth x st :
  AbstractContainer_setter field <> None ->
  inner_setter container_cls field depth x VNone st = (st, Ok tt)
  /\ (forall required b,
        required_name_of container_cls field = Some required ->
        name_differs required (name (objs st b)) = true ->
        inner_setter container_cls field depth x (VObj b) st
        = (st, Raise (MustBeNamed (field_name field) required)))
  /\ (forall required v,
        required_name_of container_cls field = Some required ->
        v <> VNone -> (forall b, v <> VObj b) ->
        inner_setter container_cls field depth x v st
        = (st, Raise (NoAttribute v "name")))
  /\ (forall v, passes_naming container_cls field st v ->
        inner_setter container_cls field depth x v st
        = setter (field_name field) depth x v st).
Proof.
  intros Hs. apply settable_setter in Hs.
  unfold inner_setter, passes_naming, required_name_of, named_setter.
  destruct container_cls; [|rewrite Hs; cbn [call_setter]; repeat split; done].
  destruct (dict_get "required_name" field) as [r|];
    [|rewrite Hs; cbn [call_setter]; repeat split; done].
  destruct r; try (rewrite Hs; cbn [call_setter]; repeat split; done);
    rewrite Hs; cbn [call_setter required_name_setter]; (split; [done|]);
    (split; [intros required c [= <-] Hd;
             cbn [call_setter required_name_setter]; by rewrite Hd|]);
    (split; [intros required v [= <-] Hv Hb; destruct v; try done;
             exfalso; eapply Hb; reflexivity|]);
    intros v (c & -> & Hd); cbn [call_setter required_name_setter]; by rewrite Hd.
Qed.

(** The setter of a class is that inner setter, followed by the
    registration of children for a child field of a [Container]. *)
Lemma class_setter_shape container_cls field s depth x v st :
  class_setter container_cls field = Ok (Some s) ->
  AbstractContainer_setter field <> None ->
  s depth x v st
  = if assigns_parent (Call_field container_cls field x v) then
      (inner_setter container_cls field depth x v ;;;
       match v with
       | VNone => ret tt
       | _ => register_children depth x (child_values v)
       end) st
    else inner_setter container_cls field depth x v st.
Proof.
  intros Hc Hs. unfold class_setter in Hc. unfold inner_setter.
  cbn [assigns_parent]. destruct container_cls; cbn [andb].
  - unfold Container_setter in Hc. destruct (find _ _); [done|].
    destruct (dict_get "child" field) as [c|].
    + destruct (truthy c).
      * injection Hc as <-. reflexivity.
      * injection Hc as Hc. by rewrite Hc.
    + injection Hc as Hc. by rewrite Hc.
  - injection Hc as Hc. by rewrite Hc.
Qed.

Lemma setter_present nm depth x v w st :
  v <> VNone -> field_values (objs st x) !! nm = Some w ->
  setter nm depth x v st = (st, Raise (AlreadySet nm)).
Proof. intros Hv Hw. unfold setter. rewrite Hw. by destruct v. Qed.

Lemma setter_absent nm depth x v st :
  v <> VNone -> field_values (objs st x) !! nm = None ->
  setter nm depth x v st
  = (upd_obj x (with_field_values (<[nm := v]> (field_values (objs st x)))) st,
     Ok tt).
Proof. intros Hv Hw. unfold setter. rewrite Hw. by destruct v. Qed.

Lemma same_name_trans (o1 o2 o3 : Obj) :
  name o2 = name o1 -> name o3 = name o2 -> name o3 = name o1.
Proof. congruence. Qed.

(** What an assignment through a generated setter keeps: names, and
    after the value has been stored the stored fields. *)
Lemma class_setter_effect container_cls field s depth x v st :
  class_setter container_cls field = Ok (Some s) ->
  AbstractContainer_setter field <> None ->
  v <> VNone ->
  passes_naming container_cls field st v ->
  field_values (objs st x) !! field_name field = None ->
  let st1 := state_after (s depth x v) st in
  field_values (objs st1 x) !! field_name field = Some v
  /\ (forall b, name (objs st1 b) = name (objs st b))
  /\ (assigns_parent (Call_field container_cls field x v) = false ->
      outcome_of (s depth x v) st = Ok tt).
Proof.
  intros Hc Hs Hv Hp Hn st1. subst st1. unfold state_after, outcome_of.
  rewrite (class_setter_shape _ _ _ _ _ _ _ Hc Hs).
  destruct (inner_setter_spec container_cls field depth x st Hs) as (_ & _ & _ & Hi).
  set (st0 := upd_obj x (with_field_values
                 (<[field_name field := v]> (field_values (objs st x)))) st).
  assert (E : inner_setter container_cls field depth x v st = (st0, Ok tt)).
  { rewrite (Hi v Hp). by apply setter_absent. }
  assert (F0 : field_values (objs st0 x) !! field_name field = Some v).
  { subst st0. rewrite objs_upd_obj_eq. cbn [with_field_values field_values].
    apply lookup_insert_eq. }
  assert (N0 : forall b, name (objs st0 b) = name (objs st b)).
  { intros b. subst st0. rewrite objs_upd_obj.
    by destruct (decide (x = b)) as [->|]. }
  destruct (assigns_parent _) eqn:Ea.
  - unfold bind. rewrite E.
    assert (R : fst (match v with
                     | VNone => ret tt
                     | _ => register_children depth x (child_values v)
                     end st0)
                = fst (register_children depth x (child_values v) st0))
      by by destruct v.
    rewrite R. split; [|split; [|done]].
    + rewrite <- F0. f_equal.
      apply (register_children_pointwise
               (fun o o' => field_values o' = field_values o)); try done.
      intros o1 o2 o3. apply same_fields_trans.
    + intros b. rewrite <- N0.
      apply (register_children_pointwise (fun o o' => name o' = name o)); try done.
      intros o1 o2 o3. apply same_name_trans.
  - rewrite E. cbn [fst snd]. done.
Qed.

(** C4, as stated, fails: on a settable [Container] field with a
    [required_name], the first value other than [None] is not stored when
    it is named otherwise, and once the field is set such a value raises
    the naming [ValueError], not the already-set error. *)
Lemma wrongly_named_value_is_not_write_once :
  let s := required_name_setter main_field (VStr "main")
             (AbstractContainer_setter main_field) in
  let st1 := state_after (s 8 0 (VObj 1)) main_store in
  class_setter true main_field = Ok (Some s)
  /\ AbstractContainer_setter main_field = Some (setter "table")
  /\ field_values (objs main_store 0) !! "table" = None
  /\ s 8 0 (VObj 2) main_store
     = (main_store, Raise (MustBeNamed "table" (VStr "main")))
  /\ field_values (objs st1 0) !! "table" = Some (VObj 1)
  /\ s 8 0 (VObj 2) st1 = (st1, Raise (MustBeNamed "table" (VStr "main")))
  /\ py_class (MustBeNamed "table" (VStr "main")) = ValueError
  /\ py_class (AlreadySet "table") = AttributeError.
Proof.
  intros s st1. repeat split.
Qed.

(** C4, amended: for every generated setter of a settable field,
    whatever the class and the directives: [None] does nothing, set or
    unset; where a [Container] field has a [required_name], an instance
    named otherwise raises the naming [ValueError] and a value that is no
    instance raises for its missing name, both set or unset and without
    storing anything; any other value is stored when the field is unset
    (the registration of children, for a child field, follows the store
    and is the only part that can still raise) and raises the already-set
    [AttributeError] without changing anything whenever the name is
    present, so right after having been stored too. *)
Theorem generated_setter_write_once container_cls field s depth x st :
  class_setter container_cls field = Ok (Some s) ->
  AbstractContainer_setter field <> None ->
  let nm := field_name field in
  s depth x VNone st = (st, Ok tt)
  /\ (forall required b,
        required_name_of container_cls field = Some required ->
        name_differs required (name (objs st b)) = true ->
        s depth x (VObj b) st = (st, Raise (MustBeNamed nm required))
        /\ py_class (MustBeNamed nm required) = ValueError)
  /\ (forall required v,
        required_name_of container_cls field = Some required ->
        v <> VNone -> (forall b, v <> VObj b) ->
        s depth x v st = (st, Raise (NoAttribute v "name")))
  /\ (forall v, v <> VNone -> passes_naming container_cls field st v ->
        (forall w, field_values (objs st x) !! nm = Some w ->
           s depth x v st = (st, Raise (AlreadySet nm))
           /\ py_class (AlreadySet nm) = AttributeError)
        /\ (field_values (objs st x) !! nm = None ->
            let st1 := state_after (s depth x v) st in
            field_values (objs st1 x) !! nm = Some v
            /\ getter nm st1 x = v
            /\ s depth x VNone st1 = (st1, Ok tt)
            /\ (forall v2, v2 <> VNone ->
                  passes_naming container_cls field st v2 ->
                  s depth x v2 st1 = (st1, Raise (AlreadySet nm)))
            /\ (assigns_parent (Call_field container_cls field x v) = false ->
                outcome_of (s depth x v) st = Ok tt))).
Proof.
  intros Hc Hs nm.
  assert (Shape := fun v st => class_setter_shape _ _ _ depth x v st Hc Hs).
  assert (None_ok : forall st, s depth x VNone st = (st, Ok tt)).
  { intros st0. rewrite Shape.
    destruct (inner_setter_spec container_cls field depth x st0 Hs) as (H0 & _).
    destruct (assigns_parent _); [|done]. unfold bind. by rewrite H0. }
  assert (Present : forall st0 v w, v <> VNone ->
            passes_naming container_cls field st0 v ->
            field_values (objs st0 x) !! nm = Some w ->
            s depth x v st0 = (st0, Raise (AlreadySet nm))).
  { intros st0 v w Hv Hp Hw. rewrite Shape.
    destruct (inner_setter_spec container_cls field depth x st0 Hs)
      as (_ & _ & _ & Hi).
    assert (E : inner_setter container_cls field depth x v st0
                = (st0, Raise (AlreadySet nm))).
    { rewrite (Hi v Hp). by apply (setter_present _ _ _ _ w). }
    destruct (assigns_parent _); [|done]. unfold bind. by rewrite E. }
  split; [apply None_ok|]. split; [|split].
  - intros required b Hr Hd. split; [|done]. rewrite Shape.
    destruct (inner_setter_spec container_cls field depth x st Hs)
      as (_ & Hbad & _).
    destruct (assigns_parent _); [|by apply Hbad].
    unfold bind. by rewrite (Hbad required b Hr Hd).
  - intros required v Hr Hv Hb. rewrite Shape.
    destruct (inner_setter_spec container_cls field depth x st Hs)
      as (_ & _ & Hbad & _).
    destruct (assigns_parent _); [|by apply (Hbad required)].
    unfold bind. by rewrite (Hbad required v Hr Hv Hb).
  - intros v Hv Hp. split.
    + intros w Hw. split; [by apply (Present st v w)|done].
    + intros Hn st1.
      destruct (class_setter_effect container_cls field s depth x v st
                  Hc Hs Hv Hp Hn) as (F1 & N1 & O1).
      fold st1 in F1, N1. fold nm in F1.
      split; [exact F1|]. split; [unfold getter; by rewrite F1|].
      split; [apply None_ok|]. split; [|exact O1].
      intros v2 Hv2 Hp2. apply (Present st1 v2 v); [done| |done].
      unfold passes_naming in *. destruct (required_name_of _ _); [|done].
      destruct Hp2 as (b & -> & Hd). exists b. split; [done|]. by rewrite N1.
Qed.

Lemma generated_setter_write_once_witness :
  let s := required_name_setter main_field (VStr "main")
             (AbstractContainer_setter main_field) in
  let st1 := state_after (s 8 0 (VObj 1)) main_store in
  class_setter true main_field = Ok (Some s)
  /\ getter "table" st1 0 = VObj 1
  /\ s 8 0 (VObj 1) st1 = (st1, Raise (AlreadySet "table"))
  /\ s 8 0 (VObj 2) main_store
     = (main_store, Raise (MustBeNamed "table" (VStr "main"))).
Proof.
  intros s st1.
  assert (Hc : class_setter true main_field = Ok (Some s)) by reflexivity.
  assert (Hs : AbstractContainer_setter main_field <> None) by discriminate.
  assert (Hp : passes_naming true main_field main_store (VObj 1)).
  { exists 1. split; reflexivity. }
  destruct (generated_setter_write_once true main_field s 8 0 main_store Hc Hs)
    as (_ & Hbad & _ & Hok).
  destruct (Hok (VObj 1)) as [_ Hfirst]; [discriminate|exact Hp|].
  destruct (Hfirst eq_refl) as (_ & Hg & _ & Hagain & _).
  split; [exact Hc|]. split; [exact Hg|]. split.
  - apply Hagain; [discriminate|exact Hp].
  - apply (Hbad (VStr "main") 2); reflexivity.
Defined.

(** ** Parents that are no containers *)

(** X22: giving a parentless instance a parent that is not a
    [Container] (a [Data] instance) links one side only: the assignment
    returns whatever the recursion limit, the instance has the parent,
    but no children list and no dirty flag changes, and no other instance
    is touched; [add_child] called on such a parent does the same. *)
Theorem parent_outside_Container_is_one_sided depth st x p :
  parent (objs st x) = RNone ->
  is_Container (kind (objs st p)) = false ->
  let st' := state_after (parent_setter depth x (RObj p)) st in
  outcome_of (parent_setter depth x (RObj p)) st = Ok tt
  /\ parent (objs st' x) = RObj p
  /\ (forall y, children (objs st' y) = children (objs st y))
  /\ (forall y, modified (objs st' y) = modified (objs st y))
  /\ (forall y, y <> x -> objs st' y = objs st y)
  /\ add_child depth p (Some x) st = parent_setter depth x (RObj p) st.
Proof.
  intros Hx Hp st'. subst st'.
  assert (E : parent_setter depth x (RObj p) st
              = (upd_obj x (with_parent (RObj p)) st, Ok tt)).
  { unfold parent_setter. rewrite Hx. cbn [ref_is ref_is_Container].
    rewrite objs_upd_obj. destruct (decide (x = p)) as [->|].
    - cbn [with_parent kind]. by rewrite Hp.
    - by rewrite Hp. }
  unfold state_after, outcome_of, add_child. rewrite Hx, E. cbn [fst snd].
  repeat split.
  - by rewrite objs_upd_obj_eq.
  - intros y. rewrite objs_upd_obj. by destruct (decide (x = y)) as [->|].
  - intros y. rewrite objs_upd_obj. by destruct (decide (x = y)) as [->|].
  - intros y Hy. by apply objs_upd_obj_ne.
Qed.

Lemma parent_outside_Container_is_one_sided_witness :
  let st' := state_after (parent_setter 8 2 (RObj 0)) buffer_store in
  parent (objs st' 2) = RObj 0
  /\ children (objs st' 0) = []
  /\ outcome_of (parent_setter 8 2 (RObj 0)) buffer_store = Ok tt.
Proof.
  intros st'.
  destruct (parent_outside_Container_is_one_sided 8 buffer_store 2 0 eq_refl eq_refl)
    as (Ho & Hq & Hc & _).
  split; [exact Hq|]. split; [|exact Ho].
  exact (Hc 0).
Defined.

(** ** Plain field assignment *)

(** X23: assigning a field through the setter
    [AbstractContainer._setter] generates is local: whatever the value
    and the outcome, no other instance changes, the other fields of the
    instance read as before, and its dirty flag, parent, children, name,
    source and data are as they were; in particular the assignment does
    not mark the instance as modified. *)
Theorem plain_field_assignment_is_local field s depth x v st :
  AbstractContainer_setter field = Some s ->
  let st' := state_after (s depth x v) st in
  (forall y, y <> x -> objs st' y = objs st y)
  /\ (forall nm, nm <> field_name field -> getter nm st' x = getter nm st x)
  /\ modified (objs st' x) = modified (objs st x)
  /\ parent (objs st' x) = parent (objs st x)
  /\ children (objs st' x) = children (objs st x)
  /\ name (objs st' x) = name (objs st x)
  /\ container_source (objs st' x) = container_source (objs st x)
  /\ data (objs st' x) = data (objs st x)
  /\ proxies st' = proxies st.
Proof.
  intros Hs st'. subst st'. unfold AbstractContainer_setter in Hs.
  destruct (match dict_get "settable" field with Some v0 => truthy v0 | None => true end);
    [|done].
  injection Hs as <-. unfold state_after, setter.
  destruct v; cbn [fst]; try done;
    (destruct (field_values (objs st x) !! field_name field) eqn:Ef; cbn [fst];
     [done|];
     rewrite objs_upd_obj_eq; repeat split; try done;
     [ intros y Hy; by apply objs_upd_obj_ne
     | intros nm Hn; unfold getter; rewrite objs_upd_obj_eq;
       cbn [with_field_values field_values]; by rewrite lookup_insert_ne ]).
Qed.

Lemma plain_field_assignment_is_local_witness :
  let st' := state_after (setter "f" 8 2 (VInt 1)) chain_store in
  getter "f" st' 2 = VInt 1
  /\ modified (objs st' 2) = false
  /\ getter "g" st' 2 = VNone.
Proof.
  intros st'.
  destruct (plain_field_assignment_is_local [("name", VStr "f")] (setter "f")
              8 2 (VInt 1) chain_store eq_refl)
    as (_ & Hg & Hm & _).
  fold st' in Hg, Hm.
  split; [reflexivity|]. split.
  - rewrite Hm. reflexivity.
  - rewrite (Hg "g"); [reflexivity|discriminate].
Defined.

(** ** The answer of [get_ancestor] *)

Lemma ancestor_of_links st p : forall l x,
  parent_links st (parent (objs st x)) (l ++ [p]) -> ancestor st x p.
Proof.
  induction l as [|y l IH]; intros x H.
  - destruct H as [H _]. by apply ancestor_parent.
  - destruct H as [H Hl]. eapply ancestor_step; [exact H|]. by apply IH.
Qed.

Lemma get_ancestor_loop_answer st dt : forall steps r0 r,
  get_ancestor_loop steps st r0 dt = Some (Ok r) ->
  match r with
  | RObj p =>
      data_type (objs st p) = Some dt
      /\ exists l, parent_links st r0 (l ++ [p])
                   /\ Forall (tagged_other st dt) l /\ length l <= steps
  | RNone =>
      exists l, parent_path st r0 l
                /\ Forall (tagged_other st dt) l /\ length l <= steps
  | RProxy _ => False
  end.
Proof.
  assert (Base : forall steps y t,
            data_type (objs st y) = Some t -> String.eqb t dt = true ->
            match RObj y with
            | RObj p => data_type (objs st p) = Some dt
                /\ exists l, parent_links st (RObj y) (l ++ [p])
                   /\ Forall (tagged_other st dt) l /\ length l <= steps
            | _ => False end).
  { intros steps y t Ht E. apply String.eqb_eq in E. subst t. split; [done|].
    exists []. cbn. repeat split; [constructor|lia]. }
  induction steps as [|steps IH]; intros r0 r H.
  - destruct r0 as [|y|q]; cbn [get_ancestor_loop] in H.
    + injection H as <-. exists []. cbn. repeat split; [constructor|lia].
    + destruct (data_type (objs st y)) as [t|] eqn:Ht; [|done].
      destruct (String.eqb t dt) eqn:E; [|done].
      injection H as <-. by apply (Base 0 y t).
    + done.
  - destruct r0 as [|y|q]; cbn [get_ancestor_loop] in H.
    + injection H as <-. exists []. cbn. repeat split; [constructor|lia].
    + destruct (data_type (objs st y)) as [t|] eqn:Ht; [|done].
      destruct (String.eqb t dt) eqn:E.
      * injection H as <-. by apply (Base (S steps) y t).
      * apply String.eqb_neq in E. apply IH in H.
        assert (T : tagged_other st dt y) by by exists t.
        destruct r as [|p|q'].
        -- destruct H as (l & Hl & Hf & Hn). exists (y :: l).
           cbn [parent_path length]. repeat split; [done|by constructor|lia].
        -- destruct H as (Hp & l & Hl & Hf & Hn). split; [done|]. exists (y :: l).
           cbn [parent_links length app]. repeat split; [done|by constructor|lia].
        -- done.
    + done.
Qed.

(** X24: what [get_ancestor] answers for a type tag is right: an
    instance it returns carries the tag and is reached from the receiver
    by parent links through instances that all carry another tag; [None]
    is returned only after a walk to a root through instances that all
    carry another tag; a proxy is never returned. *)
Theorem get_ancestor_answer_is_nearest_tagged st x dt steps r :
  get_ancestor steps st x (Some dt) = Some (Ok r) ->
  match r with
  | RObj p =>
      data_type (objs st p) = Some dt
      /\ ancestor st x p
      /\ exists l, parent_links st (parent (objs st x)) (l ++ [p])
                   /\ Forall (tagged_other st dt) l
  | RNone =>
      exists l, parent_path st (parent (objs st x)) l
                /\ Forall (tagged_other st dt) l
  | RProxy _ => False
  end.
Proof.
  intros H. cbn [get_ancestor] in H. apply get_ancestor_loop_answer in H.
  destruct r as [|p|q]; [| |done].
  - destruct H as (l & Hl & Hf & _). by exists l.
  - destruct H as (Hp & l & Hl & Hf & _). split; [done|]. split.
    + by apply (ancestor_of_links st p l).
    + by exists l.
Qed.

Lemma get_ancestor_answer_is_nearest_tagged_witness :
  get_ancestor 8 typed_chain_store 2 (Some "File") = Some (Ok (RObj 0))
  /\ ancestor typed_chain_store 2 0.
Proof.
  assert (H : get_ancestor 8 typed_chain_store 2 (Some "File") = Some (Ok (RObj 0)))
    by reflexivity.
  split; [exact H|].
  exact (proj1 (proj2 (get_ancestor_answer_is_nearest_tagged
                         typed_chain_store 2 "File" 8 (RObj 0) H))).
Defined.
